(** * Translations/make_translation.py: symbol codec, glyph packing,
      symbol table allocation and string table suffix merging.

    The Python functions are embedded as Rocq functions over the data they
    handle: Python [int] is [Z], [bytes] is a list of [Z] whose items are
    checked to lie in [range(256)] where Python checks it, a one character
    [str] is its code point, a [str] is the list of its code points, a
    [dict] is a [gmap], a [set] is a [gset], and a raised exception is the
    [Raise] branch of [result]. *)

From stdpp Require Import gmap strings list.
From Stdlib Require Import ZArith Lia.

#[local] Set Warnings "-clear-no-such-hyp".

Local Open Scope Z_scope.

(** ** Exceptions and results *)

Inductive exn : Type :=
| ValueError (msg : string)
| KeyError (msg : string)
| IndexError
| AssertionError
| SystemExit (code : Z).

Inductive result (A : Type) : Type :=
| Ok (a : A)
| Raise (e : exn).
Arguments Ok {A} a.
Arguments Raise {A} e.

Definition bind {A B : Type} (r : result A) (k : A -> result B) : result B :=
  match r with
  | Ok a => k a
  | Raise e => Raise e
  end.

Notation "'let*' x ':=' r 'in' k" := (bind r (fun x => k))
  (at level 10, x name, r at level 100, k at level 200).
Notation "'let*' ( x , y ) ':=' r 'in' k" := (bind r (fun '(x, y) => k))
  (at level 10, x name, y name, r at level 100, k at level 200).
Notation "'let*' ( x , y , z , w ) ':=' r 'in' k" :=
  (bind r (fun '(x, y, z, w) => k))
  (at level 10, x name, y name, z name, w name, r at level 100, k at level 200).

Definition is_Ok {A : Type} (r : result A) : Prop := exists a, r = Ok a.

(** ** Bytes *)

Abbreviation bytes := (list Z).

Definition in_byte_range (b : Z) : bool := (0 <=? b) && (b <? 256).

(** [bytes([b0, b1, ...])]: Python raises [ValueError] for an item outside
    [range(0, 256)]. *)
Definition bytes_of_ints (l : list Z) : result bytes :=
  if forallb in_byte_range l then Ok l
  else Raise (ValueError "bytes must be in range(0, 256)").

(** ** Symbol index codec *)

Definition get_bytes_from_font_index (index : Z) : result bytes :=
  if index <? 0 then Raise (ValueError "index must be positive")
  else
    let page := (index + 0x0E) `div` 0xFF in
    if page >? 0x0F then Raise (ValueError "page value out of range")
    else if page =? 0 then bytes_of_ints [index]
    else
      let leader := page + 0xF0 in
      let value := (index + 0x0E) `mod` 0xFF + 0x01 in
      if (leader >? 0xFF) || (value >? 0xFF)
      then Raise (ValueError "value is out of range")
      else bytes_of_ints [leader; value].

(** The codec as the specification words it: [RangeError] is the
    specification's name for the failure of the codec. *)
Inductive codec_error : Type := RangeError.

Definition encode_spec (ordinal : Z) : bytes + codec_error :=
  let page := (ordinal + 14) `div` 255 in
  if page >? 15 then inr RangeError
  else if page =? 0 then inl [ordinal]
  else
    let leader := 0xF0 + page in
    let value := (ordinal + 14) `mod` 255 + 1 in
    if (leader >? 255) || (value >? 255) then inr RangeError
    else inl [leader; value].

(** One past the largest index the codec encodes: [0xFF 0xFF] is 4065. *)
Definition MAX_FONT_INDEX : Z := 0x10 * 0xFF - 0x0E.

(** An inverse of the codec (the script has none, it only encodes): a
    single byte is its own index, a lead byte [0xF1..0xFF] selects a page
    of 255 indices, following the mapping table in the comment of
    [get_bytes_from_font_index]. *)
Definition decode (bs : bytes) : option Z :=
  match bs with
  | [b] => Some b
  | [leader; value] => Some ((leader - 0xF0) * 0xFF + (value - 0x01) - 0x0E)
  | _ => None
  end.


(** ** Control flow helpers *)

(** [for x in l: s = body(x, s)], stopping at the first exception. *)
Fixpoint for_each {A S : Type} (body : A -> S -> result S) (l : list A) (s : S)
  : result S :=
  match l with
  | [] => Ok s
  | x :: l' => let* s' := body x s in for_each body l' s'
  end.

(** [enumerate(l, start)]. *)
Fixpoint enumerate_from {A : Type} (start : nat) (l : list A) : list (nat * A) :=
  match l with
  | [] => []
  | x :: l' => (start, x) :: enumerate_from (S start) l'
  end.

Definition enumerate {A : Type} (l : list A) : list (nat * A) := enumerate_from 0 l.

(** [l[i]] for a list and a non-negative loop index. *)
Definition list_get {A : Type} (l : list A) (i : nat) : result A :=
  match l !! i with
  | Some x => Ok x
  | None => Raise IndexError
  end.

(** [l[k]] for a list and an arbitrary [int]: a negative [k] counts from
    the end. *)
Definition list_get_int {A : Type} (l : list A) (k : Z) : result A :=
  let len := Z.of_nat (length l) in
  if (0 <=? k) && (k <? len) then list_get l (Z.to_nat k)
  else if (- len <=? k) && (k <? 0) then list_get l (Z.to_nat (k + len))
  else Raise IndexError.

(** [l[i] = v] for a list and a non-negative index. *)
Definition list_set {A : Type} (l : list A) (i : nat) (v : A) : result (list A) :=
  if decide (i < length l)%nat then Ok (<[i := v]> l) else Raise IndexError.

(** [d[k]] for a dict. *)
Definition dict_get `{Countable K} {V : Type} (d : gmap K V) (k : K) : result V :=
  match d !! k with
  | Some v => Ok v
  | None => Raise (KeyError "key")
  end.

(** ** Characters and strings *)

Abbreviation char := N.
Abbreviation str := (list N).

Definition str_of_string (s : string) : str :=
  Ascii.N_of_ascii <$> String.list_ascii_of_string s.

Definition LF : char := 10%N.
Definition BACKSLASH : char := 92%N.

(** ** Glyph packing *)

(** A [bdflib] glyph: the rows of the bitmap, bottom row first, the least
    significant bit of a row being its right-most pixel, and the bounding
    box. *)
Record Glyph : Type := {
  data : list Z;
  bbX : Z;
  bbY : Z;
  bbW : Z;
  bbH : Z;
}.

Definition get_bounding_box (g : Glyph) : Z * Z * Z * Z :=
  (bbX g, bbY g, bbW g, bbH g).

Definition dst_w : Z := 12.
Definition dst_h : Z := 16.

Definition get_cell (glyph : Glyph) (x y : Z) : result bool :=
  let '(src_left, src_bottom, src_w, src_h) := get_bounding_box glyph in
  let adj_x := x - src_left in
  if (adj_x <? 0) || (adj_x >=? src_w) then Ok false
  else
    let adj_y := y - (dst_h - src_h - src_bottom - 3) in
    if (adj_y <? 0) || (adj_y >=? src_h) then Ok false
    else
      let* row := list_get_int (data glyph) (src_h - adj_y - 1) in
      if Z.land row (1 ≪ (src_w - adj_x - 1)) =? 0 then Ok false else Ok true.

(** [bs.append(b)] on a [bytearray]. *)
Definition bytearray_append (bs : bytes) (b : Z) : result bytes :=
  if in_byte_range b then Ok (bs ++ [b])
  else Raise (ValueError "byte must be in range(0, 256)").

(** The loops of [get_cjk_glyph]: [pack_column] is the loop over the eight
    rows of one column of a block, [pack_glyph] the loops over the two
    blocks and the twelve columns. *)
Definition pack_column (glyph : Glyph) (block c : Z) : result Z :=
  for_each (fun r b =>
      let* lit := get_cell glyph c (r + 8 * block) in
      if lit then Ok (Z.lor b (0x01 ≪ r)) else Ok b)
    (seqZ 0 8) 0.

Definition pack_glyph (glyph : Glyph) : result bytes :=
  for_each (fun block bs =>
      for_each (fun c bs =>
          let* b := pack_column glyph block c in
          bytearray_append bs b)
        (seqZ 0 dst_w) bs)
    (seqZ 0 2) [].

(** [cjk_font] is the font read from the BDF file, a table from code
    points to glyphs. *)
Definition get_cjk_glyph (cjk_font : gmap N Glyph) (sym : char) : result bytes :=
  let* glyph := dict_get cjk_font sym in
  pack_glyph glyph.

(** ** Symbol table allocation *)

(** The module [font_tables] is imported by the script and is not part of
    it: the two font names it exports and its lookup of the bitmap tables
    of a named font (large 12x16 table, small 6x8 table) are parameters. *)
Record font_tables : Type := {
  NAME_ASCII_BASIC : string;
  NAME_CJK : string;
  get_font_maps_for_name : string -> result (gmap N bytes * gmap N bytes);
}.

Record FontMap : Type := {
  font12 : gmap N bytes;
  font06 : gmap N (option bytes);
}.

Record FontMapsPerFont : Type := {
  font12_maps : gmap string (gmap N bytes);
  font06_maps : gmap string (gmap N (option bytes));
  sym_lists : gmap string (list N);
}.

(** [(0x10 * 0xFF - 15) - 2], the 4063 of the comment. *)
Definition MAX_SYMBOL_COUNT : Z := (0x10 * 0xFF - 15) - 2.

Definition msg_duplicated : string := "`text_list` contains duplicated symbols".
Definition msg_first_font : string := "First item in `fonts` must be ascii_basic".
Definition msg_too_many : string := "Error, too many used symbols for this version".
Definition msg_not_found : string := "Symbols not found in specified fonts".

(** The state of the loop over [text_list] for one font: the bitmaps and
    the symbol list of the font, and the symbols still pending. *)
Definition font_state : Type :=
  gmap N bytes * gmap N (option bytes) * list N * gset N.

(** The body of [for sym in text_list]. [tables] is [None] for the CJK
    font and the pair [font12, font06] otherwise. [get_cjk_glyph] returns
    bytes or raises, so the test [font12_line is None] never holds. *)
Definition resolve_symbol (cjk_font : gmap N Glyph)
    (tables : option (gmap N bytes * gmap N bytes))
    (sym : char) (st : font_state) : result font_state :=
  let '(font12_map, font06_map, sym_list, pending_sym_set) := st in
  if decide (sym ∉ pending_sym_set) then Ok st
  else
    let* lines :=
      match tables with
      | None =>
          let* font12_line := get_cjk_glyph cjk_font sym in
          Ok (Some (font12_line, None))
      | Some (font12, font06) =>
          match font12 !! sym, font06 !! sym with
          | Some font12_line, Some font06_line =>
              Ok (Some (font12_line, Some font06_line))
          | _, _ => Ok None
          end
      end in
    match lines with
    | None => Ok st
    | Some (font12_line, font06_line) =>
        Ok (<[sym := font12_line]> font12_map,
            <[sym := font06_line]> font06_map,
            sym_list ++ [sym],
            pending_sym_set ∖ {[sym]})
    end.

(** The choice between the CJK font and the tables of a named font:
    [None] stands for [is_cjk = True]. *)
Definition load_font_tables (ft : font_tables) (font : string)
  : result (option (gmap N bytes * gmap N bytes)) :=
  if decide (font = NAME_CJK ft) then Ok None
  else let* t := get_font_maps_for_name ft font in Ok (Some t).

(** The body of [for font in fonts]. The dictionaries stored under [font]
    are shared with the local names that the loop over the symbols
    updates, so the result of that loop is what is stored in the end. *)
Definition resolve_font (ft : font_tables) (cjk_font : gmap N Glyph)
    (text_list : list char) (font : string)
    (st : FontMapsPerFont * gset N) : result (FontMapsPerFont * gset N) :=
  let '(maps, pending_sym_set) := st in
  let store (font12_map : gmap N bytes) (font06_map : gmap N (option bytes))
            (sym_list : list N) :=
    {| font12_maps := <[font := font12_map]> (font12_maps maps);
       font06_maps := <[font := font06_map]> (font06_maps maps);
       sym_lists := <[font := sym_list]> (sym_lists maps) |} in
  if decide (size pending_sym_set = 0%nat) then Ok (store ∅ ∅ [], pending_sym_set)
  else
    let* tables := load_font_tables ft font in
    let* (font12_map, font06_map, sym_list, pending_sym_set) :=
      for_each (resolve_symbol cjk_font tables) text_list
               (∅, ∅, [], pending_sym_set) in
    Ok (store font12_map font06_map sym_list, pending_sym_set).

Definition get_font_map_per_font (ft : font_tables) (cjk_font : gmap N Glyph)
    (text_list : list char) (fonts : list string) : result FontMapsPerFont :=
  let pending_sym_set : gset N := list_to_set text_list in
  if decide (size pending_sym_set ≠ length text_list)
  then Raise (ValueError msg_duplicated)
  else
    let* first := list_get fonts 0 in
    if decide (first ≠ NAME_ASCII_BASIC ft) then Raise (ValueError msg_first_font)
    else
      let total_symbol_count := Z.of_nat (length text_list) in
      if total_symbol_count >? MAX_SYMBOL_COUNT then Raise (ValueError msg_too_many)
      else
        let* (maps, pending_sym_set) :=
          for_each (resolve_font ft cjk_font text_list) fonts
                   ({| font12_maps := ∅; font06_maps := ∅; sym_lists := ∅ |},
                    pending_sym_set) in
        if decide (0 < size pending_sym_set)%nat then Raise (KeyError msg_not_found)
        else Ok maps.

(** ["0"] to ["9"]. *)
Definition forced_first_symbols : list char :=
  [48; 49; 50; 51; 52; 53; 54; 55; 56; 57]%N.

(** [forced_first_symbols + [x for x in text_list if x not in
    forced_first_symbols]], the list handed to the font resolution. *)
Definition candidate_list (text_list : list char) : list char :=
  forced_first_symbols ++ filter (fun x => x ∉ forced_first_symbols) text_list.

(** [for font in fonts: font12_map.update(...); font06_map.update(...)]:
    [update] lets the entries of its argument win. *)
Definition merge_font_maps (font_maps : FontMapsPerFont) (fonts : list string)
  : result (gmap N bytes * gmap N (option bytes)) :=
  for_each (fun font '(font12_map, font06_map) =>
      let* f12 := dict_get (font12_maps font_maps) font in
      let* f06 := dict_get (font06_maps font_maps) font in
      Ok (f12 ∪ font12_map, f06 ∪ font06_map))
    fonts (∅, ∅).

(** The loop that splits the symbols into those with both fonts and those
    with the large font only. *)
Definition split_by_fonts (font06_map : gmap N (option bytes))
    (text_list : list char) : result (list char * list char) :=
  for_each (fun sym '(sym_list_both_fonts, sym_list_large_only) =>
      let* small := dict_get font06_map sym in
      match small with
      | None => Ok (sym_list_both_fonts, sym_list_large_only ++ [sym])
      | Some _ => Ok (sym_list_both_fonts ++ [sym], sym_list_large_only)
      end)
    text_list ([], []).

(** [for index, sym in enumerate(sym_list, index)]. *)
Definition assign_symbol_bytes (sym_list : list char) (index : nat)
    (symbol_map : gmap N bytes) : result (gmap N bytes) :=
  for_each (fun '(index, sym) symbol_map =>
      if decide (is_Some (symbol_map !! sym)) then Raise AssertionError
      else
        let* code := get_bytes_from_font_index (Z.of_nat index) in
        Ok (<[sym := code]> symbol_map))
    (enumerate_from index sym_list) symbol_map.

Definition get_font_map_and_table (ft : font_tables) (cjk_font : gmap N Glyph)
    (text_list : list char) (fonts : list string)
  : result (list char * FontMap * gmap N bytes) :=
  let symbol_map : gmap N bytes := {[ LF := [1] ]} in
  let index := 2%nat in
  let text_list := candidate_list text_list in
  let* font_maps := get_font_map_per_font ft cjk_font text_list fonts in
  let* (font12_map, font06_map) := merge_font_maps font_maps fonts in
  let* (sym_list_both_fonts, sym_list_large_only) :=
    split_by_fonts font06_map text_list in
  let sym_list := sym_list_both_fonts ++ sym_list_large_only in
  let* symbol_map := assign_symbol_bytes sym_list index symbol_map in
  Ok (sym_list, {| font12 := font12_map; font06 := font06_map |}, symbol_map).

(** ** String conversion *)

(** [text.replace(old, new)] for a pattern [old] of the two characters
    [a], [b]: occurrences are replaced from left to right and do not
    overlap. *)
Fixpoint replace2 (a b : char) (new : str) (text : str) : str :=
  match text with
  | [] => []
  | x :: t =>
      match t with
      | [] => [x]
      | y :: t' =>
          if decide (x = a ∧ y = b) then new ++ replace2 a b new t'
          else x :: replace2 a b new t
      end
  end.

(** A missing symbol ends the script with [sys.exit(1)]. *)
Definition convert_string_bytes (symbol_conversion_table : gmap N bytes)
    (text : str) : result bytes :=
  for_each (fun c output_string =>
      match symbol_conversion_table !! c with
      | None => Raise (SystemExit 1)
      | Some code => Ok (output_string ++ code)
      end)
    (replace2 BACKSLASH 110%N [LF] (replace2 BACKSLASH 114%N [] text)) [].

(** ** Suffix merging of the string table *)

(** [b.startswith(prefix)] on bytes. *)
Fixpoint startswith (b prefix : bytes) {struct prefix} : bool :=
  match prefix, b with
  | [], _ => true
  | _ :: _, [] => false
  | p :: prefix', x :: b' => (x =? p) && startswith b' prefix'
  end.

(** [a <= b] on bytes: the lexicographic order of Python. *)
Fixpoint bytes_le (a b : bytes) : bool :=
  match a, b with
  | [], _ => true
  | _ :: _, [] => false
  | x :: a', y :: b' =>
      if x <? y then true else if y <? x then false else bytes_le a' b'
  end.

(** [sorted(l, key=key)] for keys that are bytes. Python's sort is stable:
    items with equal keys keep their order, which determines the result;
    it is computed here by insertion from the right. *)
Fixpoint insert_by_key {A : Type} (key : A -> bytes) (x : A) (l : list A) : list A :=
  match l with
  | [] => [x]
  | y :: l' =>
      if bytes_le (key x) (key y) then x :: l else y :: insert_by_key key x l'
  end.

Definition sorted {A : Type} (key : A -> bytes) (l : list A) : list A :=
  foldr (insert_by_key key) [] l.

(** A list built from the results of [f] on the items of [l], in order. *)
Fixpoint map_result {A B : Type} (f : A -> result B) (l : list A) : result (list B) :=
  match l with
  | [] => Ok []
  | x :: l' => let* y := f x in let* ys := map_result f l' in Ok (y :: ys)
  end.

(** An item of [backward_sorted_table]: the index of a string, the string,
    and its converted bytes reversed. *)
Abbreviation entry := (nat * str * bytes)%type.

Definition backward_sorted_table (symbol_conversion_table : gmap N bytes)
    (str_table : list str) : result (list entry) :=
  let* items :=
    map_result (fun '(i, s) =>
        let* converted := convert_string_bytes symbol_conversion_table s in
        Ok (i, s, reverse converted))
      (enumerate str_table) in
  Ok (sorted (fun x : entry => x.2) items).

Record RemappedTranslationItem : Type := Remapped {
  str_index : nat;
  str_start_offset : Z;
}.

(** [while backward_sorted_table[j + 1][2].startswith(converted): j += 1].
    [following] is [backward_sorted_table[j + 1:]]; when it is empty the
    index [j + 1] is out of range. *)
Fixpoint extend_run (converted : bytes) (following : list entry) (j : nat)
  : result nat :=
  match following with
  | [] => Raise IndexError
  | next :: following' =>
      if startswith next.2 converted then extend_run converted following' (S j)
      else Ok j
  end.

(** The body of the loop over [enumerate(backward_sorted_table[:-1])]. *)
Definition remap_entry (table : list entry) (item : nat * entry)
    (str_remapping : list (option RemappedTranslationItem))
  : result (list (option RemappedTranslationItem)) :=
  let '(i, (index, source_str, converted)) := item in
  let* j := extend_run converted (drop (S i) table) i in
  if decide (j ≠ i) then
    let* target := list_get table j in
    list_set str_remapping index
      (Some (Remapped target.1.1
               (Z.of_nat (length target.2) - Z.of_nat (length converted))))
  else Ok str_remapping.

Definition suffix_merge (table : list entry) (len_str_table : nat)
  : result (list (option RemappedTranslationItem)) :=
  for_each (remap_entry table)
    (enumerate (take (length table - 1) table))
    (replicate len_str_table None).

(** ** Writing the string table *)

(** The state of the loop that writes the strings. [strings_data] holds
    the bytes of the string literals emitted so far into the initializer
    of [TranslationStringsData]: the converted bytes of a string are
    emitted as one literal, and a literal ["\0"] before every string but
    the first. *)
Record writer : Type := Writer {
  offset : Z;
  write_null : bool;
  strings_data : bytes;
  str_offsets : list Z;
}.

(** [[i] + [j for j, r in enumerate(str_remapping) if r and r.str_index == i]] *)
Definition str_used_by (str_remapping : list (option RemappedTranslationItem))
    (i : nat) : list nat :=
  i :: omap (fun '(j, r) =>
          match r with
          | Some r => if decide (str_index r = i) then Some j else None
          | None => None
          end)
        (enumerate str_remapping).

(** The body of [for j in str_used_by], without the comments it emits. *)
Definition record_offset (str_remapping : list (option RemappedTranslationItem))
    (i : nat) (offset : Z) (j : nat) (str_offsets : list Z) : result (list Z) :=
  if decide (j = i) then list_set str_offsets j offset
  else
    let* remapped := list_get str_remapping j in
    match remapped with
    | None => Raise AssertionError
    | Some remapped => list_set str_offsets j (offset + str_start_offset remapped)
    end.

(** The body of [for i, source_str in enumerate(str_table)]. *)
Definition write_string (symbol_conversion_table : gmap N bytes)
    (str_remapping : list (option RemappedTranslationItem))
    (item : nat * str) (w : writer) : result writer :=
  let '(i, source_str) := item in
  let* remapped := list_get str_remapping i in
  match remapped with
  | Some _ => Ok w
  | None =>
      let data := if write_null w then strings_data w ++ [0] else strings_data w in
      let* offsets :=
        for_each (record_offset str_remapping i (offset w))
                 (str_used_by str_remapping i) (str_offsets w) in
      let* converted_bytes := convert_string_bytes symbol_conversion_table source_str in
      let* offsets := list_set offsets i (offset w) in
      Ok (Writer (offset w + Z.of_nat (length converted_bytes) + 1) true
                 (data ++ converted_bytes) offsets)
  end.

(** The bytes of the array [TranslationStringsData] that the emitted
    initializer denotes: adjacent string literals are concatenated and the
    array ends with the terminating zero of the literal. *)
Definition TranslationStringsData (w : writer) : bytes :=
  if write_null w then strings_data w ++ [0] else strings_data w.

(** The suffix merging and the writing of the string table in
    [get_translation_strings_and_indices_text], from the table of the
    strings to the remapping, the bytes of the array and the offsets. *)
Definition get_translation_strings_and_indices
    (symbol_conversion_table : gmap N bytes) (str_table : list str)
  : result (list (option RemappedTranslationItem) * bytes * list Z) :=
  let* table := backward_sorted_table symbol_conversion_table str_table in
  let* str_remapping := suffix_merge table (length str_table) in
  let* w :=
    for_each (write_string symbol_conversion_table str_remapping)
      (enumerate str_table)
      (Writer 0 false [] (replicate (length str_table) (-1))) in
  Ok (str_remapping, TranslationStringsData w, str_offsets w).

Definition get_offset (str_offsets : list Z) (idx : nat) : result Z :=
  let* o := list_get str_offsets idx in
  if o >=? 0 then Ok o else Raise AssertionError.

(** ** Reading the string table *)

(** Reading a string of the table at an offset: the bytes from [offset]
    up to, and without, the next zero byte. There is no such string when
    no zero byte follows. *)
Fixpoint until_null (bs : bytes) : option bytes :=
  match bs with
  | [] => None
  | b :: bs' => if b =? 0 then Some [] else cons b <$> until_null bs'
  end.

Definition read_string (blob : bytes) (offset : Z) : option bytes :=
  if offset <? 0 then None else until_null (drop (Z.to_nat offset) blob).

(** [b[i:j]] for bytes and non-negative bounds. *)
Definition slice (b : bytes) (i j : nat) : bytes := take (j - i) (drop i b).

(** The bytes [converted], followed by a zero byte, stand in [blob] at
    the offset [o]. *)
Definition placed (blob : bytes) (o : Z) (converted : bytes) : Prop :=
  0 <= o /\ exists rest, drop (Z.to_nat o) blob = converted ++ 0 :: rest.

(** ** Predicates of the statements: glyphs *)

(** The bounding box of the glyph, placed in the target cell as [get_cell]
    places it, contains the pixel [(x, y)] of the cell. *)
Definition box_covers (glyph : Glyph) (x y : Z) : Prop :=
  0 <= x - bbX glyph < bbW glyph /\
  0 <= y - (dst_h - bbH glyph - bbY glyph - 3) < bbH glyph.

(** The placed bounding box lies fully outside the 12x16 cell. *)
Definition box_outside_cell (glyph : Glyph) : Prop :=
  forall x y : Z, 0 <= x < dst_w -> 0 <= y < dst_h -> ~ box_covers glyph x y.

(** ** Predicates of the statements: fonts *)

(** The two groups of the final order, as the builder tells them apart:
    the small font map holds bytes for the symbol ([has_both_fonts]), or
    it holds the placeholder [None] ([is_large_only]). *)
Definition has_both_fonts (font06_map : gmap N (option bytes)) (sym : char) : bool :=
  match font06_map !! sym with
  | Some (Some _) => true
  | _ => false
  end.

Definition is_large_only (font06_map : gmap N (option bytes)) (sym : char) : bool :=
  match font06_map !! sym with
  | Some None => true
  | _ => false
  end.

(** The small font entry that a font records for a symbol it supplies:
    the placeholder [None] for the CJK font, the entry of the small table
    for a table font. *)
Definition resolved_by (tables : option (gmap N bytes * gmap N bytes))
    (sym : char) (font06_line : option bytes) : Prop :=
  match tables with
  | None => font06_line = None
  | Some (font12, font06) =>
      is_Some (font12 !! sym) /\ exists small, font06 !! sym = Some small /\
      font06_line = Some small
  end.


(** Every symbol for which a font has recorded a small font entry (bytes
    or the placeholder) has a large bitmap recorded by the same font. *)
Definition large_recorded (maps : FontMapsPerFont) : Prop :=
  forall font m06, font06_maps maps !! font = Some m06 ->
    exists m12, font12_maps maps !! font = Some m12 /\
      forall s, is_Some (m06 !! s) -> is_Some (m12 !! s).

(** Some font outside [fonts] has recorded a small font entry for the
    symbol. *)
Definition recorded_outside (maps : FontMapsPerFont) (fonts : list string)
    (sym : char) : Prop :=
  exists font m, (font ∉ fonts) /\ font06_maps maps !! font = Some m /\
                 is_Some (m !! sym).

(** A table font supplies a symbol when both of its tables have an entry
    for it. *)
Definition table_supplies (ft : font_tables) (font : string) (sym : char) : Prop :=
  exists font12 font06 : gmap N bytes,
    get_font_maps_for_name ft font = Ok (font12, font06) /\
    is_Some (font12 !! sym) /\ is_Some (font06 !! sym).

(** The fonts, tried in their order, resolve the symbol: a table font that
    comes before the CJK font supplies it, or the CJK font is reached and
    packs its glyph. *)
Fixpoint covered (ft : font_tables) (cjk_font : gmap N Glyph)
    (fonts : list string) (sym : char) : Prop :=
  match fonts with
  | [] => False
  | font :: fonts' =>
      if decide (font = NAME_CJK ft) then is_Ok (get_cjk_glyph cjk_font sym)
      else table_supplies ft font sym \/ covered ft cjk_font fonts' sym
  end.

(** What the claims about the digits assume of the module [font_tables]:
    the baseline ASCII font is a table font, not the CJK font, and its two
    tables have an entry for each digit. *)
Definition baseline_supplies_digits (ft : font_tables) : Prop :=
  NAME_ASCII_BASIC ft <> NAME_CJK ft /\
  exists font12 font06 : gmap N bytes,
    get_font_maps_for_name ft (NAME_ASCII_BASIC ft) = Ok (font12, font06) /\
    forall d, d ∈ forced_first_symbols -> is_Some (font12 !! d) /\ is_Some (font06 !! d).

(** ** Predicates of the statements: strings *)

(** The item that follows position [p] of the table does not continue
    the item [e] of position [p]: the scan leaves [e] where it is. *)
Definition startswith_next_false (table : list entry) (p : nat) (e : entry) : Prop :=
  exists next, table !! S p = Some next /\ startswith next.2 e.2 = false.

(** The string during whose turn the writing loop records the offset of
    the string [x]: [x] itself, or the string that [x] is remapped to. *)
Definition owner (str_remapping : list (option RemappedTranslationItem))
    (x : nat) : option nat :=
  match str_remapping !! x with
  | Some None => Some x
  | Some (Some r) => Some (str_index r)
  | None => None
  end.

(** Every remapping sends a string to a string that is not remapped and
    whose converted bytes end with those of the first, which start at the
    recorded offset. *)
Definition suffix_remapping (symbol_conversion_table : gmap N bytes)
    (str_table : list str)
    (str_remapping : list (option RemappedTranslationItem)) : Prop :=
  forall a b off, str_remapping !! a = Some (Some (Remapped b off)) ->
    str_remapping !! b = Some None /\
    exists sa sb ca pre,
      str_table !! a = Some sa /\ str_table !! b = Some sb /\
      convert_string_bytes symbol_conversion_table sa = Ok ca /\
      convert_string_bytes symbol_conversion_table sb = Ok (pre ++ ca) /\
      off = Z.of_nat (length pre).

(** The offset recorded for the string [x] is where its converted bytes
    and their terminator stand in the array written so far, and when [x]
    is remapped it is the offset recorded for the target plus the start
    offset of the remapping. *)
Definition string_placed (symbol_conversion_table : gmap N bytes)
    (str_table : list str)
    (str_remapping : list (option RemappedTranslationItem))
    (w : writer) (x : nat) : Prop :=
  exists s converted o,
    str_table !! x = Some s /\
    convert_string_bytes symbol_conversion_table s = Ok converted /\
    str_offsets w !! x = Some o /\
    placed (TranslationStringsData w) o converted /\
    forall b off, str_remapping !! x = Some (Some (Remapped b off)) ->
      str_offsets w !! b = Some (o - off).

(** Every string of the table is converted without a missing symbol and
    the suffix merging scan runs to its end. *)
Definition scan_completes (symbol_conversion_table : gmap N bytes)
    (str_table : list str) : Prop :=
  exists table str_remapping,
    backward_sorted_table symbol_conversion_table str_table = Ok table /\
    suffix_merge table (length str_table) = Ok str_remapping.

(** Every offset of the string table reads back the converted bytes of its
    string. *)
Definition reads_back (symbol_conversion_table : gmap N bytes)
    (str_table : list str) (blob : bytes) (offsets : list Z) : Prop :=
  length offsets = length str_table /\
  forall i s, str_table !! i = Some s ->
    exists o converted,
      offsets !! i = Some o /\
      convert_string_bytes symbol_conversion_table s = Ok converted /\
      read_string blob o = Some converted.

(** C1 as the specification states it: whenever every string is converted
    without error, the array and the offsets are produced and read back. *)
Definition compaction_correct (symbol_conversion_table : gmap N bytes)
    (str_table : list str) : Prop :=
  (forall s, s ∈ str_table ->
     is_Ok (convert_string_bytes symbol_conversion_table s)) ->
  exists str_remapping blob offsets,
    get_translation_strings_and_indices symbol_conversion_table str_table
      = Ok (str_remapping, blob, offsets) /\
    reads_back symbol_conversion_table str_table blob offsets.

(** ** Sample inputs *)

(** A glyph one pixel wide and two pixels high, twenty pixels to the right
    of the origin of the cell. *)
Definition glyph_right_of_cell : Glyph :=
  {| data := [1; 1]; bbX := 20; bbY := 0; bbW := 1; bbH := 2 |}.

(** A small instance of [font_tables]: one table font, ["ascii_basic"],
    with blank bitmaps for the digits and for the letters a, b and c. *)
Definition sample_symbols : list char := forced_first_symbols ++ [97; 98; 99]%N.

Definition sample_font12 : gmap N bytes :=
  list_to_map ((fun c => (c, replicate 24 0)) <$> sample_symbols).

Definition sample_font06 : gmap N bytes :=
  list_to_map ((fun c => (c, replicate 6 0)) <$> sample_symbols).

Definition sample_font_tables : font_tables :=
  {| NAME_ASCII_BASIC := "ascii_basic";
     NAME_CJK := "cjk";
     get_font_maps_for_name name :=
       if decide (name = "ascii_basic") then Ok (sample_font12, sample_font06)
       else Raise (ValueError "Invalid font name") |}.

(** A CJK font with the single glyph U+4E00, a horizontal stroke. *)
Definition sample_cjk_font : gmap N Glyph :=
  {[ 0x4E00%N := {| data := [0; 0; 0; 0; 0x7FE; 0; 0; 0; 0; 0; 0];
                    bbX := 0; bbY := -1; bbW := 11; bbH := 11 |} ]}.

(** A run of the table builder on the sample fonts: the letters a and b,
    the CJK symbol U+4E00 and the digit 1, in the order of their use. *)
Definition sample_text_list : list char := [97; 0x4E00; 98; 49]%N.
Definition sample_fonts : list string := ["ascii_basic"; "cjk"].

Definition sample_table : list char * FontMap * gmap N bytes :=
  match get_font_map_and_table sample_font_tables sample_cjk_font
          sample_text_list sample_fonts with
  | Ok r => r
  | Raise _ => ([], {| font12 := ∅; font06 := ∅ |}, ∅)
  end.

(** 4065 distinct symbols, U+0100 onwards. *)
Definition many_symbols : list char := N.of_nat <$> seq 256 4065.

(** The table that maps every lower case letter to its ASCII byte. *)
Definition ascii_letters_table : gmap N bytes :=
  list_to_map ((fun c => (Z.to_N c, [c])) <$> seqZ 97 26).

(** The strings of the scenario: ["ab"], ["cdab"], ["xyz"]. *)
Definition scenario_strings : list str :=
  str_of_string <$> ["ab"; "cdab"; "xyz"].

(** The strings of the comment on the sorting: ["ef"], ["cdef"],
    ["abcdef"]. *)
Definition comment_strings : list str :=
  str_of_string <$> ["ef"; "cdef"; "abcdef"].

(** A table whose code for the letter a is the zero byte. *)
Definition null_code_table : gmap N bytes := {[ 97%N := [0] ]}.

(** ** Predicates of the further statements *)

(** The bitmaps that a font supplies for a symbol: the packed glyph and
    the placeholder [None] for the CJK font ([tables] is [None]), the
    entries of the large and of the small table for a table font. *)
Definition supplied_lines (cjk_font : gmap N Glyph)
    (tables : option (gmap N bytes * gmap N bytes))
    (sym : char) (font12_line : bytes) (font06_line : option bytes) : Prop :=
  match tables with
  | None => get_cjk_glyph cjk_font sym = Ok font12_line /\ font06_line = None
  | Some (font12, font06) =>
      font12 !! sym = Some font12_line /\
      exists small, font06 !! sym = Some small /\ font06_line = Some small
  end.

Definition supplied_by (ft : font_tables) (cjk_font : gmap N Glyph) (font : string)
    (sym : char) (font12_line : bytes) (font06_line : option bytes) : Prop :=
  exists tables, load_font_tables ft font = Ok tables /\
                 supplied_lines cjk_font tables sym font12_line font06_line.

(** The two dictionaries of a font hold entries for the same symbols, and
    the entries of a symbol are the bitmaps that the font supplies. *)
Definition font_lines_recorded (ft : font_tables) (cjk_font : gmap N Glyph)
    (font : string) (m12 : gmap N bytes) (m06 : gmap N (option bytes)) : Prop :=
  forall s, (m12 !! s = None /\ m06 !! s = None) \/
            exists v x, m12 !! s = Some v /\ m06 !! s = Some x /\
                        supplied_by ft cjk_font font s v x.

(** The invariant of the loop over the fonts: a font has both of its
    dictionaries or none, they hold what the font supplies, a recorded
    symbol is not pending and is recorded by one font only. *)
Definition fonts_recorded (ft : font_tables) (cjk_font : gmap N Glyph)
    (maps : FontMapsPerFont) (pend : gset N) : Prop :=
  (forall font,
     (font12_maps maps !! font = None /\ font06_maps maps !! font = None) \/
     exists m12 m06, font12_maps maps !! font = Some m12 /\
                     font06_maps maps !! font = Some m06 /\
                     font_lines_recorded ft cjk_font font m12 m06) /\
  (forall font m06 s, font06_maps maps !! font = Some m06 -> is_Some (m06 !! s) ->
     (s ∉ pend) /\
     forall font' m06', font06_maps maps !! font' = Some m06' -> is_Some (m06' !! s) ->
       font' = font).

(** The pixel [(x, y)] of the cell is lit in the glyph: the placed
    bounding box covers it and the bit of its column is set in its row of
    the bitmap, the first row being the bottom row and the least
    significant bit the right-most column. *)
Definition glyph_pixel (glyph : Glyph) (x y : Z) : Prop :=
  box_covers glyph x y /\
  exists row,
    data glyph !! Z.to_nat (bbH glyph - (y - (dst_h - bbH glyph - bbY glyph - 3)) - 1)
      = Some row /\
    Z.testbit row (bbW glyph - (x - bbX glyph) - 1) = true.

(** The keys of the items of a list are in ascending order. *)
Fixpoint sorted_by_key {A : Type} (key : A -> bytes) (l : list A) : Prop :=
  match l with
  | [] => True
  | x :: l' => Forall (fun y => bytes_le (key x) (key y) = true) l' /\ sorted_by_key key l'
  end.


(** ** Counting the symbols

    The second half of [get_letter_counts]: the loop that counts the
    letters of the collected strings and the sort by occurrence. The
    first half collects the strings from the JSON objects of the
    translation and is the argument [text_list] here. *)

Definition CR : char := 13%N.

(** [line.replace(c, "")] for a string [c] of one character. *)
Definition remove_char (c : char) (line : str) : str :=
  filter (fun x => x <> c) line.

(** [line.replace("\n", "").replace("\r", "")] and then
    [line.replace("\\n", "").replace("\\r", "")]: the line breaks and the
    two-character escapes of a line break are dropped. *)
Definition strip_line (line : str) : str :=
  replace2 BACKSLASH 114%N []
    (replace2 BACKSLASH 110%N [] (remove_char CR (remove_char LF line))).

(** [symbol_counts[letter] = symbol_counts.get(letter, 0) + 1] *)
Definition count_letter (symbol_counts : gmap N nat) (letter : char) : gmap N nat :=
  <[letter := (default 0%nat (symbol_counts !! letter) + 1)%nat]> symbol_counts.

Definition count_symbols (text_list : list str) : gmap N nat :=
  foldl (fun symbol_counts line => foldl count_letter symbol_counts (strip_line line))
        ∅ text_list.

(** The order of the keys [(kv[1], kv[0])]: by count, then by code
    point. *)
Definition count_key_le (a b : char * nat) : bool :=
  (a.2 <? b.2)%nat || ((a.2 =? b.2)%nat && (a.1 <=? b.1)%N).

Fixpoint insert_by_count (x : char * nat) (l : list (char * nat)) : list (char * nat) :=
  match l with
  | [] => [x]
  | y :: l' => if count_key_le x y then x :: l else y :: insert_by_count x l'
  end.

(** [sorted(symbol_counts.items(), key=lambda kv: (kv[1], kv[0]))]. The
    keys of two items differ, since their symbols do, so the result does
    not depend on the order in which the dictionary yields its items. *)
Definition sorted_by_count (items : list (char * nat)) : list (char * nat) :=
  foldr insert_by_count [] items.

Definition symbols_by_occurrence (text_list : list str) : list char :=
  reverse ((sorted_by_count (map_to_list (count_symbols text_list))).*1).

(** [prepare_language] after the strings are collected: the symbols are
    counted and handed to the table builder with the fonts of the
    language. *)
Definition prepare_language (ft : font_tables) (cjk_font : gmap N Glyph)
    (text_list : list str) (fonts : list string)
  : result (list char * FontMap * gmap N bytes) :=
  get_font_map_and_table ft cjk_font (symbols_by_occurrence text_list) fonts.

(** The number of times a symbol occurs in the stripped lines. *)
Definition occurrences (text_list : list str) (c : char) : nat :=
  length (filter (fun x => x = c) (concat (strip_line <$> text_list))).

(** The items of a list are in ascending order of their keys. *)
Fixpoint sorted_by_count_key (l : list (char * nat)) : Prop :=
  match l with
  | [] => True
  | x :: l' => Forall (fun y => count_key_le x y = true) l' /\ sorted_by_count_key l'
  end.

(** The strings ["ab"] and ["b1"] and the tables that [prepare_language]
    builds for them from the sample fonts. *)
Definition sample_lines : list str := str_of_string <$> ["ab"; "b1"].

Definition sample_language : list char * FontMap * gmap N bytes :=
  match prepare_language sample_font_tables sample_cjk_font sample_lines sample_fonts with
  | Ok r => r
  | Raise _ => ([], {| font12 := ∅; font06 := ∅ |}, ∅)
  end.

(** ** Emitting the font tables *)

Definition hex_digit (d : Z) : char :=
  nth (Z.to_nat d) (str_of_string "0123456789ABCDEF") 48%N.

(** [f"{i:02X}"] for an item [i] of [bytes]: the items of [bytes] are in
    [range(256)], so there are two digits. *)
Definition format_02X (i : Z) : str := [hex_digit (i `div` 16); hex_digit (i `mod` 16)].

(** [sep.join(l)] *)
Fixpoint str_join (sep : str) (l : list str) : str :=
  match l with
  | [] => []
  | [x] => x
  | x :: l' => x ++ sep ++ str_join sep l'
  end.

Definition bytes_to_escaped (b : bytes) : str :=
  concat ((fun i => str_of_string "\x" ++ format_02X i) <$> b).

Definition bytes_to_c_hex (b : bytes) : str :=
  str_join (str_of_string ", ") ((fun i => str_of_string "0x" ++ format_02X i) <$> b)
    ++ str_of_string ",".

Definition make_font_table_12_cpp (sym_list : list char) (font_map : FontMap)
    (symbol_map : gmap N bytes) : result str :=
  let* output_table :=
    for_each (fun sym output_table =>
        let* font12_line := dict_get (font12 font_map) sym in
        let* code := dict_get symbol_map sym in
        Ok (output_table ++ bytes_to_c_hex font12_line ++ str_of_string "//"
              ++ bytes_to_escaped code ++ str_of_string " -> " ++ [sym] ++ [LF]))
      sym_list (str_of_string "const uint8_t USER_FONT_12[] = {" ++ [LF]) in
  Ok (output_table ++ str_of_string "};" ++ [LF]).

(** [if font_bytes:] holds for bytes that are not empty; [None] and the
    empty bytes give the placeholder line. *)
Definition make_font_table_06_cpp (sym_list : list char) (font_map : FontMap)
    (symbol_map : gmap N bytes) : result str :=
  let* output_table :=
    for_each (fun sym output_table =>
        let* font_bytes := dict_get (font06 font_map) sym in
        let font_line :=
          match font_bytes with
          | Some (b :: bs) => bytes_to_c_hex (b :: bs)
          | _ => str_of_string "//                                 "
          end in
        let* code := dict_get symbol_map sym in
        Ok (output_table ++ font_line ++ str_of_string "//"
              ++ bytes_to_escaped code ++ str_of_string " -> " ++ [sym] ++ [LF]))
      sym_list (str_of_string "const uint8_t USER_FONT_6x8[] = {" ++ [LF]) in
  Ok (output_table ++ str_of_string "};" ++ [LF]).

Definition make_font_table_cpp (sym_list : list char) (font_map : FontMap)
    (symbol_map : gmap N bytes) : result str :=
  let* output_table := make_font_table_12_cpp sym_list font_map symbol_map in
  let* table06 := make_font_table_06_cpp sym_list font_map symbol_map in
  Ok (output_table ++ table06).

(** The loop of [write_language] that collects the large bitmaps before
    they are compressed:
    [for sym in sym_list: font12_uncompressed.extend(font_map.font12[sym])]. *)
Definition font12_uncompressed (sym_list : list char) (font_map : FontMap)
  : result bytes :=
  for_each (fun sym acc =>
      let* font12_line := dict_get (font12 font_map) sym in
      Ok (acc ++ font12_line))
    sym_list [].

(** The large bitmaps of the table fonts have 24 bytes each, as the
    packed glyphs of the CJK font have. *)
Definition large_bitmaps_24 (ft : font_tables) (fonts : list string) : Prop :=
  forall font table12 table06 s b,
    font ∈ fonts -> font <> NAME_CJK ft ->
    get_font_maps_for_name ft font = Ok (table12, table06) ->
    table12 !! s = Some b -> length b = 24%nat.

(** ** Writing bytes as a C array *)

(** [range(0, stop, step)] *)
Definition range_step (stop step : Z) : result (list Z) :=
  if step =? 0 then Raise (ValueError "range() arg 3 must not be zero")
  else
    let n := if 0 <? step then (stop + step - 1) `div` step
             else (- stop - step - 1) `div` (- step) in
    Ok ((fun k => k * step) <$> seqZ 0 n).

(** [data[i:j]]: a negative bound counts from the end, and the bounds are
    clipped to the length. *)
Definition bytes_slice (data : bytes) (i j : Z) : bytes :=
  let len := Z.of_nat (length data) in
  let clip x := Z.max 0 (Z.min len (if x <? 0 then x + len else x)) in
  take (Z.to_nat (clip j) - Z.to_nat (clip i)) (drop (Z.to_nat (clip i)) data).

(** [[data[i : i + bytes_per_line] for i in range(0, len(data),
    bytes_per_line)]], the rows of the array. *)
Definition c_array_rows (data : bytes) (bytes_per_line : Z) : result (list bytes) :=
  let* starts := range_step (Z.of_nat (length data)) bytes_per_line in
  Ok ((fun i => bytes_slice data i (i + bytes_per_line)) <$> starts).

(** The text that [write_bytes_as_c_array] writes to [f] when it
    returns. *)
Definition write_bytes_as_c_array (name : str) (data : bytes)
    (indent bytes_per_line : Z) : result str :=
  let* rows := c_array_rows data bytes_per_line in
  Ok (str_of_string "const uint8_t " ++ name ++ str_of_string "[] = {" ++ [LF]
      ++ concat ((fun row =>
                    replicate (Z.to_nat indent) 32%N
                    ++ str_join (str_of_string ", ")
                         ((fun b => str_of_string "0x" ++ format_02X b) <$> row)
                    ++ str_of_string "," ++ [LF]) <$> rows)
      ++ str_of_string "}; // " ++ name ++ [LF; LF]).

(** ** Reading the emitted bytes

    The value of a hexadecimal digit, and the bytes that a string of
    [\xHH] escapes and a row [0xHH, 0xHH,] of a C initializer denote. *)
Definition hex_value (c : char) : option Z :=
  if (48 <=? c)%N && (c <=? 57)%N then Some (Z.of_N c - 48)
  else if (65 <=? c)%N && (c <=? 70)%N then Some (Z.of_N c - 55)
  else None.

Fixpoint parse_escaped (text : str) : option bytes :=
  match text with
  | [] => Some []
  | 92%N :: 120%N :: h :: l :: rest =>
      hi ← hex_value h; lo ← hex_value l; bs ← parse_escaped rest;
      Some (16 * hi + lo :: bs)
  | _ => None
  end.

Fixpoint parse_c_hex (text : str) : option bytes :=
  match text with
  | [44%N] => Some []
  | 48%N :: 120%N :: h :: l :: rest =>
      hi ← hex_value h; lo ← hex_value l;
      match rest with
      | [44%N] => Some [16 * hi + lo]
      | 44%N :: 32%N :: rest' => bs ← parse_c_hex rest'; Some (16 * hi + lo :: bs)
      | _ => None
      end
  | _ => None
  end.

(** * Properties *)

(** ** The result monad *)

Lemma bind_Ok {A B : Type} (r : result A) (k : A -> result B) (b : B) :
  bind r k = Ok b <-> exists a, r = Ok a /\ k a = Ok b.
Proof.
  destruct r as [a|e]; simpl; split.
  - eauto.
  - intros (a' & [= <-] & Hk). exact Hk.
  - discriminate.
  - intros (a' & [=] & _).
Qed.

Lemma for_each_app {A S : Type} (body : A -> S -> result S) (l1 l2 : list A) (s : S) :
  for_each body (l1 ++ l2) s = let* s' := for_each body l1 s in for_each body l2 s'.
Proof.
  revert s. induction l1 as [|x l1 IH]; intros s; simpl; [done|].
  destruct (body x s) as [s'|e]; simpl; [apply IH|done].
Qed.

(** ** Codec: shape of the result *)

Lemma get_bytes_from_font_index_single (index : Z) :
  0 <= index <= 240 -> get_bytes_from_font_index index = Ok [index].
Proof.
  intros H. unfold get_bytes_from_font_index.
  destruct (Z.ltb_spec index 0) as [?|_]; [lia|].
  assert (Hp : (index + 14) `div` 255 = 0) by (apply Z.div_small; lia).
  cbv zeta. change 0x0E with 14. change 0xFF with 255. rewrite Hp. simpl.
  unfold bytes_of_ints, in_byte_range. simpl.
  destruct (Z.leb_spec 0 index); [|lia].
  destruct (Z.ltb_spec index 256); [|lia]. reflexivity.
Qed.

Lemma get_bytes_from_font_index_double (index : Z) :
  241 <= index < MAX_FONT_INDEX ->
  get_bytes_from_font_index index =
    Ok [(index + 14) `div` 255 + 240; (index + 14) `mod` 255 + 1].
Proof.
  unfold MAX_FONT_INDEX. intros H. unfold get_bytes_from_font_index.
  destruct (Z.ltb_spec index 0) as [?|_]; [lia|].
  change 0x0E with 14. change 0xFF with 255. change 0xF0 with 240.
  change 0x0F with 15. change 0x01 with 1. cbv zeta.
  pose proof (Z.mod_pos_bound (index + 14) 255 ltac:(lia)) as Hm.
  assert (Hlo : 1 <= (index + 14) `div` 255)
    by (apply Z.div_le_lower_bound; lia).
  assert (Hhi : (index + 14) `div` 255 < 16)
    by (apply Z.div_lt_upper_bound; lia).
  destruct (Z.gtb_spec ((index + 14) `div` 255) 15); [lia|].
  destruct (Z.eqb_spec ((index + 14) `div` 255) 0); [lia|].
  destruct (Z.gtb_spec ((index + 14) `div` 255 + 240) 255); [lia|].
  destruct (Z.gtb_spec ((index + 14) `mod` 255 + 1) 255); [lia|].
  simpl. unfold bytes_of_ints, in_byte_range. simpl.
  repeat match goal with
  | |- context [Z.leb ?a ?b] => destruct (Z.leb_spec a b); [|lia]
  | |- context [Z.ltb ?a ?b] => destruct (Z.ltb_spec a b); [|lia]
  end.
  reflexivity.
Qed.

Lemma get_bytes_from_font_index_too_large (index : Z) :
  MAX_FONT_INDEX <= index ->
  get_bytes_from_font_index index = Raise (ValueError "page value out of range").
Proof.
  unfold MAX_FONT_INDEX. intros H. unfold get_bytes_from_font_index.
  destruct (Z.ltb_spec index 0) as [?|_]; [lia|].
  change 0x0E with 14. change 0xFF with 255. change 0x0F with 15. cbv zeta.
  assert (16 <= (index + 14) `div` 255)
    by (apply Z.div_le_lower_bound; lia).
  destruct (Z.gtb_spec ((index + 14) `div` 255) 15); [reflexivity|lia].
Qed.

Lemma get_bytes_from_font_index_negative (index : Z) :
  index < 0 ->
  get_bytes_from_font_index index = Raise (ValueError "index must be positive").
Proof.
  intros H. unfold get_bytes_from_font_index.
  destruct (Z.ltb_spec index 0); [reflexivity|lia].
Qed.

Lemma get_bytes_from_font_index_Ok (index : Z) :
  is_Ok (get_bytes_from_font_index index) <-> 0 <= index < MAX_FONT_INDEX.
Proof.
  split.
  - intros [bs Hbs].
    destruct (Z.lt_ge_cases index 0) as [Hn|Hn].
    { rewrite get_bytes_from_font_index_negative in Hbs by done. discriminate. }
    destruct (Z.lt_ge_cases index MAX_FONT_INDEX) as [Hm|Hm]; [lia|].
    rewrite get_bytes_from_font_index_too_large in Hbs by done. discriminate.
  - intros H. destruct (Z.le_gt_cases index 240).
    + exists [index]. apply get_bytes_from_font_index_single. lia.
    + eexists. apply get_bytes_from_font_index_double. lia.
Qed.

(** The mapping examples of the comment in [get_bytes_from_font_index]. *)
Example codec_mapping_examples :
  get_bytes_from_font_index 2 = Ok [0x02] /\
  get_bytes_from_font_index 239 = Ok [0xEF] /\
  get_bytes_from_font_index 240 = Ok [0xF0] /\
  get_bytes_from_font_index 241 = Ok [0xF1; 0x01] /\
  get_bytes_from_font_index 495 = Ok [0xF1; 0xFF] /\
  get_bytes_from_font_index 496 = Ok [0xF2; 0x01] /\
  get_bytes_from_font_index 750 = Ok [0xF2; 0xFF] /\
  get_bytes_from_font_index 751 = Ok [0xF3; 0x01] /\
  get_bytes_from_font_index 4065 = Ok [0xFF; 0xFF] /\
  get_bytes_from_font_index 4066 = Raise (ValueError "page value out of range").
Proof. by split_and!. Qed.

(** ** The codec: claims *)

(** C3. For every non-negative ordinal the codec computes what the
    specification's algorithm computes: page [(o + 14) div 255], failure
    for a page above 15, the single byte [o] on page 0, and otherwise the
    lead byte [0xF0 + page] and the value byte [((o + 14) mod 255) + 1],
    with a failure if one of them exceeds the byte range. The failure of
    the specification, [RangeError], is a [ValueError] of the script. *)
Theorem C3_encode_refines_spec (o : Z) :
  0 <= o ->
  match encode_spec o with
  | inl code => get_bytes_from_font_index o = Ok code
  | inr RangeError => exists msg, get_bytes_from_font_index o = Raise (ValueError msg)
  end.
Proof.
  intros Ho. unfold encode_spec.
  destruct (Z.gtb_spec ((o + 14) `div` 255) 15) as [Hp|Hp].
  { eexists. apply get_bytes_from_font_index_too_large. unfold MAX_FONT_INDEX.
    destruct (Z.lt_ge_cases o 4066) as [Hlt|]; [|lia].
    assert ((o + 14) `div` 255 < 16) by (apply Z.div_lt_upper_bound; lia). lia. }
  assert (Hmax : o < MAX_FONT_INDEX).
  { unfold MAX_FONT_INDEX. destruct (Z.lt_ge_cases o 4066) as [|Hge]; [lia|].
    assert (16 <= (o + 14) `div` 255) by (apply Z.div_le_lower_bound; lia). lia. }
  destruct (Z.eqb_spec ((o + 14) `div` 255) 0) as [Hz|Hz].
  { apply get_bytes_from_font_index_single.
    destruct (Z.le_gt_cases o 240) as [|Hgt]; [lia|].
    assert (1 <= (o + 14) `div` 255) by (apply Z.div_le_lower_bound; lia). lia. }
  assert (Hlo : 241 <= o).
  { destruct (Z.le_gt_cases 241 o) as [|Hlt]; [lia|].
    assert ((o + 14) `div` 255 = 0) by (apply Z.div_small; lia). lia. }
  pose proof (Z.mod_pos_bound (o + 14) 255 ltac:(lia)) as Hm.
  destruct (Z.gtb_spec (240 + (o + 14) `div` 255) 255); [lia|].
  destruct (Z.gtb_spec ((o + 14) `mod` 255 + 1) 255); [lia|].
  simpl. rewrite get_bytes_from_font_index_double by lia.
  by rewrite (Z.add_comm 240).
Qed.

Lemma C3_encode_refines_spec_witness :
  0 <= 241 /\
  match encode_spec 241 with
  | inl code => get_bytes_from_font_index 241 = Ok code
  | inr RangeError => exists msg, get_bytes_from_font_index 241 = Raise (ValueError msg)
  end.
Proof. split; [lia | apply (C3_encode_refines_spec 241); lia]. Defined.

(** C4, as the script has it. The first allocated index, 2, is encoded as
    the single byte [0x02] (index 0 is encoded as the byte [0x00], which
    the table builder never asks for), and a two byte code has a lead byte
    in [0xF1..0xFF] and a value byte in [0x01..0xFF], never [0x00]. *)
Theorem C4_codec_boundary (o leader value : Z) :
  get_bytes_from_font_index o = Ok [leader; value] ->
  get_bytes_from_font_index 2 = Ok [0x02] /\
  get_bytes_from_font_index 0 = Ok [0x00] /\
  0xF1 <= leader <= 0xFF /\ value <> 0x00 /\ 0x01 <= value <= 0xFF.
Proof.
  intros Henc. split; [reflexivity|]. split; [reflexivity|].
  assert (Hr : 0 <= o < MAX_FONT_INDEX)
    by (apply get_bytes_from_font_index_Ok; eexists; exact Henc).
  destruct (Z.le_gt_cases o 240) as [Hs|Hd].
  { rewrite get_bytes_from_font_index_single in Henc by lia. discriminate. }
  rewrite get_bytes_from_font_index_double in Henc by lia.
  injection Henc as <- <-. unfold MAX_FONT_INDEX in Hr.
  pose proof (Z.mod_pos_bound (o + 14) 255 ltac:(lia)) as Hm.
  assert (1 <= (o + 14) `div` 255) by (apply Z.div_le_lower_bound; lia).
  assert ((o + 14) `div` 255 < 16) by (apply Z.div_lt_upper_bound; lia).
  lia.
Qed.

Lemma C4_codec_boundary_witness :
  get_bytes_from_font_index 241 = Ok [0xF1; 0x01] /\
  (get_bytes_from_font_index 2 = Ok [0x02] /\
   get_bytes_from_font_index 0 = Ok [0x00] /\
   0xF1 <= 0xF1 <= 0xFF /\ 0x01 <> 0x00 /\ 0x01 <= 0x01 <= 0xFF).
Proof. split; [reflexivity | apply (C4_codec_boundary 241); reflexivity]. Defined.

(** C4 as stated fails: index 0 is not encoded as the byte [0x02]. *)
Lemma C4_encode_zero_counterexample :
  get_bytes_from_font_index 0 = Ok [0x00] /\
  get_bytes_from_font_index 0 <> Ok [0x02].
Proof. split; [reflexivity | discriminate]. Qed.

(** C5. On the indices the codec represents, [0 <= o < MAX_FONT_INDEX],
    encoding is injective and [decode] inverts it. *)
Theorem C5_codec_bijection (o1 o2 : Z) :
  0 <= o1 < MAX_FONT_INDEX -> 0 <= o2 < MAX_FONT_INDEX ->
  (exists code, get_bytes_from_font_index o1 = Ok code /\ decode code = Some o1) /\
  (get_bytes_from_font_index o1 = get_bytes_from_font_index o2 -> o1 = o2).
Proof.
  assert (Hdec : forall o, 0 <= o < MAX_FONT_INDEX ->
            exists code, get_bytes_from_font_index o = Ok code /\ decode code = Some o).
  { intros o Ho. destruct (Z.le_gt_cases o 240) as [Hs|Hd].
    - exists [o]. split; [apply get_bytes_from_font_index_single; lia|done].
    - eexists. split; [apply get_bytes_from_font_index_double; lia|].
      simpl. f_equal. pose proof (Z.div_mod (o + 14) 255 ltac:(lia)). lia. }
  intros H1 H2. split; [by apply Hdec|].
  intros Heq.
  destruct (Hdec o1 H1) as (c1 & Hc1 & Hd1).
  destruct (Hdec o2 H2) as (c2 & Hc2 & Hd2).
  rewrite Hc1, Hc2 in Heq. injection Heq as ->. congruence.
Qed.

Lemma C5_codec_bijection_witness :
  (exists code, get_bytes_from_font_index 4065 = Ok code /\ decode code = Some 4065) /\
  (get_bytes_from_font_index 4065 = get_bytes_from_font_index 240 -> 4065 = 240).
Proof. apply (C5_codec_bijection 4065 240); unfold MAX_FONT_INDEX; lia. Defined.

(** ** Glyph packing *)

Lemma get_cell_outside (glyph : Glyph) (x y : Z) :
  ~ box_covers glyph x y -> get_cell glyph x y = Ok false.
Proof.
  intros Hout. unfold get_cell, get_bounding_box.
  destruct (Z.ltb_spec (x - bbX glyph) 0); [done|].
  destruct (Z.geb_spec (x - bbX glyph) (bbW glyph)); [done|]. simpl.
  destruct (Z.ltb_spec (y - (dst_h - bbH glyph - bbY glyph - 3)) 0); [done|].
  destruct (Z.geb_spec (y - (dst_h - bbH glyph - bbY glyph - 3)) (bbH glyph)); [done|].
  exfalso. apply Hout. unfold box_covers. lia.
Qed.

Lemma pack_column_outside (glyph : Glyph) (block c : Z) :
  box_outside_cell glyph -> 0 <= block < 2 -> 0 <= c < dst_w ->
  pack_column glyph block c = Ok 0.
Proof.
  intros Hout Hb Hc. unfold pack_column.
  change (seqZ 0 8) with [0; 1; 2; 3; 4; 5; 6; 7]. simpl.
  repeat (rewrite get_cell_outside by (apply Hout; unfold dst_h; lia); simpl).
  reflexivity.
Qed.

(** The sample glyph, a stroke of ten pixels in row 9 of the cell: bit 1
    of the first ten columns of the lower block. *)
Example get_cjk_glyph_example :
  get_cjk_glyph sample_cjk_font 0x4E00%N
    = Ok (replicate 12 0 ++ replicate 10 2 ++ [0; 0]) /\
  get_cjk_glyph sample_cjk_font 0x4E01%N = Raise (KeyError "key").
Proof. split; vm_compute; reflexivity. Qed.

(** C9. A glyph whose bounding box, translated by its left edge and
    anchored three pixels above the bottom of the cell, lies fully outside
    the 12x16 cell is packed into 24 zero bytes. *)
Theorem C9_glyph_outside_cell_is_blank (cjk_font : gmap N Glyph) (sym : char)
    (glyph : Glyph) :
  cjk_font !! sym = Some glyph ->
  box_outside_cell glyph ->
  get_cjk_glyph cjk_font sym = Ok (replicate 24 0).
Proof.
  intros Hg Hout. unfold get_cjk_glyph, dict_get. rewrite Hg. simpl.
  unfold pack_glyph.
  change (seqZ 0 2) with [0; 1].
  change (seqZ 0 dst_w) with [0; 1; 2; 3; 4; 5; 6; 7; 8; 9; 10; 11].
  simpl.
  repeat (rewrite pack_column_outside by (done || unfold dst_w; lia); simpl).
  reflexivity.
Qed.

Lemma C9_glyph_outside_cell_is_blank_witness :
  get_cjk_glyph {[ 0x4E00%N := glyph_right_of_cell ]} 0x4E00%N = Ok (replicate 24 0).
Proof.
  apply (C9_glyph_outside_cell_is_blank _ _ glyph_right_of_cell).
  - reflexivity.
  - intros x y Hx Hy [Hcx _]. unfold dst_w in Hx. simpl in Hcx. lia.
Defined.

(** ** The candidate list *)

Lemma forced_first_symbols_NoDup : NoDup forced_first_symbols.
Proof. apply (bool_decide_unpack _). vm_compute. exact I. Qed.

Lemma candidate_list_NoDup (text_list : list char) :
  NoDup text_list -> NoDup (candidate_list text_list).
Proof.
  intros Hnd. unfold candidate_list. apply NoDup_app. split_and!.
  - apply forced_first_symbols_NoDup.
  - intros x Hx [Hnot _]%list_elem_of_filter. done.
  - by apply NoDup_filter.
Qed.

Lemma candidate_list_length (text_list : list char) :
  NoDup text_list ->
  (length text_list <= length (candidate_list text_list))%nat.
Proof.
  intros Hnd. unfold candidate_list. rewrite length_app.
  pose proof (filter_app_complement (fun x => x ∉ forced_first_symbols) text_list) as Hp.
  apply Permutation_length in Hp. rewrite length_app in Hp.
  assert (Hd : (length (filter (fun x : char => ¬ (x ∉ forced_first_symbols)) text_list)
                <= length forced_first_symbols)%nat).
  { apply submseteq_length, NoDup_submseteq; [by apply NoDup_filter|].
    intros x [Hx _]%list_elem_of_filter.
    destruct (decide (x ∈ forced_first_symbols)); done. }
  lia.
Qed.

(** ** The table builder *)

Section table_builder.

Context (ft : font_tables) (cjk_font : gmap N Glyph).

(** *** The capacity check *)

(** C6. When the symbols in use, the digits and the required symbols, are
    more than the 4063 that the codec can number, the table builder fails,
    whatever the fonts are; for distinct required symbols and a font list
    that starts with the baseline ASCII font the failure is the capacity
    error. More than 4063 distinct required symbols are such a case. *)
Theorem C6_too_many_symbols
    (text_list : list char) (fonts : list string) :
  MAX_SYMBOL_COUNT < Z.of_nat (length (candidate_list text_list)) ->
  (exists e, get_font_map_and_table ft cjk_font text_list fonts = Raise e) /\
  (NoDup text_list -> fonts !! 0%nat = Some (NAME_ASCII_BASIC ft) ->
   get_font_map_and_table ft cjk_font text_list fonts = Raise (ValueError msg_too_many)).
Proof.
  intros Hlen.
  assert (Hper : forall l : list string,
    get_font_map_per_font ft cjk_font (candidate_list text_list) l =
      if decide (size (list_to_set (candidate_list text_list) : gset N)
                 ≠ length (candidate_list text_list))
      then Raise (ValueError msg_duplicated)
      else match l !! 0%nat with
           | None => Raise IndexError
           | Some first =>
               if decide (first ≠ NAME_ASCII_BASIC ft)
               then Raise (ValueError msg_first_font)
               else Raise (ValueError msg_too_many)
           end).
  { intros l. unfold get_font_map_per_font.
    destruct (decide (_ ≠ _)); [done|].
    unfold list_get. destruct (l !! 0%nat) as [first|]; [cbn [bind]|done].
    destruct (decide (first ≠ NAME_ASCII_BASIC ft)); [done|].
    destruct (Z.gtb_spec (Z.of_nat (length (candidate_list text_list))) MAX_SYMBOL_COUNT);
      [done|lia]. }
  unfold get_font_map_and_table. rewrite Hper. split.
  - destruct (decide (_ ≠ _)); [by eexists|].
    destruct (fonts !! 0%nat) as [first|]; [simpl|by eexists].
    destruct (decide (first ≠ NAME_ASCII_BASIC ft)); by eexists.
  - intros Hnd ->. rewrite size_list_to_set by by apply candidate_list_NoDup.
    rewrite decide_False by (intros H; by apply H).
    by rewrite decide_False by (intros H; by apply H).
Qed.

(** *** The final symbol order *)

Lemma split_by_fonts_acc (font06_map : gmap N (option bytes)) (l both0 large0 both large : list char) :
  for_each (fun sym '(sym_list_both_fonts, sym_list_large_only) =>
      let* small := dict_get font06_map sym in
      match small with
      | None => Ok (sym_list_both_fonts, sym_list_large_only ++ [sym])
      | Some _ => Ok (sym_list_both_fonts ++ [sym], sym_list_large_only)
      end) l (both0, large0) = Ok (both, large) ->
  both = both0 ++ filter (has_both_fonts font06_map) l /\
  large = large0 ++ filter (is_large_only font06_map) l /\
  Forall (fun sym => is_Some (font06_map !! sym)) l.
Proof.
  revert both0 large0. induction l as [|sym l IH]; intros both0 large0; simpl.
  - intros [= <- <-]. by rewrite !app_nil_r.
  - unfold dict_get at 1.
    destruct (font06_map !! sym) as [[small|]|] eqn:Hsym; simpl; [| |done].
    + intros (-> & -> & Hall)%IH.
      rewrite (filter_cons_True (has_both_fonts font06_map))
        by (unfold has_both_fonts; rewrite Hsym; simpl; tauto).
      rewrite (filter_cons_False (is_large_only font06_map))
        by (unfold is_large_only; rewrite Hsym; simpl; tauto).
      rewrite <- !(assoc_L (++)). split_and!; [done..|].
      constructor; [by rewrite Hsym|done].
    + intros (-> & -> & Hall)%IH.
      rewrite (filter_cons_False (has_both_fonts font06_map))
        by (unfold has_both_fonts; rewrite Hsym; simpl; tauto).
      rewrite (filter_cons_True (is_large_only font06_map))
        by (unfold is_large_only; rewrite Hsym; simpl; tauto).
      rewrite <- !(assoc_L (++)). split_and!; [done..|].
      constructor; [by rewrite Hsym|done].
Qed.

Lemma split_by_fonts_Ok (font06_map : gmap N (option bytes)) (l both large : list char) :
  split_by_fonts font06_map l = Ok (both, large) ->
  both = filter (has_both_fonts font06_map) l /\
  large = filter (is_large_only font06_map) l /\
  Forall (fun sym => is_Some (font06_map !! sym)) l.
Proof. apply split_by_fonts_acc. Qed.

(** What a successful run of [get_font_map_and_table] went through. *)
Lemma get_font_map_and_table_Ok
    (text_list : list char) (fonts : list string)
    (sym_list : list char) (font_map : FontMap) (symbol_map : gmap N bytes) :
  get_font_map_and_table ft cjk_font text_list fonts = Ok (sym_list, font_map, symbol_map) ->
  exists font_maps both large,
    get_font_map_per_font ft cjk_font (candidate_list text_list) fonts = Ok font_maps /\
    merge_font_maps font_maps fonts = Ok (font12 font_map, font06 font_map) /\
    split_by_fonts (font06 font_map) (candidate_list text_list) = Ok (both, large) /\
    sym_list = both ++ large /\
    assign_symbol_bytes sym_list 2 {[ LF := [1] ]} = Ok symbol_map.
Proof.
  unfold get_font_map_and_table. intros H.
  apply bind_Ok in H as (font_maps & Hper & H).
  apply bind_Ok in H as ([m12 m06] & Hmerge & H).
  apply bind_Ok in H as ([both large] & Hsplit & H).
  apply bind_Ok in H as (m & Hassign & H).
  injection H as <- <- <-. simpl. eauto 10.
Qed.

(** *** Font resolution *)

Lemma resolve_symbol_Ok (tables : option (gmap N bytes * gmap N bytes)) (sym : char)
    (m12 : gmap N bytes) (m06 : gmap N (option bytes)) (syms : list N)
    (pend : gset N) (st' : font_state) :
  resolve_symbol cjk_font tables sym (m12, m06, syms, pend) = Ok st' ->
  (st' = (m12, m06, syms, pend) /\
   (sym ∉ pend \/
    exists font12 font06, tables = Some (font12, font06) /\
      (font12 !! sym = None \/ font06 !! sym = None))) \/
  (sym ∈ pend /\ exists line12 line06,
     st' = (<[sym := line12]> m12, <[sym := line06]> m06, syms ++ [sym], pend ∖ {[sym]}) /\
     resolved_by tables sym line06).
Proof.
  unfold resolve_symbol. destruct (decide (sym ∉ pend)) as [Hn|Hin].
  { intros [= <-]. left. auto. }
  apply dec_stable in Hin.
  destruct tables as [[font12 font06]|]; simpl.
  - destruct (font12 !! sym) as [line12|] eqn:H12; simpl.
    + destruct (font06 !! sym) as [line06|] eqn:H06; simpl.
      * intros [= <-]. right. split; [done|]. eexists _, _. split; [done|].
        split; [done|eauto].
      * intros [= <-]. left. split; [done|]. right. eauto.
    + intros [= <-]. left. split; [done|]. right. eauto.
  - destruct (get_cjk_glyph cjk_font sym) as [line12|e]; simpl; [|done].
    intros [= <-]. right. split; [done|]. by eexists _, _.
Qed.

Lemma resolve_symbols_Ok (tables : option (gmap N bytes * gmap N bytes)) (l : list char)
    (m12 : gmap N bytes) (m06 : gmap N (option bytes)) (syms : list N) (pend : gset N)
    (m12' : gmap N bytes) (m06' : gmap N (option bytes)) (syms' : list N) (pend' : gset N) :
  for_each (resolve_symbol cjk_font tables) l (m12, m06, syms, pend)
    = Ok (m12', m06', syms', pend') ->
  pend' ⊆ pend /\
  (forall s, s ∉ pend \/ s ∈ pend' -> m06' !! s = m06 !! s /\ m12' !! s = m12 !! s) /\
  (forall s, s ∈ pend -> s ∉ pend' ->
     s ∈ l /\ is_Some (m12' !! s) /\
     exists line06, m06' !! s = Some line06 /\ resolved_by tables s line06) /\
  (forall s font12 font06, s ∈ l -> tables = Some (font12, font06) ->
     is_Some (font12 !! s) -> is_Some (font06 !! s) -> s ∉ pend') /\
  (tables = None -> forall s, s ∈ l -> s ∉ pend').
Proof.
  revert m12 m06 syms pend.
  induction l as [|sym l IH]; intros m12 m06 syms pend; cbn [for_each].
  { intros [= <- <- <- <-]. split_and!; try done.
    - intros s ? ? Hs. by apply elem_of_nil in Hs.
    - intros _ s Hs. by apply elem_of_nil in Hs. }
  destruct (resolve_symbol cjk_font tables sym (m12, m06, syms, pend))
    as [[[[m12a m06a] symsa] penda]|e] eqn:Hstep; cbn [bind]; [|done].
  intros (Hsub & Hkeep & Hnew & Htab & Hcjk)%IH.
  apply resolve_symbol_Ok in Hstep
    as [[[= -> -> -> ->] Hwhy] | (Hin & line12 & line06 & [= -> -> -> ->] & Hres)].
  - split_and!; [done|done| | |].
    + intros s Hs Hn. destruct (Hnew s Hs Hn) as (? & ? & ?). split_and!; [|done..].
      by apply elem_of_cons; right.
    + intros s font12 font06 [->|Hs]%elem_of_cons Ht H12 H06; [|by eapply Htab].
      intros Hs'. apply Hsub in Hs'.
      destruct Hwhy as [Hn | (f12 & f06 & Heq & Hmiss)]; [done|].
      rewrite Ht in Heq. injection Heq as <- <-.
      destruct H12 as [? H12], H06 as [? H06], Hmiss as [Hm|Hm]; congruence.
    + intros Ht s [->|Hs]%elem_of_cons; [|by apply Hcjk].
      intros Hs'. apply Hsub in Hs'.
      destruct Hwhy as [Hn | (f12 & f06 & Heq & _)]; [done|congruence].
  - split_and!.
    + set_solver.
    + intros s Hs. destruct (Hkeep s) as [Hk06 Hk12]; [set_solver|].
      assert (s ≠ sym) by set_solver.
      rewrite Hk06, Hk12, !lookup_insert_ne by done. done.
    + intros s Hs Hn. destruct (decide (s = sym)) as [->|Hne].
      * destruct (Hkeep sym) as [Hk06 Hk12]; [set_solver|].
        rewrite Hk06, Hk12, !lookup_insert_eq. split_and!; [by left|done|eauto].
      * destruct (Hnew s) as (? & ? & ?); [set_solver|done|].
        split_and!; [by apply elem_of_cons; right|done..].
    + intros s font12 font06 [->|Hs]%elem_of_cons Ht H12 H06; [|by eapply Htab].
      set_solver.
    + intros Ht s [->|Hs]%elem_of_cons; [set_solver|by apply Hcjk].
Qed.

Lemma resolve_font_Ok
    (text_list : list char) (font : string)
    (maps maps' : FontMapsPerFont) (pend pend' : gset N) :
  resolve_font ft cjk_font text_list font (maps, pend) = Ok (maps', pend') ->
  exists m12 m06 syms,
    maps' = {| font12_maps := <[font := m12]> (font12_maps maps);
               font06_maps := <[font := m06]> (font06_maps maps);
               sym_lists := <[font := syms]> (sym_lists maps) |} /\
    pend' ⊆ pend /\
    (forall s, s ∉ pend \/ s ∈ pend' -> m06 !! s = None /\ m12 !! s = None) /\
    (forall s, s ∈ pend -> s ∉ pend' ->
       s ∈ text_list /\ is_Some (m12 !! s) /\
       exists tables line06, load_font_tables ft font = Ok tables /\
         m06 !! s = Some line06 /\ resolved_by tables s line06) /\
    (forall s font12 font06, s ∈ text_list -> s ∈ pend ->
       load_font_tables ft font = Ok (Some (font12, font06)) ->
       is_Some (font12 !! s) -> is_Some (font06 !! s) -> s ∉ pend') /\
    (load_font_tables ft font = Ok None ->
       forall s, s ∈ text_list -> s ∉ pend').
Proof.
  unfold resolve_font. destruct (decide (size pend = 0%nat)) as [Hz|Hnz].
  { intros [= <- <-]. apply size_empty_inv, leibniz_equiv in Hz. subst pend.
    exists ∅, ∅, []. split_and!; [done|done|by intros| | |]; set_solver. }
  destruct (load_font_tables ft font) as [tables|e] eqn:Hload; cbn [bind]; [|done].
  destruct (for_each (resolve_symbol cjk_font tables) text_list (∅, ∅, [], pend))
    as [[[[m12 m06] syms] pend1]|e] eqn:Hloop; cbn [bind]; [|done].
  intros [= <- <-].
  apply resolve_symbols_Ok in Hloop as (Hsub & Hkeep & Hnew & Htab & Hcjk).
  exists m12, m06, syms. split_and!; [done|done| | | |].
  - intros s Hs. destruct (Hkeep s Hs) as [-> ->]. by rewrite !lookup_empty.
  - intros s Hs Hn. destruct (Hnew s Hs Hn) as (? & ? & line06 & ? & ?).
    split_and!; [done..|]. by exists tables, line06.
  - intros s font12 font06 Hs _ [= ->] H12 H06. by eapply Htab.
  - intros [= ->]. by apply Hcjk.
Qed.


Lemma merge_font_maps_lookup (font_maps : FontMapsPerFont) (fonts : list string)
    (acc12 m12 : gmap N bytes) (acc06 m06 : gmap N (option bytes)) (s : char)
    (x : option bytes) :
  for_each (fun font '(font12_map, font06_map) =>
      let* f12 := dict_get (font12_maps font_maps) font in
      let* f06 := dict_get (font06_maps font_maps) font in
      Ok (f12 ∪ font12_map, f06 ∪ font06_map))
    fonts (acc12, acc06) = Ok (m12, m06) ->
  m06 !! s = Some x ->
  acc06 !! s = Some x \/
  exists font m, font ∈ fonts /\ font06_maps font_maps !! font = Some m /\ m !! s = Some x.
Proof.
  revert acc12 acc06. induction fonts as [|font fonts IH]; intros acc12 acc06; cbn [for_each].
  { intros [= <- <-]. by left. }
  unfold dict_get at 1 2.
  destruct (font12_maps font_maps !! font) as [f12|]; cbn [bind]; [|done].
  destruct (font06_maps font_maps !! font) as [f06|] eqn:H06; cbn [bind]; [|done].
  intros Hrest Hs. destruct (IH _ _ Hrest Hs) as [Hacc | (f & m & Hf & Hm & Hx)].
  - apply lookup_union_Some_raw in Hacc as [Hl | [_ Hr]].
    + right. exists font, f06. split_and!; [by left|done..].
    + by left.
  - right. exists f, m. split_and!; [by right|done..].
Qed.

Lemma size_list_to_set_le (l : list char) :
  (size (list_to_set l : gset N) <= length l)%nat.
Proof.
  induction l as [|x l IH].
  - apply Nat.le_0_r. exact size_empty.
  - rewrite list_to_set_cons. cbn [length].
    rewrite size_union_alt, size_singleton.
    assert (size (list_to_set l ∖ {[x]} : gset N) <= size (list_to_set l : gset N))%nat
      by (apply subseteq_size; set_solver).
    lia.
Qed.

Lemma size_list_to_set_NoDup (l : list char) :
  size (list_to_set l : gset N) = length l -> NoDup l.
Proof.
  induction l as [|x l IH]; [constructor|].
  rewrite list_to_set_cons. cbn [length].
  intros Hsize. pose proof (size_list_to_set_le l) as Hle.
  destruct (decide (x ∈ l)) as [Hin|Hout].
  - assert (Heq : ({[x]} ∪ list_to_set l : gset N) = list_to_set l) by set_solver.
    rewrite Heq in Hsize. lia.
  - rewrite size_union in Hsize by set_solver. rewrite size_singleton in Hsize.
    constructor; [done|]. apply IH. lia.
Qed.

(** What a successful run of [get_font_map_per_font] went through. *)
Lemma get_font_map_per_font_Ok
    (text_list : list char) (fonts : list string) (maps : FontMapsPerFont) :
  get_font_map_per_font ft cjk_font text_list fonts = Ok maps ->
  NoDup text_list /\
  fonts !! 0%nat = Some (NAME_ASCII_BASIC ft) /\
  Z.of_nat (length text_list) <= MAX_SYMBOL_COUNT /\
  for_each (resolve_font ft cjk_font text_list) fonts
    ({| font12_maps := ∅; font06_maps := ∅; sym_lists := ∅ |}, list_to_set text_list)
    = Ok (maps, ∅).
Proof.
  unfold get_font_map_per_font.
  destruct (decide (size (list_to_set text_list : gset N) ≠ length text_list))
    as [|Hsize]; [done|].
  apply dec_stable in Hsize. unfold list_get.
  destruct (fonts !! 0%nat) as [first|]; cbn [bind]; [|done].
  destruct (decide (first ≠ NAME_ASCII_BASIC ft)) as [|Hfirst]; [done|].
  apply dec_stable in Hfirst. subst first.
  destruct (Z.gtb_spec (Z.of_nat (length text_list)) MAX_SYMBOL_COUNT); [done|].
  destruct (for_each _ fonts _) as [[maps1 pend1]|e]; cbn [bind]; [|done].
  destruct (decide (0 < size pend1)%nat) as [|Hz]; [done|].
  intros [= <-]. split_and!; [by apply size_list_to_set_NoDup|done|done|].
  assert (pend1 = ∅) as ->; [|done].
  apply leibniz_equiv, size_empty_inv. lia.
Qed.

Lemma assign_symbol_bytes_Ok (sym_list : list char) (index : nat)
    (m0 m : gmap N bytes) :
  assign_symbol_bytes sym_list index m0 = Ok m ->
  (forall s c, m0 !! s = Some c -> m !! s = Some c) /\
  (forall p s, sym_list !! p = Some s ->
     exists code, get_bytes_from_font_index (Z.of_nat (index + p)) = Ok code /\
                  m !! s = Some code) /\
  (forall s, s ∈ sym_list -> m0 !! s = None) /\
  NoDup sym_list.
Proof.
  unfold assign_symbol_bytes. revert index m0.
  induction sym_list as [|sym l IH]; intros index m0; cbn [enumerate_from for_each].
  { intros [= <-]. split_and!; [done|done| |constructor].
    intros s Hs. by apply elem_of_nil in Hs. }
  destruct (decide (is_Some (m0 !! sym))) as [|Hfresh]; [done|].
  apply eq_None_not_Some in Hfresh.
  destruct (get_bytes_from_font_index (Z.of_nat index)) as [code|e] eqn:Hcode;
    cbn [bind]; [|done].
  intros (Hkeep & Hpos & Hnew & Hnd)%IH.
  assert (Hsym : sym ∉ l).
  { intros Hin. apply Hnew in Hin. by rewrite lookup_insert_eq in Hin. }
  split_and!.
  - intros s c Hs. apply Hkeep. rewrite lookup_insert_ne; [done|congruence].
  - intros [|p] s Hp; simpl in Hp.
    + injection Hp as <-. exists code. rewrite Nat.add_0_r. split; [done|].
      apply Hkeep, lookup_insert_eq.
    + destruct (Hpos p s Hp) as (c & Hc & Hm). exists c.
      by rewrite Nat.add_succ_r.
  - intros s [->|Hs]%elem_of_cons; [done|].
    apply Hnew in Hs. rewrite lookup_insert_ne in Hs; [done|].
    intros ->. by rewrite lookup_insert_eq in Hs.
  - by constructor.
Qed.



Lemma resolve_fonts_large_recorded
    (text_list : list char) (fonts : list string)
    (maps maps' : FontMapsPerFont) (pend pend' : gset N) :
  for_each (resolve_font ft cjk_font text_list) fonts (maps, pend) = Ok (maps', pend') ->
  large_recorded maps -> large_recorded maps'.
Proof.
  revert maps pend. induction fonts as [|font fonts IH]; intros maps pend; cbn [for_each].
  { by intros [= <- <-]. }
  destruct (resolve_font ft cjk_font text_list font (maps, pend))
    as [[maps1 pend1]|e] eqn:Hstep; cbn [bind]; [|done].
  intros Hrest Hmaps. apply (IH _ _ Hrest).
  apply resolve_font_Ok in Hstep as (m12 & m06 & syms & -> & _ & Hkeep & Hnew & _).
  intros f n06. simpl. destruct (decide (font = f)) as [->|Hne].
  - rewrite !lookup_insert_eq. intros [= <-]. exists m12. split; [done|].
    intros s Hs. destruct (decide (s ∈ pend)) as [Hin|Hout].
    + destruct (decide (s ∈ pend1)) as [Hin1|Hout1].
      * destruct (Hkeep s) as [Hnone _]; [by right|]. rewrite Hnone in Hs. by destruct Hs.
      * by destruct (Hnew s Hin Hout1) as (_ & ? & _).
    + destruct (Hkeep s) as [Hnone _]; [by left|]. rewrite Hnone in Hs. by destruct Hs.
  - rewrite !lookup_insert_ne by done. apply Hmaps.
Qed.

Lemma merge_font_maps_large (font_maps : FontMapsPerFont) (fonts : list string)
    (acc12 m12 : gmap N bytes) (acc06 m06 : gmap N (option bytes))
    (font : string) (f12 : gmap N bytes) (s : char) :
  for_each (fun font '(font12_map, font06_map) =>
      let* f12 := dict_get (font12_maps font_maps) font in
      let* f06 := dict_get (font06_maps font_maps) font in
      Ok (f12 ∪ font12_map, f06 ∪ font06_map))
    fonts (acc12, acc06) = Ok (m12, m06) ->
  (is_Some (acc12 !! s) \/
   (font ∈ fonts /\ font12_maps font_maps !! font = Some f12 /\ is_Some (f12 !! s))) ->
  is_Some (m12 !! s).
Proof.
  revert acc12 acc06. induction fonts as [|f fonts IH]; intros acc12 acc06; cbn [for_each].
  { intros [= <- <-] [?|[[]%elem_of_nil _]]. done. }
  unfold dict_get at 1 2.
  destruct (font12_maps font_maps !! f) as [g12|] eqn:H12; cbn [bind]; [|done].
  destruct (font06_maps font_maps !! f) as [g06|]; cbn [bind]; [|done].
  intros Hrest Hs. apply (IH _ _ Hrest).
  destruct Hs as [Hacc | ([->|Hin]%elem_of_cons & Hf & Hs)].
  - left. apply lookup_union_is_Some. by right.
  - left. apply lookup_union_is_Some. left. congruence.
  - right. done.
Qed.

(** Every symbol of the final list has a large bitmap and an entry for the
    small font, bytes or the placeholder. *)
Lemma final_list_has_bitmaps
    (text_list : list char) (fonts : list string)
    (sym_list : list char) (font_map : FontMap) (symbol_map : gmap N bytes) (s : char) :
  get_font_map_and_table ft cjk_font text_list fonts = Ok (sym_list, font_map, symbol_map) ->
  s ∈ sym_list ->
  s ∈ candidate_list text_list /\
  is_Some (font12 font_map !! s) /\ is_Some (font06 font_map !! s).
Proof.
  intros (font_maps & both & large & Hper & Hmerge & Hsplit & -> & _)%get_font_map_and_table_Ok Hs.
  apply split_by_fonts_Ok in Hsplit as (-> & -> & Hall).
  assert (Hcand : s ∈ candidate_list text_list).
  { apply elem_of_app in Hs as [Hs|Hs]; by apply list_elem_of_filter in Hs as [_ ?]. }
  split; [done|]. rewrite Forall_forall in Hall. specialize (Hall s Hcand).
  split; [|done]. destruct Hall as [x Hx].
  apply get_font_map_per_font_Ok in Hper as (_ & _ & _ & Hloop).
  apply resolve_fonts_large_recorded in Hloop as Hrec.
  2: { intros f m06. simpl. by rewrite lookup_empty. }
  destruct (merge_font_maps_lookup _ _ _ _ _ _ s x Hmerge Hx)
    as [Hacc | (f & m06 & Hf & Hm06 & Hfx)]; [by rewrite lookup_empty in Hacc|].
  destruct (Hrec f m06 Hm06) as (f12 & Hf12 & Hdom).
  apply (merge_font_maps_large _ _ _ _ _ _ f f12 s Hmerge). right.
  split_and!; [done|done|]. apply Hdom. by rewrite Hfx.
Qed.

(** *** Font resolution: when the table builder returns *)

Lemma resolve_symbols_total (tables : option (gmap N bytes * gmap N bytes)) (l : list char)
    (m12 : gmap N bytes) (m06 : gmap N (option bytes)) (syms : list N) (pend : gset N) :
  (tables = None -> forall s, s ∈ l -> s ∈ pend -> is_Ok (get_cjk_glyph cjk_font s)) ->
  is_Ok (for_each (resolve_symbol cjk_font tables) l (m12, m06, syms, pend)).
Proof.
  revert m12 m06 syms pend.
  induction l as [|sym l IH]; intros m12 m06 syms pend Hcjk; cbn [for_each].
  { by eexists. }
  assert (Hstep : exists m12a m06a symsa penda,
    resolve_symbol cjk_font tables sym (m12, m06, syms, pend)
      = Ok (m12a, m06a, symsa, penda) /\ penda ⊆ pend).
  { unfold resolve_symbol. destruct (decide (sym ∉ pend)) as [|Hin]; [by eexists _, _, _, _|].
    apply dec_stable in Hin. destruct tables as [[font12 font06]|].
    - destruct (font12 !! sym), (font06 !! sym); cbn [bind];
        eexists _, _, _, _; (split; [done|set_solver]).
    - destruct (Hcjk eq_refl sym) as [line Hline]; [by left|done|].
      rewrite Hline. cbn [bind]. eexists _, _, _, _. split; [done|set_solver]. }
  destruct Hstep as (m12a & m06a & symsa & penda & -> & Hsub). cbn [bind].
  apply IH. intros Ht s Hs Hp. apply (Hcjk Ht); [by right|by apply Hsub].
Qed.

Lemma resolve_fonts_total
    (text_list : list char) (fonts : list string)
    (maps : FontMapsPerFont) (pend : gset N) :
  (forall font, font ∈ fonts -> font <> NAME_CJK ft ->
     is_Ok (get_font_maps_for_name ft font)) ->
  (forall s, s ∈ pend -> s ∈ text_list /\ covered ft cjk_font fonts s) ->
  exists maps', for_each (resolve_font ft cjk_font text_list) fonts (maps, pend)
                  = Ok (maps', ∅).
Proof.
  revert maps pend.
  induction fonts as [|font fonts IH]; intros maps pend Htables Hcov; cbn [for_each].
  { exists maps. assert (pend = ∅) as ->; [|done].
    apply elem_of_equiv_empty_L. intros s Hs. by destruct (Hcov s Hs) as [_ []]. }
  assert (Hstep : exists maps1 pend1,
    resolve_font ft cjk_font text_list font (maps, pend) = Ok (maps1, pend1) /\
    forall s, s ∈ pend1 -> s ∈ text_list /\ covered ft cjk_font fonts s).
  { destruct (resolve_font ft cjk_font text_list font (maps, pend))
      as [[maps1 pend1]|e] eqn:Hrun.
    - exists maps1, pend1. split; [done|].
      apply resolve_font_Ok in Hrun as (m12 & m06 & syms & _ & Hsub & _ & _ & Htab & Hcjk).
      intros s Hs. destruct (Hcov s (Hsub s Hs)) as [Hin Hc]. split; [done|].
      simpl in Hc. unfold load_font_tables in Htab, Hcjk.
      destruct (decide (font = NAME_CJK ft)) as [Hf|Hf].
      + by destruct (Hcjk eq_refl s Hin).
      + destruct Hc as [(font12 & font06 & Hload & H12 & H06)|Hc]; [|done].
        rewrite Hload in Htab. by destruct (Htab s font12 font06 Hin (Hsub s Hs) eq_refl H12 H06).
    - exfalso. revert Hrun. unfold resolve_font.
      destruct (decide (size pend = 0%nat)); [done|].
      unfold load_font_tables. destruct (decide (font = NAME_CJK ft)) as [Hf|Hf]; cbn [bind].
      + destruct (resolve_symbols_total None text_list ∅ ∅ [] pend)
          as [[[[m12 m06] syms] pend1] ->]; [|done].
        intros _ s Hs Hp. destruct (Hcov s Hp) as [_ Hc]. simpl in Hc.
        by rewrite decide_True in Hc.
      + destruct (Htables font) as [[font12 font06] ->]; [by left|done|]. cbn [bind].
        by destruct (resolve_symbols_total (Some (font12, font06)) text_list
                       ∅ ∅ [] pend) as [[[[m12 m06] syms] pend1] ->]. }
  destruct Hstep as (maps1 & pend1 & -> & Hcov1). cbn [bind].
  apply IH; [|done]. intros f Hf. apply Htables. by right.
Qed.

Lemma resolve_fonts_recorded
    (text_list : list char) (fonts : list string)
    (maps maps' : FontMapsPerFont) (pend pend' : gset N) :
  for_each (resolve_font ft cjk_font text_list) fonts (maps, pend) = Ok (maps', pend') ->
  NoDup fonts ->
  (forall font, font ∈ fonts \/ is_Some (font06_maps maps !! font) ->
     is_Some (font06_maps maps' !! font)) /\
  (forall font, font ∈ fonts \/ is_Some (font12_maps maps !! font) ->
     is_Some (font12_maps maps' !! font)) /\
  (forall font, is_Some (font06_maps maps' !! font) ->
     font ∈ fonts \/ is_Some (font06_maps maps !! font)) /\
  (forall s, (s ∈ pend /\ s ∉ pend') \/ recorded_outside maps fonts s ->
     recorded_outside maps' [] s).
Proof.
  revert maps pend. induction fonts as [|font fonts IH]; intros maps pend; cbn [for_each].
  { intros [= <- <-] _. split_and!.
    - intros f [[]%elem_of_nil|?]. done.
    - intros f [[]%elem_of_nil|?]. done.
    - intros f ?. by right.
    - intros s [[? ?]|?]; done. }
  destruct (resolve_font ft cjk_font text_list font (maps, pend))
    as [[maps1 pend1]|e] eqn:Hstep; cbn [bind]; [|done].
  intros Hrest [Hfresh Hnd]%NoDup_cons.
  destruct (IH _ _ Hrest Hnd) as (Hk06 & Hk12 & Hkeys & Hrec).
  apply resolve_font_Ok in Hstep as (m12 & m06 & syms & -> & Hsub & _ & Hnew & _).
  simpl in *. split_and!.
  - intros f Hf. apply Hk06. destruct (decide (font = f)) as [->|Hne].
    + right. by rewrite lookup_insert_eq.
    + rewrite lookup_insert_ne by done. destruct Hf as [[?|?]%elem_of_cons|?]; auto.
      by subst.
  - intros f Hf. apply Hk12. destruct (decide (font = f)) as [->|Hne].
    + right. by rewrite lookup_insert_eq.
    + rewrite lookup_insert_ne by done. destruct Hf as [[?|?]%elem_of_cons|?]; auto.
      by subst.
  - intros f Hf. destruct (Hkeys f Hf) as [?|Hin]; [left; by right|].
    destruct (decide (font = f)) as [->|Hne]; [left; by left|].
    rewrite lookup_insert_ne in Hin by done. by right.
  - intros s Hs. apply Hrec. unfold recorded_outside. simpl.
    destruct Hs as [[Hin Hout]|(f & m & Hf & Hm & Hsm)].
    + destruct (decide (s ∈ pend1)) as [Hin1|Hout1]; [by left|]. right.
      destruct (Hnew s Hin Hout1) as (_ & _ & _ & line06 & _ & Hline & _).
      exists font, m06. split_and!; [done|by rewrite lookup_insert_eq|by rewrite Hline].
    + right. apply not_elem_of_cons in Hf as [Hne Hf]. exists f, m.
      split_and!; [done| |done]. by rewrite lookup_insert_ne.
Qed.

Lemma merge_font_maps_total (font_maps : FontMapsPerFont) (fonts : list string)
    (acc12 : gmap N bytes) (acc06 : gmap N (option bytes)) :
  (forall font, font ∈ fonts ->
     is_Some (font12_maps font_maps !! font) /\ is_Some (font06_maps font_maps !! font)) ->
  exists m12 m06,
    for_each (fun font '(font12_map, font06_map) =>
        let* f12 := dict_get (font12_maps font_maps) font in
        let* f06 := dict_get (font06_maps font_maps) font in
        Ok (f12 ∪ font12_map, f06 ∪ font06_map))
      fonts (acc12, acc06) = Ok (m12, m06).
Proof.
  revert acc12 acc06. induction fonts as [|font fonts IH]; intros acc12 acc06 Hkeys;
    cbn [for_each].
  { by eexists _, _. }
  destruct (Hkeys font) as [[f12 H12] [f06 H06]]; [by left|].
  unfold dict_get at 1 2. rewrite H12, H06. cbn [bind].
  apply IH. intros f Hf. apply Hkeys. by right.
Qed.

Lemma merge_font_maps_small (font_maps : FontMapsPerFont) (fonts : list string)
    (acc12 m12 : gmap N bytes) (acc06 m06 : gmap N (option bytes))
    (font : string) (f06 : gmap N (option bytes)) (s : char) :
  for_each (fun font '(font12_map, font06_map) =>
      let* f12 := dict_get (font12_maps font_maps) font in
      let* f06 := dict_get (font06_maps font_maps) font in
      Ok (f12 ∪ font12_map, f06 ∪ font06_map))
    fonts (acc12, acc06) = Ok (m12, m06) ->
  (is_Some (acc06 !! s) \/
   (font ∈ fonts /\ font06_maps font_maps !! font = Some f06 /\ is_Some (f06 !! s))) ->
  is_Some (m06 !! s).
Proof.
  revert acc12 acc06. induction fonts as [|f fonts IH]; intros acc12 acc06; cbn [for_each].
  { intros [= <- <-] [?|[[]%elem_of_nil _]]. done. }
  unfold dict_get at 1 2.
  destruct (font12_maps font_maps !! f) as [g12|]; cbn [bind]; [|done].
  destruct (font06_maps font_maps !! f) as [g06|] eqn:H06; cbn [bind]; [|done].
  intros Hrest Hs. apply (IH _ _ Hrest).
  destruct Hs as [Hacc | ([->|Hin]%elem_of_cons & Hf & Hs)].
  - left. apply lookup_union_is_Some. by right.
  - left. apply lookup_union_is_Some. left. congruence.
  - right. done.
Qed.

Lemma split_by_fonts_acc_total (font06_map : gmap N (option bytes))
    (l both large : list char) :
  Forall (fun sym => is_Some (font06_map !! sym)) l ->
  is_Ok (for_each (fun sym '(sym_list_both_fonts, sym_list_large_only) =>
      let* small := dict_get font06_map sym in
      match small with
      | None => Ok (sym_list_both_fonts, sym_list_large_only ++ [sym])
      | Some _ => Ok (sym_list_both_fonts ++ [sym], sym_list_large_only)
      end) l (both, large)).
Proof.
  intros Hall. revert both large.
  induction Hall as [|sym l [small Hsym] _ IH]; intros both large; cbn [for_each].
  { by eexists. }
  unfold dict_get at 1. rewrite Hsym. cbn [bind]. destruct small; cbn [bind]; apply IH.
Qed.

Lemma split_by_fonts_total (font06_map : gmap N (option bytes)) (l : list char) :
  Forall (fun sym => is_Some (font06_map !! sym)) l ->
  is_Ok (split_by_fonts font06_map l).
Proof. apply split_by_fonts_acc_total. Qed.

Lemma assign_symbol_bytes_total (sym_list : list char) (index : nat)
    (symbol_map : gmap N bytes) :
  NoDup sym_list ->
  (forall s, s ∈ sym_list -> symbol_map !! s = None) ->
  Z.of_nat (index + length sym_list) <= MAX_FONT_INDEX ->
  is_Ok (assign_symbol_bytes sym_list index symbol_map).
Proof.
  unfold assign_symbol_bytes. revert index symbol_map.
  induction sym_list as [|sym l IH]; intros index m0 Hnd Hfresh Hmax;
    cbn [enumerate_from for_each].
  { by eexists. }
  apply NoDup_cons in Hnd as [Hsym Hnd]. simpl in Hmax.
  destruct (decide (is_Some (m0 !! sym))) as [Hs|_].
  { rewrite Hfresh in Hs by (by left). by destruct Hs. }
  destruct (proj2 (get_bytes_from_font_index_Ok (Z.of_nat index))) as [code ->]; [lia|].
  cbn [bind]. apply IH; [done| |lia].
  intros s Hs. rewrite lookup_insert_ne by (intros ->; done). apply Hfresh. by right.
Qed.

(** The table builder returns its tables when the symbols are distinct,
    there is no newline among them and no more than the codec can number,
    the fonts are distinct names starting with the baseline font, every
    table font is known to [font_tables], and the fonts resolve every
    symbol of the candidate list. *)
Lemma get_font_map_and_table_total
    (text_list : list char) (fonts : list string) :
  NoDup text_list -> LF ∉ text_list ->
  Z.of_nat (length (candidate_list text_list)) <= MAX_SYMBOL_COUNT ->
  fonts !! 0%nat = Some (NAME_ASCII_BASIC ft) -> NoDup fonts ->
  (forall font, font ∈ fonts -> font <> NAME_CJK ft ->
     is_Ok (get_font_maps_for_name ft font)) ->
  (forall s, s ∈ candidate_list text_list -> covered ft cjk_font fonts s) ->
  is_Ok (get_font_map_and_table ft cjk_font text_list fonts).
Proof.
  intros Hnd Hlf Hcount Hfirst Hfonts Htables Hcov.
  pose proof (candidate_list_NoDup _ Hnd) as Hnd'.
  set (l := candidate_list text_list) in *.
  destruct (resolve_fonts_total l fonts
              {| font12_maps := ∅; font06_maps := ∅; sym_lists := ∅ |} (list_to_set l))
    as [maps Hloop]; [done| |].
  { intros s Hs%elem_of_list_to_set. split; [done|by apply Hcov]. }
  assert (Hper : get_font_map_per_font ft cjk_font l fonts = Ok maps).
  { unfold get_font_map_per_font. rewrite size_list_to_set by done.
    rewrite decide_False by (intros H; by apply H).
    unfold list_get. rewrite Hfirst. cbn [bind].
    rewrite decide_False by (intros H; by apply H).
    destruct (Z.gtb_spec (Z.of_nat (length l)) MAX_SYMBOL_COUNT); [lia|].
    rewrite Hloop. cbn [bind]. rewrite size_empty.
    by rewrite decide_False by lia. }
  destruct (resolve_fonts_recorded _ _ _ _ _ _ Hloop Hfonts)
    as (Hk06 & Hk12 & Hkeys & Hrec).
  destruct (merge_font_maps_total maps fonts ∅ ∅) as (m12 & m06 & Hmerge).
  { intros f Hf. split; [apply Hk12|apply Hk06]; by left. }
  assert (Hall : Forall (fun sym => is_Some (m06 !! sym)) l).
  { apply Forall_forall. intros s Hs.
    destruct (Hrec s) as (f & m & _ & Hm & Hsm).
    { left. split; [by apply elem_of_list_to_set|apply not_elem_of_empty]. }
    apply (merge_font_maps_small _ _ _ _ _ _ f m s Hmerge). right.
    split_and!; [|done|done].
    destruct (Hkeys f) as [?|Hin]; [by rewrite Hm|done|].
    simpl in Hin. rewrite lookup_empty in Hin. by destruct Hin. }
  destruct (split_by_fonts_total m06 l Hall) as [[both large] Hsplit].
  apply split_by_fonts_Ok in Hsplit as Hlists. destruct Hlists as (-> & -> & _).
  set (sym_list := filter (has_both_fonts m06) l ++ filter (is_large_only m06) l) in *.
  assert (Hndl : NoDup sym_list).
  { apply NoDup_app. split_and!; [by apply NoDup_filter| |by apply NoDup_filter].
    intros s [Hb _]%list_elem_of_filter [Hl _]%list_elem_of_filter.
    unfold has_both_fonts in Hb. unfold is_large_only in Hl.
    by destruct (m06 !! s) as [[?|]|]. }
  assert (Hsub : forall s, s ∈ sym_list -> s ∈ l).
  { intros s [Hs|Hs]%elem_of_app; by apply list_elem_of_filter in Hs as [_ ?]. }
  destruct (assign_symbol_bytes_total sym_list 2 {[ LF := [1] ]}) as [symbol_map Hassign].
  - done.
  - intros s Hs%Hsub. apply lookup_singleton_ne. intros <-.
    unfold l, candidate_list in Hs. apply elem_of_app in Hs as [Hs|Hs].
    + revert Hs. apply (bool_decide_unpack _). vm_compute. exact I.
    + by apply list_elem_of_filter in Hs as [_ ?].
  - assert (length sym_list <= length l)%nat
      by (apply submseteq_length, NoDup_submseteq; done).
    unfold MAX_SYMBOL_COUNT in Hcount. unfold MAX_FONT_INDEX. lia.
  - unfold get_font_map_and_table. fold l. rewrite Hper. cbn [bind].
    unfold merge_font_maps. rewrite Hmerge. cbn [bind].
    rewrite Hsplit. cbn [bind]. fold sym_list. rewrite Hassign. by eexists.
Qed.

(** *** The digits come first *)



(** *** The final symbol order: both fonts first *)

(** C8. In the symbol list that the table builder returns, the symbols
    with both bitmaps come first and the symbols with the large bitmap
    only come last, each group in the order of the candidate list; so no
    large-only symbol stands before a symbol with both. Every symbol of
    the list has a large bitmap; the groups differ in the entry for the
    small font, bytes or the placeholder. *)
Theorem C8_both_fonts_before_large_only
    (text_list : list char) (fonts : list string)
    (sym_list : list char) (font_map : FontMap) (symbol_map : gmap N bytes) :
  get_font_map_and_table ft cjk_font text_list fonts = Ok (sym_list, font_map, symbol_map) ->
  sym_list = filter (has_both_fonts (font06 font_map)) (candidate_list text_list)
          ++ filter (is_large_only (font06 font_map)) (candidate_list text_list) /\
  (forall (i j : nat) (a b : char),
     sym_list !! i = Some a -> sym_list !! j = Some b ->
     is_large_only (font06 font_map) a -> has_both_fonts (font06 font_map) b ->
     (j < i)%nat) /\
  (forall s, s ∈ sym_list ->
     is_Some (font12 font_map !! s) /\
     (has_both_fonts (font06 font_map) s \/ is_large_only (font06 font_map) s)).
Proof.
  intros Hrun. pose proof (fun s => final_list_has_bitmaps _ _ _ _ _ s Hrun) as Hbitmaps.
  apply get_font_map_and_table_Ok in Hrun
    as (font_maps & both & large & _ & _ & Hsplit & -> & _).
  apply split_by_fonts_Ok in Hsplit as (-> & -> & _).
  split; [done|]. split.
  2: { intros s Hs. destruct (Hbitmaps s Hs) as (_ & H12 & [x Hx]). split; [done|].
       unfold has_both_fonts, is_large_only. rewrite Hx. destruct x; simpl; auto. }
  set (m := font06 font_map). set (l := candidate_list text_list).
  intros i j a b Ha Hb Hlarge Hboth.
  assert (Hi : (length (filter (has_both_fonts m) l) <= i)%nat).
  { destruct (decide (length (filter (has_both_fonts m) l) <= i)%nat) as [|Hlt]; [done|].
    rewrite lookup_app_l in Ha by lia.
    apply list_elem_of_lookup_2, list_elem_of_filter in Ha as [Ha _].
    unfold has_both_fonts in Ha. unfold is_large_only in Hlarge.
    by destruct (m !! a) as [[?|]|]. }
  assert (Hj : (j < length (filter (has_both_fonts m) l))%nat).
  { destruct (decide (j < length (filter (has_both_fonts m) l))%nat) as [|Hge]; [done|].
    rewrite lookup_app_r in Hb by lia.
    apply list_elem_of_lookup_2, list_elem_of_filter in Hb as [Hb _].
    unfold has_both_fonts in Hboth. unfold is_large_only in Hb.
    by destruct (m !! b) as [[?|]|]. }
  lia.
Qed.

End table_builder.

(** ** The table builder on the sample fonts *)

Lemma many_symbols_NoDup : NoDup many_symbols.
Proof. apply (NoDup_fmap_2 N.of_nat), NoDup_seq. Qed.

Lemma C6_too_many_symbols_witness :
  MAX_SYMBOL_COUNT < Z.of_nat (length (candidate_list many_symbols)) /\
  length many_symbols = 4065%nat /\
  NoDup many_symbols /\
  get_font_map_and_table sample_font_tables sample_cjk_font
    many_symbols ["ascii_basic"] = Raise (ValueError msg_too_many).
Proof.
  assert (Hlen : MAX_SYMBOL_COUNT < Z.of_nat (length (candidate_list many_symbols))).
  { pose proof (candidate_list_length many_symbols many_symbols_NoDup) as Hle.
    unfold many_symbols in Hle at 1. rewrite length_fmap, length_seq in Hle.
    unfold MAX_SYMBOL_COUNT. lia. }
  split_and!.
  - exact Hlen.
  - unfold many_symbols. by rewrite length_fmap, length_seq.
  - apply many_symbols_NoDup.
  - apply (C6_too_many_symbols sample_font_tables sample_cjk_font many_symbols
             ["ascii_basic"] Hlen).
    + apply many_symbols_NoDup.
    + reflexivity.
Defined.

Lemma sample_baseline_supplies_digits : baseline_supplies_digits sample_font_tables.
Proof.
  split; [done|]. exists sample_font12, sample_font06. split; [done|].
  intros d Hd. unfold forced_first_symbols in Hd.
  repeat (apply elem_of_cons in Hd as [->|Hd]; [by split; vm_compute; eexists|]).
  by apply elem_of_nil in Hd.
Qed.

Lemma sample_table_Ok :
  get_font_map_and_table sample_font_tables sample_cjk_font sample_text_list sample_fonts
    = Ok (sample_table.1.1, sample_table.1.2, sample_table.2).
Proof. vm_compute. reflexivity. Qed.

Lemma sample_covered (s : char) :
  s ∈ candidate_list sample_text_list ->
  covered sample_font_tables sample_cjk_font sample_fonts s.
Proof.
  intros Hs. unfold sample_fonts. cbn [covered].
  destruct (decide ("ascii_basic" = NAME_CJK sample_font_tables)) as [Heq|_];
    [discriminate Heq|].
  rewrite decide_True by done.
  assert (Hcases : s ∈ sample_symbols \/ s = 0x4E00%N).
  { vm_compute in Hs. unfold sample_symbols, forced_first_symbols. simpl.
    set_solver. }
  destruct Hcases as [Hin| ->].
  - left. exists sample_font12, sample_font06. split; [done|].
    unfold sample_symbols, forced_first_symbols in Hin. simpl in Hin.
    repeat (apply elem_of_cons in Hin as [->|Hin]; [split; vm_compute; by eexists|]).
    by apply elem_of_nil in Hin.
  - right. vm_compute. by eexists.
Qed.



Lemma C8_both_fonts_before_large_only_witness :
  sample_table.1.1 = [48; 49; 50; 51; 52; 53; 54; 55; 56; 57; 97; 98; 0x4E00]%N /\
  sample_table.1.1
    = filter (has_both_fonts (font06 sample_table.1.2)) (candidate_list sample_text_list)
      ++ filter (is_large_only (font06 sample_table.1.2)) (candidate_list sample_text_list) /\
  (forall (i j : nat) (a b : char),
     sample_table.1.1 !! i = Some a -> sample_table.1.1 !! j = Some b ->
     is_large_only (font06 sample_table.1.2) a ->
     has_both_fonts (font06 sample_table.1.2) b ->
     (j < i)%nat) /\
  (forall s, s ∈ sample_table.1.1 ->
     is_Some (font12 sample_table.1.2 !! s) /\
     (has_both_fonts (font06 sample_table.1.2) s \/
      is_large_only (font06 sample_table.1.2) s)).
Proof.
  split; [vm_compute; reflexivity|].
  apply (C8_both_fonts_before_large_only sample_font_tables sample_cjk_font
           sample_text_list sample_fonts _ _ sample_table.2).
  apply sample_table_Ok.
Defined.

(** ** The string table: the scenario *)

Lemma scenario_run :
  get_translation_strings_and_indices ascii_letters_table scenario_strings
    = Ok ([Some (Remapped 1 2); None; None],
          [99; 100; 97; 98; 0; 120; 121; 122; 0],
          [2; 0; 5]).
Proof. vm_compute. reflexivity. Qed.

(** C2, as the script computes it. For ["ab"], ["cdab"], ["xyz"] and the
    ASCII table, ["ab"] is absorbed into ["cdab"] at offset 2, the strings
    are written in the order of the table, so the array is
    ["cdab\0xyz\0"] and the offsets are [2, 0, 5]: the offset of ["ab"]
    points at the bytes ["ab\0"] inside ["cdab\0"]. *)
Theorem C2_scenario :
  get_translation_strings_and_indices ascii_letters_table scenario_strings
    = Ok ([Some (Remapped 1 2); None; None],
          [99; 100; 97; 98; 0; 120; 121; 122; 0],
          [2; 0; 5]) /\
  slice [99; 100; 97; 98; 0; 120; 121; 122; 0] 2 5 = [97; 98; 0] /\
  read_string [99; 100; 97; 98; 0; 120; 121; 122; 0] 2 = Some [97; 98] /\
  read_string [99; 100; 97; 98; 0; 120; 121; 122; 0] 0 = Some [99; 100; 97; 98] /\
  read_string [99; 100; 97; 98; 0; 120; 121; 122; 0] 5 = Some [120; 121; 122].
Proof. split_and!; vm_compute; reflexivity. Qed.

(** C2 as stated fails: the offsets are not [5, 2, 0] and the array is
    not ["xyz\0cdab\0"]; in that array the bytes [5:8] are ["dab"]. *)
Lemma C2_scenario_counterexample :
  ~ (exists remapping blob,
       get_translation_strings_and_indices ascii_letters_table scenario_strings
         = Ok (remapping, blob, [5; 2; 0])) /\
  ~ (exists remapping offsets,
       get_translation_strings_and_indices ascii_letters_table scenario_strings
         = Ok (remapping, [120; 121; 122; 0; 99; 100; 97; 98; 0], offsets)) /\
  slice [120; 121; 122; 0; 99; 100; 97; 98; 0] 5 8 <> [97; 98; 0].
Proof.
  pose proof scenario_run as Hrun. split_and!.
  - intros (remapping & blob & H). rewrite Hrun in H. discriminate.
  - intros (remapping & offsets & H). rewrite Hrun in H. discriminate.
  - vm_compute. discriminate.
Qed.

(** ** Bytes, enumeration and sorting *)

Lemma startswith_spec (b prefix : bytes) :
  startswith b prefix = true <-> exists rest, b = prefix ++ rest.
Proof.
  revert b. induction prefix as [|p prefix IH]; intros b; simpl.
  - split; [intros _; by exists b|done].
  - destruct b as [|x b].
    + split; [done|]. intros (rest & [=]).
    + rewrite andb_true_iff, IH, Z.eqb_eq. split.
      * intros (-> & rest & ->). by exists rest.
      * intros (rest & [= -> ->]). eauto.
Qed.

Lemma startswith_trans (b p q : bytes) :
  startswith b p = true -> startswith p q = true -> startswith b q = true.
Proof.
  rewrite !startswith_spec. intros (r1 & ->) (r2 & ->).
  exists (r2 ++ r1). by rewrite (assoc_L (++)).
Qed.

Lemma enumerate_from_lookup {A : Type} (k : nat) (l : list A) (p : nat) :
  enumerate_from k l !! p = (fun x => ((k + p)%nat, x)) <$> l !! p.
Proof.
  revert k p. induction l as [|x l IH]; intros k [|p]; simpl; try done.
  - by rewrite Nat.add_0_r.
  - rewrite IH. by rewrite Nat.add_succ_r.
Qed.

Lemma elem_of_enumerate_from {A : Type} (k : nat) (l : list A) (i : nat) (x : A) :
  (i, x) ∈ enumerate_from k l <-> exists p, i = (k + p)%nat /\ l !! p = Some x.
Proof.
  rewrite list_elem_of_lookup. setoid_rewrite enumerate_from_lookup. split.
  - intros (p & Hp). destruct (l !! p) as [y|] eqn:Hl; [|done].
    injection Hp as <- <-. eauto.
  - intros (p & -> & Hl). exists p. by rewrite Hl.
Qed.

Lemma enumerate_from_length {A : Type} (k : nat) (l : list A) :
  length (enumerate_from k l) = length l.
Proof. revert k. induction l as [|x l IH]; intros k; simpl; [done|by rewrite IH]. Qed.

Lemma insert_by_key_Permutation {A : Type} (key : A -> bytes) (x : A) (l : list A) :
  insert_by_key key x l ≡ₚ x :: l.
Proof.
  induction l as [|y l IH]; simpl; [done|].
  destruct (bytes_le (key x) (key y)); [done|].
  rewrite IH. apply Permutation_swap.
Qed.

Lemma sorted_Permutation {A : Type} (key : A -> bytes) (l : list A) :
  sorted key l ≡ₚ l.
Proof.
  induction l as [|x l IH]; simpl; [done|].
  by rewrite insert_by_key_Permutation, IH.
Qed.

Lemma map_result_Ok {A B : Type} (f : A -> result B) (l : list A) (ys : list B) :
  map_result f l = Ok ys -> Forall2 (fun x y => f x = Ok y) l ys.
Proof.
  revert ys. induction l as [|x l IH]; intros ys; simpl.
  - intros [= <-]. constructor.
  - destruct (f x) as [y|e] eqn:Hx; cbn [bind]; [|done].
    destruct (map_result f l) as [ys'|e]; cbn [bind]; [|done].
    intros [= <-]. constructor; [done|]. by apply IH.
Qed.

(** ** Converted strings *)

Lemma convert_string_bytes_no_null (symbol_conversion_table : gmap N bytes)
    (text : str) (converted : bytes) :
  (forall c code, symbol_conversion_table !! c = Some code -> 0 ∉ code) ->
  convert_string_bytes symbol_conversion_table text = Ok converted ->
  0 ∉ converted.
Proof.
  intros Htbl. unfold convert_string_bytes.
  generalize (replace2 BACKSLASH 110%N [LF] (replace2 BACKSLASH 114%N [] text)).
  intros l. assert (Hnil : 0 ∉ ([] : bytes)) by apply not_elem_of_nil.
  revert Hnil. generalize ([] : bytes) as acc. revert converted.
  induction l as [|c l IH]; intros converted acc Hacc; cbn [for_each].
  - by intros [= <-].
  - destruct (symbol_conversion_table !! c) as [code|] eqn:Hc; cbn [bind]; [|done].
    apply IH. rewrite elem_of_app. intros [?|?]; [done|]. by eapply Htbl.
Qed.

(** The two characters backslash and n stand for a newline and the two
    characters backslash and r are dropped before the symbols are looked
    up. *)
Example convert_string_bytes_escapes :
  convert_string_bytes {[ 97%N := [97]; LF := [1] ]} (str_of_string "a\na\r")
    = Ok [97; 1; 97] /\
  convert_string_bytes {[ 97%N := [97]; LF := [1] ]} (str_of_string "ab")
    = Raise (SystemExit 1).
Proof. split; vm_compute; reflexivity. Qed.

(** The sort is by the reversed bytes, and equal keys keep the order of
    the table: the sorted table of ["ab"], ["cdab"], ["xyz"], ["ab"]. *)
Example backward_sorted_table_example :
  backward_sorted_table ascii_letters_table (str_of_string <$> ["ab"; "cdab"; "xyz"; "ab"])
    = Ok [(0%nat, str_of_string "ab", [98; 97]);
          (3%nat, str_of_string "ab", [98; 97]);
          (1%nat, str_of_string "cdab", [98; 97; 100; 99]);
          (2%nat, str_of_string "xyz", [122; 121; 120])].
Proof. vm_compute. reflexivity. Qed.

(** The items of [backward_sorted_table]: one per string, carrying the
    index of the string and its converted bytes reversed. *)
Lemma backward_sorted_table_Ok (symbol_conversion_table : gmap N bytes)
    (str_table : list str) (table : list entry) :
  backward_sorted_table symbol_conversion_table str_table = Ok table ->
  length table = length str_table /\
  NoDup ((fun e : entry => e.1.1) <$> table) /\
  (forall i s r, (i, s, r) ∈ table ->
     str_table !! i = Some s /\
     exists converted, convert_string_bytes symbol_conversion_table s = Ok converted /\
                       r = reverse converted) /\
  (forall i s, str_table !! i = Some s -> exists r, (i, s, r) ∈ table).
Proof.
  unfold backward_sorted_table.
  destruct (map_result _ (enumerate str_table)) as [items|e] eqn:Hitems; cbn [bind]; [|done].
  intros [= <-]. apply map_result_Ok in Hitems.
  pose proof (sorted_Permutation (fun x : entry => x.2) items) as Hperm.
  assert (Hlen : length items = length str_table).
  { apply Forall2_length in Hitems. unfold enumerate in Hitems.
    by rewrite enumerate_from_length in Hitems. }
  assert (Hidx : (fun e : entry => e.1.1) <$> items = seq 0 (length str_table)).
  { unfold enumerate in Hitems. revert Hitems. generalize 0%nat. clear.
    revert items. induction str_table as [|s l IH]; intros items k Hitems; simpl in *.
    - by apply Forall2_nil_inv_l in Hitems as ->.
    - apply Forall2_cons_inv_l in Hitems as (e & items' & He & Hrest & ->).
      destruct (convert_string_bytes _ s); [|done]. injection He as <-.
      simpl. f_equal. by apply IH. }
  split_and!.
  - by rewrite Hperm.
  - rewrite Hperm, Hidx. apply NoDup_seq.
  - intros i s r Hin. rewrite Hperm in Hin.
    apply list_elem_of_lookup in Hin as (p & Hp).
    destruct (Forall2_lookup_r _ _ _ _ _ Hitems Hp) as ([i' s'] & Hen & Hf).
    destruct (convert_string_bytes _ s') as [converted|] eqn:Hconv; [|done].
    injection Hf as -> -> <-.
    unfold enumerate in Hen. rewrite enumerate_from_lookup in Hen.
    destruct (str_table !! p) as [s''|] eqn:Hs; [|done]. injection Hen as <- <-.
    split; [done|]. by exists converted.
  - intros i s Hs.
    assert (Hen : enumerate str_table !! i = Some (i, s))
      by (unfold enumerate; by rewrite enumerate_from_lookup, Hs).
    destruct (Forall2_lookup_l _ _ _ _ _ Hitems Hen) as ([[i' s'] r] & Hit & Hf).
    destruct (convert_string_bytes _ s) as [converted|]; [|done].
    injection Hf as <- <- <-. exists (reverse converted).
    rewrite Hperm. by eapply list_elem_of_lookup_2.
Qed.

(** ** The suffix merging scan *)

Lemma extend_run_Ok (converted : bytes) (following : list entry) (j0 j : nat) :
  extend_run converted following j0 = Ok j ->
  exists (m : nat) (stop : entry),
    j = (j0 + m)%nat /\
    following !! m = Some stop /\ startswith stop.2 converted = false /\
    forall q, (q < m)%nat ->
      exists e, following !! q = Some e /\ startswith e.2 converted = true.
Proof.
  revert j0. induction following as [|next following IH]; intros j0; simpl; [done|].
  destruct (startswith next.2 converted) eqn:Hnext.
  - intros (m & stop & -> & Hstop & Hfalse & Hrun)%IH.
    exists (S m), stop. split_and!; [lia|done|done|].
    intros [|q] Hq; simpl; [by exists next|]. apply Hrun. lia.
  - intros [= <-]. exists 0%nat, next. split_and!; [lia|done|done|].
    intros q Hq. lia.
Qed.

Lemma remap_entries_Ok (table l : list entry) (k : nat)
    (r0 r : list (option RemappedTranslationItem)) :
  for_each (remap_entry table) (enumerate_from k l) r0 = Ok r ->
  NoDup ((fun e : entry => e.1.1) <$> l) ->
  length r = length r0 /\
  (forall a, a ∉ (fun e : entry => e.1.1) <$> l -> r !! a = r0 !! a) /\
  (forall p e, l !! p = Some e ->
     exists j, extend_run e.2 (drop (S (k + p)) table) (k + p) = Ok j /\
       ((j = (k + p)%nat /\ r !! e.1.1 = r0 !! e.1.1) \/
        (j <> (k + p)%nat /\ exists target, table !! j = Some target /\
           r !! e.1.1 = Some (Some (Remapped target.1.1
             (Z.of_nat (length target.2) - Z.of_nat (length e.2))))))).
Proof.
  revert k r0. induction l as [|e l IH]; intros k r0; cbn [enumerate_from for_each].
  { intros [= <-] _. split_and!; [done|done|]. intros p e Hp. done. }
  rewrite fmap_cons, NoDup_cons.
  destruct (remap_entry table (k, e) r0) as [r1|err] eqn:Hstep; cbn [bind]; [|done].
  intros Hrest [Hfresh Hnd].
  destruct (IH _ _ Hrest Hnd) as (Hlen & Hframe & Hpos).
  destruct e as [[index source_str] converted]. simpl in Hfresh.
  unfold remap_entry in Hstep.
  destruct (extend_run converted (drop (S k) table) k) as [j|err] eqn:Hrun;
    cbn [bind] in Hstep; [|done].
  assert (Hhead : length r1 = length r0 /\
    (forall a, a <> index -> r1 !! a = r0 !! a) /\
    ((j = k /\ r1 !! index = r0 !! index) \/
     (j <> k /\ exists target, table !! j = Some target /\
        r1 !! index = Some (Some (Remapped target.1.1
          (Z.of_nat (length target.2) - Z.of_nat (length converted))))))).
  { destruct (decide (j ≠ k)) as [Hne|Heq].
    - unfold list_get in Hstep.
      destruct (table !! j) as [target|] eqn:Htarget; cbn [bind] in Hstep; [|done].
      unfold list_set in Hstep. destruct (decide (index < length r0)%nat); [|done].
      injection Hstep as <-. split_and!.
      + by rewrite length_insert.
      + intros a Ha. by rewrite list_lookup_insert_ne.
      + right. split; [done|]. exists target. split; [done|].
        by rewrite list_lookup_insert_eq.
    - apply dec_stable in Heq. injection Hstep as <-. split_and!; [done|done|by left]. }
  destruct Hhead as (Hlen1 & Hframe1 & Hhead).
  split_and!.
  - congruence.
  - intros a [Ha1 Ha2]%not_elem_of_cons. rewrite Hframe by done. by apply Hframe1.
  - intros [|p] e Hp; simpl in Hp.
    + injection Hp as <-. simpl. rewrite Nat.add_0_r. exists j. split; [done|].
      rewrite Hframe by done. done.
    + destruct (Hpos p e Hp) as (j' & Hrun' & Hcase).
      rewrite Nat.add_succ_r. exists j'. split; [done|].
      destruct Hcase as [[-> Hsame]|Hset]; [|by right].
      left. split; [done|]. rewrite Hsame. apply Hframe1.
      intros Heq. apply Hfresh. rewrite <- Heq.
      apply list_elem_of_fmap. exists e. split; [done|]. by eapply list_elem_of_lookup_2.
Qed.

(** Every recorded remapping sends a string to a string of which it is a
    suffix, at the offset where the suffix starts, and the target itself
    is not remapped. *)
Lemma suffix_merge_Ok (table : list entry) (n : nat)
    (str_remapping : list (option RemappedTranslationItem)) :
  suffix_merge table n = Ok str_remapping ->
  NoDup ((fun e : entry => e.1.1) <$> table) ->
  (forall e, e ∈ table -> (e.1.1 < n)%nat) ->
  length str_remapping = n /\
  forall a b off, str_remapping !! a = Some (Some (Remapped b off)) ->
    exists ea eb, ea ∈ table /\ eb ∈ table /\ ea.1.1 = a /\ eb.1.1 = b /\
      startswith eb.2 ea.2 = true /\
      off = Z.of_nat (length eb.2) - Z.of_nat (length ea.2) /\
      str_remapping !! b = Some None.
Proof.
  unfold suffix_merge, enumerate. intros Hscan Hnd Hidx.
  set (l := take (length table - 1) table) in *.
  assert (Hndl : NoDup ((fun e : entry => e.1.1) <$> l)).
  { rewrite <- (take_drop (length table - 1) table), fmap_app in Hnd.
    by apply NoDup_app in Hnd as [? _]. }
  destruct (remap_entries_Ok _ _ _ _ _ Hscan Hndl) as (Hlen & Hframe & Hpos).
  rewrite length_replicate in Hlen. split; [done|].
  assert (Hl : forall p e, l !! p = Some e -> table !! p = Some e /\ (S p < length table)%nat).
  { intros p e Hp. unfold l in Hp. apply lookup_take_Some in Hp as [Hp Hlt].
    split; [done|lia]. }
  assert (Hnone : forall p e, table !! p = Some e -> (S p < length table)%nat ->
     startswith_next_false table p e ->
     str_remapping !! e.1.1 = Some None).
  { intros p e Hp Hlt Hnext.
    assert (Hlp : l !! p = Some e) by (unfold l; rewrite lookup_take_lt; [done|lia]).
    destruct (Hpos p e Hlp) as (j & Hrun & Hcase). simpl in Hrun.
    destruct Hnext as (next & Hnext & Hfalse).
    rewrite (drop_S _ next) in Hrun by done. simpl in Hrun. rewrite Hfalse in Hrun.
    injection Hrun as <-. destruct Hcase as [[_ ->]|[? _]]; [|done].
    apply lookup_replicate_2. apply Hidx. by eapply list_elem_of_lookup_2. }
  intros a b off Ha.
  destruct (decide (a ∈ (fun e : entry => e.1.1) <$> l)) as [Hin|Hout].
  2: { rewrite Hframe in Ha by done. apply lookup_replicate in Ha as [? _]. done. }
  apply list_elem_of_fmap in Hin as (ea & -> & Hea).
  apply list_elem_of_lookup in Hea as (p & Hp).
  destruct (Hl p ea Hp) as [Htp Hlt].
  destruct (Hpos p ea Hp) as (j & Hrun & Hcase). simpl in Hrun.
  destruct Hcase as [[_ Hsame]|(Hne & target & Htarget & Hset)].
  { rewrite Hsame in Ha. apply lookup_replicate in Ha as [? _]. done. }
  rewrite Hset in Ha. injection Ha as <- <-.
  apply extend_run_Ok in Hrun as (m & stop & -> & Hstop & Hfalse & Hrun).
  destruct m as [|m]; [lia|].
  destruct (Hrun m ltac:(lia)) as (e & He & Hpre).
  rewrite lookup_drop in He, Hstop.
  replace (S p + m)%nat with (p + S m)%nat in He by lia.
  assert (e = target) as -> by congruence.
  exists ea, target. split_and!; try done.
  - by eapply list_elem_of_lookup_2.
  - by eapply list_elem_of_lookup_2.
  - apply (Hnone (p + S m)%nat target Htarget).
    + apply lookup_lt_Some in Hstop. lia.
    + exists stop. split; [by replace (S (p + S m)) with (S p + S m)%nat by lia|].
      destruct (startswith stop.2 target.2) eqn:Hst; [|done].
      by rewrite (startswith_trans _ _ _ Hst Hpre) in Hfalse.
Qed.

(** *** When the scan completes *)

Lemma extend_run_total (converted : bytes) (following : list entry) (j0 : nat) :
  (exists stop, stop ∈ following /\ startswith stop.2 converted = false) ->
  exists j, extend_run converted following j0 = Ok j /\
            (j < j0 + length following)%nat.
Proof.
  revert j0. induction following as [|next following IH]; intros j0 (stop & Hin & Hstop).
  { by apply elem_of_nil in Hin. }
  simpl. destruct (startswith next.2 converted) eqn:Hnext.
  - destruct (IH (S j0)) as (j & -> & Hj).
    + exists stop. split; [|done]. apply elem_of_cons in Hin as [->|?]; [congruence|done].
    + exists j. split; [done|lia].
  - exists j0. split; [done|lia].
Qed.

Lemma remap_entries_total (table l : list entry) (k : nat)
    (r0 : list (option RemappedTranslationItem)) :
  (forall p e, l !! p = Some e ->
     (e.1.1 < length r0)%nat /\
     exists stop, stop ∈ drop (S (k + p)) table /\ startswith stop.2 e.2 = false) ->
  is_Ok (for_each (remap_entry table) (enumerate_from k l) r0).
Proof.
  revert k r0. induction l as [|e l IH]; intros k r0 Hl; cbn [enumerate_from for_each].
  { by eexists. }
  destruct (Hl 0%nat e eq_refl) as [Hidx Hstop]. rewrite Nat.add_0_r in Hstop.
  assert (Hstep : exists r1, remap_entry table (k, e) r0 = Ok r1 /\ length r1 = length r0).
  { destruct e as [[index source_str] converted]. simpl in *. unfold remap_entry.
    assert (Hk : (S k < length table)%nat).
    { destruct Hstop as (stop & [q Hq]%list_elem_of_lookup & _).
      rewrite lookup_drop in Hq. apply lookup_lt_Some in Hq. lia. }
    destruct (extend_run_total converted (drop (S k) table) k Hstop) as (j & -> & Hj).
    cbn [bind]. destruct (decide (j ≠ k)); [|by eexists].
    rewrite length_drop in Hj.
    destruct (lookup_lt_is_Some_2 table j ltac:(lia)) as [target Htarget].
    unfold list_get. rewrite Htarget. cbn [bind].
    unfold list_set. rewrite decide_True by done.
    eexists. split; [done|]. by rewrite length_insert. }
  destruct Hstep as (r1 & -> & Hlen). cbn [bind]. apply IH.
  intros p e' Hp. rewrite Hlen. replace (S k + p)%nat with (k + S p)%nat by lia.
  apply (Hl (S p) e' Hp).
Qed.

(** The scan completes when the last item of the sorted table continues
    no other item: the first item that stops a run is then found before
    the index runs out of the table. *)
Lemma suffix_merge_total (table : list entry) (n : nat) :
  (forall e, e ∈ table -> (e.1.1 < n)%nat) ->
  (forall i e stop, table !! i = Some e -> (S i < length table)%nat ->
     last table = Some stop -> startswith stop.2 e.2 = false) ->
  is_Ok (suffix_merge table n).
Proof.
  intros Hidx Hlast. unfold suffix_merge, enumerate. apply remap_entries_total.
  intros p e [Hp Hlt]%lookup_take_Some. rewrite length_replicate. split.
  - apply Hidx. by eapply list_elem_of_lookup_2.
  - destruct (lookup_lt_is_Some_2 table (length table - 1) ltac:(lia)) as [stop Hstop].
    assert (Hl : last table = Some stop).
    { rewrite last_lookup. by replace (pred (length table)) with (length table - 1)%nat by lia. }
    exists stop. split; [|apply (Hlast p e stop Hp); [lia|done]].
    apply list_elem_of_lookup. exists (length table - 1 - S p)%nat.
    rewrite lookup_drop. rewrite <- Hstop. f_equal. lia.
Qed.

(** The scan raises when the last item of the sorted table continues the
    item before it: the run of that item reaches the end of the table. *)
Lemma suffix_merge_raises (front : list entry) (e stop : entry) (n : nat) :
  NoDup ((fun e : entry => e.1.1) <$> (front ++ [e; stop])) ->
  startswith stop.2 e.2 = true ->
  ~ is_Ok (suffix_merge (front ++ [e; stop]) n).
Proof.
  intros Hnd Hpre [r Hr].
  assert (Htab : front ++ [e; stop] = (front ++ [e]) ++ [stop])
    by (by rewrite <- (assoc_L (++))).
  rewrite Htab in Hr, Hnd. unfold suffix_merge, enumerate in Hr.
  rewrite (length_app (front ++ [e])) in Hr. cbn [length] in Hr.
  replace (length (front ++ [e]) + 1 - 1)%nat with (length (front ++ [e])) in Hr by lia.
  rewrite take_app_length in Hr.
  apply remap_entries_Ok in Hr as (_ & _ & Hpos).
  2: { rewrite fmap_app in Hnd. by apply NoDup_app in Hnd as [? _]. }
  destruct (Hpos (length front) e) as (j & Hrun & _).
  { apply list_lookup_middle. done. }
  rewrite (drop_app_length' (front ++ [e])) in Hrun
    by (rewrite length_app; simpl; lia).
  simpl in Hrun. by rewrite Hpre in Hrun.
Qed.

(** ** Reading the array *)

Lemma until_null_app (converted rest : bytes) :
  0 ∉ converted -> until_null (converted ++ 0 :: rest) = Some converted.
Proof.
  induction converted as [|b converted IH]; intros Hn; simpl; [done|].
  apply not_elem_of_cons in Hn as [Hb Hn].
  destruct (Z.eqb_spec b 0) as [->|_]; [done|]. by rewrite IH.
Qed.

Lemma read_string_placed (blob : bytes) (o : Z) (converted : bytes) :
  placed blob o converted -> 0 ∉ converted -> read_string blob o = Some converted.
Proof.
  intros (Ho & rest & Hdrop) Hn. unfold read_string.
  destruct (Z.ltb_spec o 0); [lia|]. rewrite Hdrop. by apply until_null_app.
Qed.

Lemma placed_app (blob extra : bytes) (o : Z) (converted : bytes) :
  placed blob o converted -> placed (blob ++ extra) o converted.
Proof.
  intros (Ho & rest & Hdrop). split; [done|]. exists (rest ++ extra).
  assert (Z.to_nat o <= length blob)%nat.
  { destruct (decide (Z.to_nat o <= length blob)%nat) as [|Hgt]; [done|].
    rewrite drop_ge in Hdrop by lia. by destruct converted. }
  rewrite drop_app_le, Hdrop by done. by rewrite <- (assoc_L (++)).
Qed.

Lemma placed_end (blob pre converted : bytes) (o : Z) :
  o = Z.of_nat (length blob) ->
  placed (blob ++ (pre ++ converted) ++ [0]) (o + Z.of_nat (length pre)) converted.
Proof.
  intros ->. split; [lia|]. exists [].
  replace (Z.to_nat (Z.of_nat (length blob) + Z.of_nat (length pre)))
    with (length (blob ++ pre)) by (rewrite length_app; lia).
  rewrite <- !(assoc_L (++)), (assoc_L (++) blob pre). by rewrite drop_app_length.
Qed.

(** ** Writing the string table *)

Lemma elem_of_str_used_by (str_remapping : list (option RemappedTranslationItem))
    (i x : nat) :
  x ∈ str_used_by str_remapping i <->
  x = i \/ exists r, str_remapping !! x = Some (Some r) /\ str_index r = i.
Proof.
  unfold str_used_by. rewrite elem_of_cons, list_elem_of_omap.
  apply or_iff_compat_l. split.
  - intros ([j [r|]] & Hin & Hf); [|done].
    destruct (decide (str_index r = i)) as [Hr|]; [|done]. injection Hf as ->.
    unfold enumerate in Hin. apply elem_of_enumerate_from in Hin as (p & -> & Hp).
    by exists r.
  - intros (r & Hx & Hr). exists (x, Some r). split.
    + unfold enumerate. apply elem_of_enumerate_from. by exists x.
    + by rewrite decide_True.
Qed.

Lemma record_offsets_Ok (str_remapping : list (option RemappedTranslationItem))
    (i : nat) (o : Z) (js : list nat) (offs offs' : list Z) :
  for_each (record_offset str_remapping i o) js offs = Ok offs' ->
  length offs' = length offs /\
  (forall x, x ∉ js -> offs' !! x = offs !! x) /\
  (forall x, x ∈ js -> x <> i ->
     exists r, str_remapping !! x = Some (Some r) /\
               offs' !! x = Some (o + str_start_offset r)) /\
  (i ∈ js -> offs' !! i = Some o).
Proof.
  revert offs. induction js as [|j js IH]; intros offs; cbn [for_each].
  { intros [= <-]. split_and!; [done|done| |]; intros; by exfalso; eapply elem_of_nil. }
  destruct (record_offset str_remapping i o j offs) as [offs1|e] eqn:Hstep;
    cbn [bind]; [|done].
  intros (Hlen & Hframe & Hset & Hi)%IH.
  assert (Hhead : exists v, offs1 = <[j := v]> offs /\ (j < length offs)%nat /\
    (j = i -> v = o) /\
    (j <> i -> exists r, str_remapping !! j = Some (Some r) /\ v = o + str_start_offset r)).
  { unfold record_offset in Hstep. destruct (decide (j = i)) as [->|Hne].
    - unfold list_set in Hstep. destruct (decide (i < length offs)%nat); [|done].
      injection Hstep as <-. exists o. split_and!; [done|done|done|]. intros; done.
    - unfold list_get in Hstep.
      destruct (str_remapping !! j) as [[r|]|]; cbn [bind] in Hstep; [|done|done].
      unfold list_set in Hstep. destruct (decide (j < length offs)%nat); [|done].
      injection Hstep as <-. exists (o + str_start_offset r).
      split_and!; [done|done|intros; done|]. intros _. by exists r. }
  destruct Hhead as (v & -> & Hj & Hvi & Hvr).
  rewrite length_insert in Hlen.
  assert (Hat : forall x, x ∉ js -> x = j -> offs' !! x = Some v).
  { intros x Hx ->. rewrite Hframe by done. by rewrite list_lookup_insert_eq. }
  split_and!.
  - done.
  - intros x [Hxj Hx]%not_elem_of_cons. rewrite Hframe by done.
    by rewrite list_lookup_insert_ne.
  - intros x Hx Hne. destruct (decide (x ∈ js)) as [Hin|Hout]; [by apply Hset|].
    apply elem_of_cons in Hx as [->|?]; [|done].
    destruct (Hvr Hne) as (r & Hr & ->). exists r. split; [done|]. by apply Hat.
  - intros Hx. destruct (decide (i ∈ js)) as [Hin|Hout]; [by apply Hi|].
    apply elem_of_cons in Hx as [->|?]; [|done].
    rewrite (Hat j) by done. by rewrite Hvi.
Qed.

Lemma write_string_Ok (symbol_conversion_table : gmap N bytes)
    (str_remapping : list (option RemappedTranslationItem))
    (i : nat) (source_str : str) (w w' : writer) :
  write_string symbol_conversion_table str_remapping (i, source_str) w = Ok w' ->
  (exists r, str_remapping !! i = Some (Some r) /\ w' = w) \/
  (str_remapping !! i = Some None /\
   exists converted,
     convert_string_bytes symbol_conversion_table source_str = Ok converted /\
     TranslationStringsData w' = TranslationStringsData w ++ converted ++ [0] /\
     offset w' = offset w + Z.of_nat (length converted) + 1 /\
     length (str_offsets w') = length (str_offsets w) /\
     str_offsets w' !! i = Some (offset w) /\
     (forall x r, str_remapping !! x = Some (Some r) -> str_index r = i ->
        str_offsets w' !! x = Some (offset w + str_start_offset r)) /\
     (forall x, owner str_remapping x <> Some i ->
        str_offsets w' !! x = str_offsets w !! x)).
Proof.
  unfold write_string, list_get.
  destruct (str_remapping !! i) as [[r|]|] eqn:Hi; cbn [bind]; [| |done].
  { intros [= <-]. left. by exists r. }
  destruct (for_each _ (str_used_by str_remapping i) (str_offsets w))
    as [offs1|e] eqn:Hrec; cbn [bind]; [|done].
  destruct (convert_string_bytes symbol_conversion_table source_str)
    as [converted|e]; cbn [bind]; [|done].
  unfold list_set. destruct (decide (i < length offs1)%nat) as [Hlt|]; cbn [bind]; [|done].
  intros [= <-]. right. split; [done|]. exists converted.
  apply record_offsets_Ok in Hrec as (Hlen & Hframe & Hset & _).
  split_and!.
  - done.
  - unfold TranslationStringsData. simpl.
    destruct (write_null w); by rewrite <- !(assoc_L (++)).
  - done.
  - simpl. by rewrite length_insert.
  - simpl. by rewrite list_lookup_insert_eq.
  - intros x r Hx Hr. simpl.
    assert (x <> i) by (intros ->; congruence).
    rewrite list_lookup_insert_ne by done.
    destruct (Hset x) as (r' & Hr' & ->); [|done|congruence].
    apply elem_of_str_used_by. right. by exists r.
  - intros x Hown. simpl.
    assert (x <> i) by (intros ->; unfold owner in Hown; by rewrite Hi in Hown).
    rewrite list_lookup_insert_ne by done. apply Hframe.
    rewrite elem_of_str_used_by. intros [?|(r & Hr & Hri)]; [done|].
    unfold owner in Hown. rewrite Hr in Hown. congruence.
Qed.

Lemma write_strings_Ok (symbol_conversion_table : gmap N bytes)
    (str_table : list str)
    (str_remapping : list (option RemappedTranslationItem))
    (k : nat) (l : list str) (w w' : writer) :
  suffix_remapping symbol_conversion_table str_table str_remapping ->
  for_each (write_string symbol_conversion_table str_remapping)
    (enumerate_from k l) w = Ok w' ->
  (forall p, l !! p = str_table !! (k + p)%nat) ->
  offset w = Z.of_nat (length (TranslationStringsData w)) ->
  offset w' = Z.of_nat (length (TranslationStringsData w')) /\
  (exists extra, TranslationStringsData w' = TranslationStringsData w ++ extra) /\
  length (str_offsets w') = length (str_offsets w) /\
  (forall x b, owner str_remapping x = Some b ->
     (b < k \/ k + length l <= b)%nat ->
     str_offsets w' !! x = str_offsets w !! x) /\
  (forall x b, owner str_remapping x = Some b ->
     (k <= b < k + length l)%nat -> str_remapping !! b = Some None ->
     string_placed symbol_conversion_table str_table str_remapping w' x).
Proof.
  intros Hone. revert k w.
  induction l as [|s l IH]; intros k w; cbn [enumerate_from for_each].
  { intros [= <-] _ Hoff. split_and!; [done|by exists []; rewrite app_nil_r|done|done|].
    intros x b _ Hb. simpl in Hb. lia. }
  destruct (write_string symbol_conversion_table str_remapping (k, s) w)
    as [w1|e] eqn:Hstep; cbn [bind]; [|done].
  intros Hrest Hl Hoff.
  assert (Hl' : forall p, l !! p = str_table !! (S k + p)%nat).
  { intros p. replace (S k + p)%nat with (k + S p)%nat by lia. apply (Hl (S p)). }
  assert (Hs : str_table !! k = Some s).
  { rewrite <- (Nat.add_0_r k). symmetry. apply (Hl 0%nat). }
  apply write_string_Ok in Hstep
    as [(r & Hk & ->) |
        (Hk & c & Hconv & Hdata & Hoff1 & Hlen1 & Hat & Habs & Hframe1)].
  - destruct (IH _ _ Hrest Hl' Hoff) as (Hoff' & Hext & Hlen' & Hframe' & Hgood').
    split_and!; [done|done|done| |].
    + intros x b Hown Hb. apply (Hframe' x b Hown). simpl in Hb. lia.
    + intros x b Hown Hb Hnone. apply (Hgood' x b Hown); [|done].
      assert (b <> k) by (intros ->; congruence). simpl in Hb. lia.
  - assert (Hoff1' : offset w1 = Z.of_nat (length (TranslationStringsData w1))).
    { rewrite Hoff1, Hdata, Hoff, !length_app. simpl. lia. }
    destruct (IH _ _ Hrest Hl' Hoff1')
      as (Hoff' & [extra Hext] & Hlen' & Hframe' & Hgood').
    split_and!.
    + done.
    + exists ((c ++ [0]) ++ extra). rewrite Hext, Hdata. by rewrite <- !(assoc_L (++)).
    + congruence.
    + intros x b Hown Hb. rewrite (Hframe' x b Hown) by (simpl in Hb; lia).
      apply Hframe1. rewrite Hown. intros [= ->]. simpl in Hb. lia.
    + intros x b Hown Hb Hnone. destruct (decide (b = k)) as [->|Hne].
      2: { apply (Hgood' x b Hown); [simpl in Hb; lia|done]. }
      pose proof (Hframe' x k Hown ltac:(lia)) as Hsame.
      unfold owner in Hown.
      destruct (str_remapping !! x) as [[[b' off]|]|] eqn:Hx; [| |done].
      * injection Hown as ->.
        destruct (Hone x k off Hx) as (_ & sa & sb & ca & pre & Hsa & Hsb & Hca & Hcb & ->).
        assert (sb = s) as -> by congruence.
        assert (c = pre ++ ca) as -> by congruence.
        exists sa, ca, (offset w + Z.of_nat (length pre)). split_and!; [done|done| | |].
        -- rewrite Hsame. apply (Habs x _ Hx). done.
        -- rewrite Hext, Hdata. apply placed_app. by apply placed_end.
        -- intros b off Heq. simplify_eq.
           rewrite (Hframe' k k) by (unfold owner; rewrite ?Hk; done || lia).
           rewrite Hat. f_equal. lia.
      * injection Hown as ->.
        exists s, c, (offset w). split_and!; [done|done|congruence| |intros; congruence].
        rewrite Hext, Hdata. apply placed_app.
        rewrite <- (Z.add_0_r (offset w)).
        apply (placed_end _ [] c). done.
Qed.

(** ** The string table: remapping, array and offsets *)

Lemma suffix_remapping_of_scan (symbol_conversion_table : gmap N bytes)
    (str_table : list str) (table : list entry)
    (str_remapping : list (option RemappedTranslationItem)) :
  backward_sorted_table symbol_conversion_table str_table = Ok table ->
  suffix_merge table (length str_table) = Ok str_remapping ->
  length str_remapping = length str_table /\
  suffix_remapping symbol_conversion_table str_table str_remapping.
Proof.
  intros (Hlen & Hnd & Hent & _)%backward_sorted_table_Ok Hscan.
  apply suffix_merge_Ok in Hscan as [Hrlen Habs]; [|done|].
  2: { intros [[i s] r] Hin. destruct (Hent i s r Hin) as [Hs _].
       by apply lookup_lt_Some in Hs. }
  split; [done|]. intros a b off Hab.
  destruct (Habs a b off Hab)
    as ([[a' sa] ra] & [[b' sb] rb] & Hea & Heb & Ha & Hb & Hpre & -> & Hnone).
  simpl in *. subst a' b'. split; [done|].
  destruct (Hent a sa ra Hea) as (Hsa & ca & Hca & ->).
  destruct (Hent b sb rb Heb) as (Hsb & cb & Hcb & ->).
  apply startswith_spec in Hpre as (rest & Hrest).
  assert (Hcb' : cb = reverse rest ++ ca).
  { rewrite <- (reverse_involutive cb), Hrest, reverse_app.
    by rewrite reverse_involutive. }
  exists sa, sb, ca, (reverse rest). split_and!; [done|done|done|congruence|].
  rewrite Hrest, length_app, !length_reverse. lia.
Qed.

(** The scan completes, for instance, when every string is converted and
    the last item of the sorted table continues no other item. *)
Lemma scan_completes_if (symbol_conversion_table : gmap N bytes)
    (str_table : list str) (table : list entry) :
  backward_sorted_table symbol_conversion_table str_table = Ok table ->
  (forall i e stop, table !! i = Some e -> (S i < length table)%nat ->
     last table = Some stop -> startswith stop.2 e.2 = false) ->
  scan_completes symbol_conversion_table str_table.
Proof.
  intros Htable Hlast.
  apply backward_sorted_table_Ok in Htable as Hent. destruct Hent as (_ & _ & Hent & _).
  destruct (suffix_merge_total table (length str_table)) as [remapping Hscan]; [|done|].
  - intros [[i s] r] Hin. destruct (Hent i s r Hin) as [Hs _]. by apply lookup_lt_Some in Hs.
  - by exists table, remapping.
Qed.

(** What a successful run of the suffix merging and of the writing loop
    went through. *)
Lemma get_translation_strings_and_indices_Ok
    (symbol_conversion_table : gmap N bytes) (str_table : list str)
    (str_remapping : list (option RemappedTranslationItem))
    (blob : bytes) (offsets : list Z) :
  get_translation_strings_and_indices symbol_conversion_table str_table
    = Ok (str_remapping, blob, offsets) ->
  length str_remapping = length str_table /\
  suffix_remapping symbol_conversion_table str_table str_remapping /\
  exists w, blob = TranslationStringsData w /\ offsets = str_offsets w /\
    forall x, (x < length str_table)%nat ->
      string_placed symbol_conversion_table str_table str_remapping w x.
Proof.
  unfold get_translation_strings_and_indices. intros H.
  apply bind_Ok in H as (table & Htable & H).
  apply bind_Ok in H as (remapping & Hscan & H).
  apply bind_Ok in H as (w & Hwrite & H). injection H as <- <- <-.
  destruct (suffix_remapping_of_scan _ _ _ _ Htable Hscan) as [Hlen Hone].
  split; [done|]. split; [done|]. exists w. split; [done|]. split; [done|].
  unfold enumerate in Hwrite.
  apply (write_strings_Ok _ str_table _ _ _ _ _ Hone) in Hwrite
    as (_ & _ & _ & _ & Hgood); [|done|done].
  intros x Hx.
  destruct (lookup_lt_is_Some_2 remapping x ltac:(lia)) as [[[b off]|] Hr].
  - destruct (Hone x b off Hr) as (Hb & _ & sb & _ & _ & _ & Hsb & _).
    apply (Hgood x b); [unfold owner; by rewrite Hr| |done].
    apply lookup_lt_Some in Hsb. simpl. lia.
  - apply (Hgood x x); [unfold owner; by rewrite Hr| |done]. simpl. lia.
Qed.

(** The writing loop raises nothing once the scan has completed. *)
Lemma record_offsets_total (str_remapping : list (option RemappedTranslationItem))
    (i : nat) (o : Z) (js : list nat) (offs : list Z) :
  length offs = length str_remapping ->
  (i < length offs)%nat ->
  (forall j, j ∈ js -> j = i \/ exists r, str_remapping !! j = Some (Some r)) ->
  is_Ok (for_each (record_offset str_remapping i o) js offs).
Proof.
  revert offs. induction js as [|j js IH]; intros offs Hlen Hi Hjs; cbn [for_each].
  { by eexists. }
  assert (Hstep : exists v, record_offset str_remapping i o j offs = Ok (<[j := v]> offs)).
  { unfold record_offset, list_set, list_get. destruct (decide (j = i)) as [->|Hne].
    - rewrite decide_True by done. by eexists.
    - destruct (Hjs j) as [?|(r & Hr)]; [by left|done|].
      rewrite Hr. cbn [bind]. apply lookup_lt_Some in Hr.
      rewrite decide_True by lia. by eexists. }
  destruct Hstep as (v & ->). cbn [bind]. apply IH.
  - by rewrite length_insert.
  - by rewrite length_insert.
  - intros j' Hj'. apply Hjs. by right.
Qed.

Lemma write_strings_total (symbol_conversion_table : gmap N bytes)
    (str_table : list str)
    (str_remapping : list (option RemappedTranslationItem))
    (k : nat) (l : list str) (w : writer) :
  length str_remapping = length str_table ->
  (forall p s, l !! p = Some s ->
     (k + p < length str_table)%nat /\
     is_Ok (convert_string_bytes symbol_conversion_table s)) ->
  length (str_offsets w) = length str_table ->
  is_Ok (for_each (write_string symbol_conversion_table str_remapping)
           (enumerate_from k l) w).
Proof.
  intros Hrlen. revert k w.
  induction l as [|s l IH]; intros k w Hl Hlen; cbn [enumerate_from for_each].
  { by eexists. }
  destruct (Hl 0%nat s eq_refl) as [Hk [c Hc]]. rewrite Nat.add_0_r in Hk.
  assert (Hstep : exists w1,
    write_string symbol_conversion_table str_remapping (k, s) w = Ok w1 /\
    length (str_offsets w1) = length str_table).
  { unfold write_string, list_get.
    destruct (lookup_lt_is_Some_2 str_remapping k ltac:(lia)) as [[r|] Hr];
      rewrite Hr; cbn [bind]; [by eexists|].
    destruct (record_offsets_total str_remapping k (offset w)
                (str_used_by str_remapping k) (str_offsets w)) as [offs1 Hrec].
    - congruence.
    - lia.
    - intros j [->|(r & Hr' & _)]%elem_of_str_used_by; [by left|right; by exists r].
    - rewrite Hrec, Hc. cbn [bind].
      apply record_offsets_Ok in Hrec as (Hlen1 & _).
      unfold list_set. rewrite decide_True by lia. cbn [bind].
      eexists. split; [done|]. simpl. rewrite length_insert. congruence. }
  destruct Hstep as (w1 & -> & Hlen1). cbn [bind]. apply IH; [|done].
  intros p s' Hp. destruct (Hl (S p) s' Hp). split; [lia|done].
Qed.

Lemma scan_completes_run (symbol_conversion_table : gmap N bytes)
    (str_table : list str) :
  scan_completes symbol_conversion_table str_table ->
  exists str_remapping blob offsets,
    get_translation_strings_and_indices symbol_conversion_table str_table
      = Ok (str_remapping, blob, offsets).
Proof.
  intros (table & remapping & Htable & Hscan).
  destruct (suffix_remapping_of_scan _ _ _ _ Htable Hscan) as [Hlen _].
  apply backward_sorted_table_Ok in Htable as Hent.
  destruct Hent as (_ & _ & Hent & Hall).
  destruct (write_strings_total symbol_conversion_table str_table remapping 0 str_table
              (Writer 0 false [] (replicate (length str_table) (-1)))) as [w Hw].
  - done.
  - intros p s Hp. split; [by apply lookup_lt_Some in Hp|].
    destruct (Hall p s Hp) as (r & Hin).
    destruct (Hent p s r Hin) as (_ & c & Hc & _). by exists c.
  - simpl. by rewrite length_replicate.
  - exists remapping, (TranslationStringsData w), (str_offsets w).
    unfold get_translation_strings_and_indices, enumerate.
    rewrite Htable. cbn [bind]. rewrite Hscan. cbn [bind]. by rewrite Hw.
Qed.

Lemma reads_back_run (symbol_conversion_table : gmap N bytes)
    (str_table : list str)
    (str_remapping : list (option RemappedTranslationItem))
    (blob : bytes) (offsets : list Z) :
  (forall c code, symbol_conversion_table !! c = Some code -> 0 ∉ code) ->
  get_translation_strings_and_indices symbol_conversion_table str_table
    = Ok (str_remapping, blob, offsets) ->
  reads_back symbol_conversion_table str_table blob offsets.
Proof.
  intros Htbl Hrun. split.
  { revert Hrun. unfold get_translation_strings_and_indices. intros H.
    apply bind_Ok in H as (table & _ & H).
    apply bind_Ok in H as (remapping & _ & H).
    apply bind_Ok in H as (w & Hwrite & H). injection H as _ _ <-.
    unfold enumerate in Hwrite.
    assert (Hgen : forall l k w0 w1,
      for_each (write_string symbol_conversion_table remapping) (enumerate_from k l) w0
        = Ok w1 -> length (str_offsets w1) = length (str_offsets w0)).
    { induction l as [|s l IH]; intros k w0 w1; cbn [enumerate_from for_each].
      - by intros [= <-].
      - destruct (write_string _ _ (k, s) w0) as [w2|e] eqn:Hstep; cbn [bind]; [|done].
        intros ->%IH.
        apply write_string_Ok in Hstep as [(r & _ & ->)|(_ & c & _ & _ & _ & Hl & _)]; done. }
    rewrite (Hgen _ _ _ _ Hwrite). simpl. by rewrite length_replicate. }
  apply get_translation_strings_and_indices_Ok in Hrun
    as (Hlen & Hone & w & -> & -> & Hgood).
  intros i s Hs.
  destruct (Hgood i) as (s' & converted & o & Hs' & Hconv & Ho & Hpl & _);
    [by apply lookup_lt_Some in Hs|].
  assert (s' = s) as -> by congruence.
  exists o, converted. split_and!; [done|done|].
  apply read_string_placed; [done|]. by eapply convert_string_bytes_no_null.
Qed.

(** C10. When the scan completes, the remapping, the array and the offsets
    are produced and absorption is one level deep: a string that absorbs
    another one is itself not absorbed, so it is written into the array,
    the offset of the absorbed string is the offset of that written string
    plus the start of the suffix, and every offset lookup finds a
    recorded, non-negative offset. *)
Theorem C10_absorption_one_level (symbol_conversion_table : gmap N bytes)
    (str_table : list str) :
  scan_completes symbol_conversion_table str_table ->
  exists str_remapping blob offsets,
    get_translation_strings_and_indices symbol_conversion_table str_table
      = Ok (str_remapping, blob, offsets) /\
    (forall a b off, str_remapping !! a = Some (Some (Remapped b off)) ->
       str_remapping !! b = Some None /\
       exists sb cb ob,
         str_table !! b = Some sb /\
         convert_string_bytes symbol_conversion_table sb = Ok cb /\
         offsets !! b = Some ob /\ placed blob ob cb /\
         offsets !! a = Some (ob + off)) /\
    (forall idx, (idx < length str_table)%nat ->
       exists o, get_offset offsets idx = Ok o /\ 0 <= o).
Proof.
  intros (remapping & blob & offsets & Hrun)%scan_completes_run.
  exists remapping, blob, offsets. split; [done|].
  apply get_translation_strings_and_indices_Ok in Hrun
    as (Hlen & Hone & w & -> & -> & Hgood).
  split.
  - intros a b off Hab. destruct (Hone a b off Hab) as (Hb & sa & sb & _ & _ & Hsa & Hsb & _).
    split; [done|].
    destruct (Hgood a) as (_ & _ & oa & _ & _ & Hoa & _ & Hrel);
      [by apply lookup_lt_Some in Hsa|].
    destruct (Hgood b) as (sb' & cb & ob & Hsb' & Hcb & Hob & Hpl & _);
      [by apply lookup_lt_Some in Hsb|].
    exists sb', cb, ob. split_and!; [done..|].
    rewrite (Hrel b off Hab) in Hob. injection Hob as <-. rewrite Hoa. f_equal. lia.
  - intros idx Hidx. destruct (Hgood idx Hidx) as (_ & _ & o & _ & _ & Ho & [Hpos _] & _).
    exists o. split; [|done]. unfold get_offset, list_get. rewrite Ho. cbn [bind].
    destruct (Z.geb_spec o 0); [done|lia].
Qed.

(** Apart from the runs in which the scan raises, the string table is
    right: when no byte code of the table contains a zero byte (the codec
    hands out none), every string is converted without error and the scan
    completes, the array and the offsets are produced and every string is
    read back from the array, the bytes from its offset up to the next
    zero byte being its converted bytes. *)
Lemma compaction_reads_back (symbol_conversion_table : gmap N bytes)
    (str_table : list str) :
  (forall c code, symbol_conversion_table !! c = Some code -> 0 ∉ code) ->
  scan_completes symbol_conversion_table str_table ->
  exists str_remapping blob offsets,
    get_translation_strings_and_indices symbol_conversion_table str_table
      = Ok (str_remapping, blob, offsets) /\
    reads_back symbol_conversion_table str_table blob offsets.
Proof.
  intros Htbl (remapping & blob & offsets & Hrun)%scan_completes_run.
  exists remapping, blob, offsets. split; [done|]. by eapply reads_back_run.
Qed.

Lemma scenario_scan_completes : scan_completes ascii_letters_table scenario_strings.
Proof.
  exists (match backward_sorted_table ascii_letters_table scenario_strings with
          | Ok table => table
          | Raise _ => []
          end), [Some (Remapped 1 2); None; None].
  split; vm_compute; reflexivity.
Qed.

Lemma ascii_letters_table_no_null (c : char) (code : bytes) :
  ascii_letters_table !! c = Some code -> 0 ∉ code.
Proof.
  unfold ascii_letters_table. intros Hc%elem_of_list_to_map_2.
  apply list_elem_of_fmap in Hc as (z & [= -> ->] & Hz).
  apply elem_of_seqZ in Hz. intros [?|[]%elem_of_nil]%elem_of_cons. lia.
Qed.

Lemma C10_absorption_one_level_witness :
  exists str_remapping blob offsets,
    get_translation_strings_and_indices ascii_letters_table scenario_strings
      = Ok (str_remapping, blob, offsets) /\
    (forall a b off, str_remapping !! a = Some (Some (Remapped b off)) ->
       str_remapping !! b = Some None /\
       exists sb cb ob,
         scenario_strings !! b = Some sb /\
         convert_string_bytes ascii_letters_table sb = Ok cb /\
         offsets !! b = Some ob /\ placed blob ob cb /\
         offsets !! a = Some (ob + off)) /\
    (forall idx, (idx < length scenario_strings)%nat ->
       exists o, get_offset offsets idx = Ok o /\ 0 <= o).
Proof.
  apply (C10_absorption_one_level ascii_letters_table scenario_strings).
  apply scenario_scan_completes.
Defined.

Example scenario_reads_back :
  exists str_remapping blob offsets,
    get_translation_strings_and_indices ascii_letters_table scenario_strings
      = Ok (str_remapping, blob, offsets) /\
    reads_back ascii_letters_table scenario_strings blob offsets.
Proof.
  apply (compaction_reads_back ascii_letters_table scenario_strings).
  - apply ascii_letters_table_no_null.
  - apply scenario_scan_completes.
Qed.

(** The assumption on the byte codes is needed: with a zero byte in a
    byte code the string is converted and written, and reading at its
    offset stops at once. *)
Lemma null_code_not_read_back :
  get_translation_strings_and_indices null_code_table [str_of_string "a"]
    = Ok ([None], [0; 0], [0]) /\
  convert_string_bytes null_code_table (str_of_string "a") = Ok [0] /\
  read_string [0; 0] 0 = Some [].
Proof. split_and!; vm_compute; reflexivity. Qed.

(** C1, where the script fails it. With the three strings of the comment
    on the sorting, ["ef"], ["cdef"], ["abcdef"], and with a table that
    holds an empty string, every string is converted without error, and
    the scan runs past the end of the sorted table: [IndexError] is raised
    and neither the array nor the offsets are produced. *)
Theorem C1_scan_raises_IndexError :
  (forall s, s ∈ comment_strings ->
     is_Ok (convert_string_bytes ascii_letters_table s)) /\
  get_translation_strings_and_indices ascii_letters_table comment_strings
    = Raise IndexError /\
  ~ compaction_correct ascii_letters_table comment_strings /\
  get_translation_strings_and_indices ascii_letters_table
    (str_of_string <$> [""; "ab"]) = Raise IndexError.
Proof.
  assert (Hconv : forall s, s ∈ comment_strings ->
            is_Ok (convert_string_bytes ascii_letters_table s)).
  { intros s Hs. unfold comment_strings in Hs. simpl in Hs.
    repeat (apply elem_of_cons in Hs as [->|Hs]; [vm_compute; by eexists|]).
    by apply elem_of_nil in Hs. }
  assert (Hcomment : get_translation_strings_and_indices ascii_letters_table comment_strings
                     = Raise IndexError) by (vm_compute; reflexivity).
  split_and!; [done|done| |vm_compute; reflexivity].
  intros Hclaim. destruct (Hclaim Hconv) as (remapping & blob & offsets & Hrun & _).
  rewrite Hcomment in Hrun. discriminate.
Qed.

(** * Further properties of the script *)

(** ** The byte codes of the symbol table *)

Lemma get_bytes_from_font_index_inj (o1 o2 : Z) (code : bytes) :
  get_bytes_from_font_index o1 = Ok code ->
  get_bytes_from_font_index o2 = Ok code ->
  o1 = o2.
Proof.
  intros H1 H2.
  assert (R1 : 0 <= o1 < MAX_FONT_INDEX)
    by (apply get_bytes_from_font_index_Ok; by eexists).
  assert (R2 : 0 <= o2 < MAX_FONT_INDEX)
    by (apply get_bytes_from_font_index_Ok; by eexists).
  destruct (Z.le_gt_cases o1 240), (Z.le_gt_cases o2 240).
  - rewrite get_bytes_from_font_index_single in H1, H2 by lia. congruence.
  - rewrite get_bytes_from_font_index_single in H1 by lia.
    rewrite get_bytes_from_font_index_double in H2 by lia. congruence.
  - rewrite get_bytes_from_font_index_double in H1 by lia.
    rewrite get_bytes_from_font_index_single in H2 by lia. congruence.
  - rewrite get_bytes_from_font_index_double in H1, H2 by lia.
    assert (Hq : (o1 + 14) `div` 255 = (o2 + 14) `div` 255) by (simplify_eq; lia).
    assert (Hr : (o1 + 14) `mod` 255 = (o2 + 14) `mod` 255) by (simplify_eq; lia).
    pose proof (Z.div_mod (o1 + 14) 255 ltac:(lia)).
    pose proof (Z.div_mod (o2 + 14) 255 ltac:(lia)). lia.
Qed.

(** The bytes of a code of an index from 1 on are between [0x01] and
    [0xFF], and there are one or two of them. *)
Lemma get_bytes_from_font_index_bytes (o : Z) (code : bytes) :
  1 <= o -> get_bytes_from_font_index o = Ok code ->
  Forall (fun b => 1 <= b <= 255) code /\
  (length code = 1%nat \/ length code = 2%nat).
Proof.
  intros Ho Hcode.
  assert (R : 0 <= o < MAX_FONT_INDEX)
    by (apply get_bytes_from_font_index_Ok; by eexists).
  destruct (Z.le_gt_cases o 240).
  - rewrite get_bytes_from_font_index_single in Hcode by lia. injection Hcode as <-.
    split; [|by left]. repeat constructor; lia.
  - rewrite get_bytes_from_font_index_double in Hcode by lia. injection Hcode as <-.
    unfold MAX_FONT_INDEX in R.
    pose proof (Z.mod_pos_bound (o + 14) 255 ltac:(lia)).
    assert (1 <= (o + 14) `div` 255) by (apply Z.div_le_lower_bound; lia).
    assert ((o + 14) `div` 255 < 16) by (apply Z.div_lt_upper_bound; lia).
    split; [|by right]. repeat constructor; lia.
Qed.

Lemma assign_symbol_bytes_dom (sym_list : list char) (index : nat)
    (m0 m : gmap N bytes) (s : char) (code : bytes) :
  assign_symbol_bytes sym_list index m0 = Ok m ->
  m !! s = Some code ->
  m0 !! s = Some code \/
  exists p, sym_list !! p = Some s /\
            get_bytes_from_font_index (Z.of_nat (index + p)) = Ok code.
Proof.
  unfold assign_symbol_bytes. revert index m0.
  induction sym_list as [|sym l IH]; intros index m0; cbn [enumerate_from for_each].
  { intros [= <-] ?. by left. }
  destruct (decide (is_Some (m0 !! sym))) as [|Hfresh]; [done|].
  destruct (get_bytes_from_font_index (Z.of_nat index)) as [c|e] eqn:Hc;
    cbn [bind]; [|done].
  intros Hrest Hs. destruct (IH _ _ Hrest Hs) as [Hin | (p & Hp & Hcode)].
  - destruct (decide (sym = s)) as [->|Hne].
    + rewrite lookup_insert_eq in Hin. injection Hin as <-. right. exists 0%nat.
      by rewrite Nat.add_0_r.
    + rewrite lookup_insert_ne in Hin by done. by left.
  - right. exists (S p). split; [done|]. by rewrite Nat.add_succ_r.
Qed.

Section symbol_table.

Context (ft : font_tables) (cjk_font : gmap N Glyph).
Context (text_list : list char) (fonts : list string).
Context (sym_list : list char) (font_map : FontMap) (symbol_map : gmap N bytes).
Hypothesis Hrun :
  get_font_map_and_table ft cjk_font text_list fonts = Ok (sym_list, font_map, symbol_map).

Lemma symbol_map_lookup (s : char) (code : bytes) :
  symbol_map !! s = Some code <->
  (s = LF /\ code = [1]) \/
  (exists p : nat, sym_list !! p = Some s /\
                   get_bytes_from_font_index (Z.of_nat p + 2) = Ok code).
Proof.
  destruct (get_font_map_and_table_Ok _ _ _ _ _ _ _ Hrun)
    as (font_maps & both & large & _ & _ & _ & Hlist & Hassign).
  pose proof (assign_symbol_bytes_Ok _ _ _ _ Hassign) as (Hkeep & Hpos & _).
  split.
  - intros Hs. destruct (assign_symbol_bytes_dom _ _ _ _ _ _ Hassign Hs)
      as [Hin | (p & Hp & Hcode)].
    + left. apply lookup_singleton_Some in Hin as [<- <-]. done.
    + right. exists p. split; [done|].
      by replace (Z.of_nat (2 + p)) with (Z.of_nat p + 2) in Hcode by lia.
  - intros [[-> ->] | (p & Hp & Hcode)].
    + apply Hkeep, lookup_singleton_eq.
    + destruct (Hpos p s Hp) as (c & Hc & Hs). rewrite Hs.
      replace (Z.of_nat (2 + p)) with (Z.of_nat p + 2) in Hc by lia. congruence.
Qed.

Lemma sym_list_NoDup : NoDup sym_list /\ LF ∉ sym_list.
Proof.
  destruct (get_font_map_and_table_Ok _ _ _ _ _ _ _ Hrun)
    as (font_maps & both & large & _ & _ & _ & Hlist & Hassign).
  pose proof (assign_symbol_bytes_Ok _ _ _ _ Hassign) as (_ & _ & Hfresh & Hnd).
  split; [done|]. intros Hin. apply Hfresh in Hin. by rewrite lookup_singleton_eq in Hin.
Qed.

End symbol_table.

(** Every entry of the symbol table is the code of an index from 1 on:
    index 1 for the newline, index [p + 2] for the symbol at position [p]
    of the symbol list. *)
Lemma symbol_map_index (ft : font_tables) (cjk_font : gmap N Glyph)
    (text_list : list char) (fonts : list string)
    (sym_list : list char) (font_map : FontMap) (symbol_map : gmap N bytes)
    (s : char) (code : bytes) :
  get_font_map_and_table ft cjk_font text_list fonts = Ok (sym_list, font_map, symbol_map) ->
  symbol_map !! s = Some code ->
  exists k : Z, 1 <= k /\ get_bytes_from_font_index k = Ok code /\
    (k = 1 /\ s = LF \/ exists p : nat, k = Z.of_nat p + 2 /\ sym_list !! p = Some s).
Proof.
  intros Hrun Hs.
  apply (symbol_map_lookup _ _ _ _ _ _ _ Hrun) in Hs as [[-> ->] | (p & Hp & Hcode)].
  - exists 1. split_and!; [lia|by rewrite get_bytes_from_font_index_single by lia|by left].
  - exists (Z.of_nat p + 2). split_and!; [lia|done|]. right. by exists p.
Qed.

Lemma get_bytes_from_font_index_prefix (o1 o2 : Z) (c1 c2 : bytes) :
  get_bytes_from_font_index o1 = Ok c1 ->
  get_bytes_from_font_index o2 = Ok c2 ->
  c1 `prefix_of` c2 -> o1 = o2.
Proof.
  intros H1 H2 [k Hk].
  assert (R1 : 0 <= o1 < MAX_FONT_INDEX)
    by (apply get_bytes_from_font_index_Ok; by eexists).
  assert (R2 : 0 <= o2 < MAX_FONT_INDEX)
    by (apply get_bytes_from_font_index_Ok; by eexists).
  destruct (Z.le_gt_cases o1 240), (Z.le_gt_cases o2 240).
  - rewrite get_bytes_from_font_index_single in H1, H2 by lia. simplify_eq/=. done.
  - rewrite get_bytes_from_font_index_single in H1 by lia.
    rewrite get_bytes_from_font_index_double in H2 by lia.
    unfold MAX_FONT_INDEX in R2.
    assert (1 <= (o2 + 14) `div` 255) by (apply Z.div_le_lower_bound; lia).
    simplify_eq/=. lia.
  - rewrite get_bytes_from_font_index_double in H1 by lia.
    rewrite get_bytes_from_font_index_single in H2 by lia. simplify_eq/=.
  - apply (get_bytes_from_font_index_inj o1 o2 c2); [|done].
    rewrite get_bytes_from_font_index_double in H1, H2 by lia.
    rewrite get_bytes_from_font_index_double by lia. simplify_eq/=. done.
Qed.

Lemma symbol_map_prefix_free (ft : font_tables) (cjk_font : gmap N Glyph)
    (text_list : list char) (fonts : list string)
    (sym_list : list char) (font_map : FontMap) (symbol_map : gmap N bytes)
    (s1 s2 : char) (c1 c2 : bytes) :
  get_font_map_and_table ft cjk_font text_list fonts = Ok (sym_list, font_map, symbol_map) ->
  symbol_map !! s1 = Some c1 -> symbol_map !! s2 = Some c2 ->
  c1 `prefix_of` c2 -> s1 = s2.
Proof.
  intros Hrun H1 H2 Hpre.
  destruct (symbol_map_index _ _ _ _ _ _ _ _ _ Hrun H1) as (k1 & _ & Hc1 & Hk1).
  destruct (symbol_map_index _ _ _ _ _ _ _ _ _ Hrun H2) as (k2 & _ & Hc2 & Hk2).
  pose proof (get_bytes_from_font_index_prefix _ _ _ _ Hc1 Hc2 Hpre) as Heq.
  destruct Hk1 as [[-> ->] | (p1 & -> & Hp1)], Hk2 as [[-> ->] | (p2 & -> & Hp2)];
    [done|lia|lia|].
  assert (p1 = p2) as -> by lia. congruence.
Qed.

Lemma symbol_map_bytes (ft : font_tables) (cjk_font : gmap N Glyph)
    (text_list : list char) (fonts : list string)
    (sym_list : list char) (font_map : FontMap) (symbol_map : gmap N bytes)
    (s : char) (code : bytes) :
  get_font_map_and_table ft cjk_font text_list fonts = Ok (sym_list, font_map, symbol_map) ->
  symbol_map !! s = Some code ->
  Forall (fun b => 1 <= b <= 255) code /\
  (length code = 1%nat \/ length code = 2%nat).
Proof.
  intros Hrun Hs.
  destruct (symbol_map_index _ _ _ _ _ _ _ _ _ Hrun Hs) as (k & Hk & Hc & _).
  by apply (get_bytes_from_font_index_bytes k).
Qed.

Lemma symbol_map_no_null (ft : font_tables) (cjk_font : gmap N Glyph)
    (text_list : list char) (fonts : list string)
    (sym_list : list char) (font_map : FontMap) (symbol_map : gmap N bytes)
    (s : char) (code : bytes) :
  get_font_map_and_table ft cjk_font text_list fonts = Ok (sym_list, font_map, symbol_map) ->
  symbol_map !! s = Some code -> 0 ∉ code.
Proof.
  intros Hrun Hs Hin.
  destruct (symbol_map_bytes _ _ _ _ _ _ _ _ _ Hrun Hs) as [Hall _].
  rewrite Forall_forall in Hall. apply Hall in Hin. lia.
Qed.

(** ** Conversion with a table of codes *)

Lemma convert_loop (symbol_conversion_table : gmap N bytes) (l : str)
    (acc out : bytes) :
  for_each (fun c output_string =>
      match symbol_conversion_table !! c with
      | None => Raise (SystemExit 1)
      | Some code => Ok (output_string ++ code)
      end) l acc = Ok out <->
  exists codes, Forall2 (fun c code => symbol_conversion_table !! c = Some code) l codes /\
                out = acc ++ concat codes.
Proof.
  revert acc. induction l as [|c l IH]; intros acc; cbn [for_each].
  - split.
    + intros [= <-]. exists []. split; [constructor|]. by rewrite app_nil_r.
    + intros (codes & ->%Forall2_nil_inv_l & ->). by rewrite app_nil_r.
  - destruct (symbol_conversion_table !! c) as [code|] eqn:Hc; cbn [bind].
    + rewrite IH. split.
      * intros (codes & Hall & ->). exists (code :: codes).
        split; [by constructor|]. simpl. by rewrite (assoc_L (++)).
      * intros (codes & Hall & ->).
        apply Forall2_cons_inv_l in Hall as (code' & codes' & Hc' & Hall & ->).
        exists codes'. split; [done|]. simpl. rewrite (assoc_L (++)). congruence.
    + split; [done|]. intros (codes & Hall & _).
      apply Forall2_cons_inv_l in Hall as (code' & codes' & Hc' & _). congruence.
Qed.

Lemma prefix_free_decode (symbol_conversion_table : gmap N bytes) :
  (forall c code, symbol_conversion_table !! c = Some code -> code <> []) ->
  (forall c1 c2 k1 k2, symbol_conversion_table !! c1 = Some k1 ->
     symbol_conversion_table !! c2 = Some k2 -> k1 `prefix_of` k2 -> c1 = c2) ->
  forall (l1 l2 : str) (cs1 cs2 : list bytes),
    Forall2 (fun c code => symbol_conversion_table !! c = Some code) l1 cs1 ->
    Forall2 (fun c code => symbol_conversion_table !! c = Some code) l2 cs2 ->
    concat cs1 = concat cs2 -> l1 = l2.
Proof.
  intros Hne Hpf l1 l2 cs1 cs2 H1. revert l2 cs2.
  induction H1 as [|c1 k1 l1 cs1 Hc1 H1 IH]; intros l2 cs2 H2 Heq.
  - destruct H2 as [|c2 k2 l2 cs2 Hc2 H2]; [done|]. simpl in Heq.
    symmetry in Heq. apply app_eq_nil in Heq as [-> _]. by apply Hne in Hc2.
  - destruct H2 as [|c2 k2 l2 cs2 Hc2 H2]; simpl in Heq.
    { apply app_eq_nil in Heq as [-> _]. by apply Hne in Hc1. }
    assert (c1 = c2) as ->.
    { apply app_eq_inv in Heq as [(k & -> & _) | (k & -> & _)].
      - symmetry. apply (Hpf _ _ _ _ Hc2 Hc1). by exists k.
      - apply (Hpf _ _ _ _ Hc1 Hc2). by exists k. }
    assert (k1 = k2) as -> by congruence.
    apply app_inv_head in Heq. f_equal. by apply (IH l2 cs2).
Qed.

(** X1. In the symbol table that the builder returns the keys are the
    newline and the symbols of the symbol list, and nothing else: the
    newline has the code [0x01] and the symbol at position [p] of the
    list has the code of the index [p + 2]. *)
Theorem symbol_table_codes (ft : font_tables) (cjk_font : gmap N Glyph)
    (text_list : list char) (fonts : list string)
    (sym_list : list char) (font_map : FontMap) (symbol_map : gmap N bytes) :
  get_font_map_and_table ft cjk_font text_list fonts = Ok (sym_list, font_map, symbol_map) ->
  NoDup sym_list /\ (LF ∉ sym_list) /\
  forall (s : char) (code : bytes),
    symbol_map !! s = Some code <->
    (s = LF /\ code = [1]) \/
    (exists p : nat, sym_list !! p = Some s /\
                     get_bytes_from_font_index (Z.of_nat p + 2) = Ok code).
Proof.
  intros Hrun. destruct (sym_list_NoDup _ _ _ _ _ _ _ Hrun) as [Hnd Hlf].
  split_and!; [done|done|]. intros s code. by apply (symbol_map_lookup _ _ _ _ _ _ _ Hrun).
Qed.

Lemma symbol_table_codes_witness :
  NoDup sample_table.1.1 /\ (LF ∉ sample_table.1.1) /\
  forall (s : char) (code : bytes),
    sample_table.2 !! s = Some code <->
    (s = LF /\ code = [1]) \/
    (exists p : nat, sample_table.1.1 !! p = Some s /\
                     get_bytes_from_font_index (Z.of_nat p + 2) = Ok code).
Proof.
  apply (symbol_table_codes sample_font_tables sample_cjk_font
           sample_text_list sample_fonts _ sample_table.1.2).
  apply sample_table_Ok.
Defined.

(** X2. The codes of the symbol table that the builder returns have one
    or two bytes, none of them zero, and no code is the beginning of the
    code of another symbol; in particular different symbols have
    different codes. *)
Theorem symbol_table_codes_prefix_free (ft : font_tables) (cjk_font : gmap N Glyph)
    (text_list : list char) (fonts : list string)
    (sym_list : list char) (font_map : FontMap) (symbol_map : gmap N bytes) :
  get_font_map_and_table ft cjk_font text_list fonts = Ok (sym_list, font_map, symbol_map) ->
  (forall (s : char) (code : bytes), symbol_map !! s = Some code ->
     Forall (fun b => 1 <= b <= 255) code /\
     (length code = 1%nat \/ length code = 2%nat)) /\
  (forall (s1 s2 : char) (c1 c2 : bytes),
     symbol_map !! s1 = Some c1 -> symbol_map !! s2 = Some c2 ->
     c1 `prefix_of` c2 -> s1 = s2).
Proof.
  intros Hrun. split.
  - intros s code. by apply (symbol_map_bytes _ _ _ _ _ _ _ _ _ Hrun).
  - intros s1 s2 c1 c2. by apply (symbol_map_prefix_free _ _ _ _ _ _ _ _ _ _ _ Hrun).
Qed.

Lemma symbol_table_codes_prefix_free_witness :
  (forall (s : char) (code : bytes), sample_table.2 !! s = Some code ->
     Forall (fun b => 1 <= b <= 255) code /\
     (length code = 1%nat \/ length code = 2%nat)) /\
  (forall (s1 s2 : char) (c1 c2 : bytes),
     sample_table.2 !! s1 = Some c1 -> sample_table.2 !! s2 = Some c2 ->
     c1 `prefix_of` c2 -> s1 = s2).
Proof.
  apply (symbol_table_codes_prefix_free sample_font_tables sample_cjk_font
           sample_text_list sample_fonts sample_table.1.1 sample_table.1.2).
  apply sample_table_Ok.
Defined.

(** X3. With the symbol table that the builder returns the converted
    bytes determine the text: two texts with the same converted bytes are
    the same once their escapes are replaced. *)
Theorem conversion_uniquely_decodable (ft : font_tables) (cjk_font : gmap N Glyph)
    (text_list : list char) (fonts : list string)
    (sym_list : list char) (font_map : FontMap) (symbol_map : gmap N bytes)
    (text1 text2 : str) (converted : bytes) :
  get_font_map_and_table ft cjk_font text_list fonts = Ok (sym_list, font_map, symbol_map) ->
  convert_string_bytes symbol_map text1 = Ok converted ->
  convert_string_bytes symbol_map text2 = Ok converted ->
  replace2 BACKSLASH 110%N [LF] (replace2 BACKSLASH 114%N [] text1)
    = replace2 BACKSLASH 110%N [LF] (replace2 BACKSLASH 114%N [] text2).
Proof.
  intros Hrun H1 H2. unfold convert_string_bytes in H1, H2.
  apply convert_loop in H1 as (cs1 & Hall1 & ->).
  apply convert_loop in H2 as (cs2 & Hall2 & Heq).
  apply (prefix_free_decode symbol_map) with cs1 cs2; [| |done|done|done].
  - intros c code Hc ->.
    destruct (symbol_map_bytes _ _ _ _ _ _ _ _ _ Hrun Hc) as [_ [?|?]]; done.
  - intros s1 s2 c1 c2. by apply (symbol_map_prefix_free _ _ _ _ _ _ _ _ _ _ _ Hrun).
Qed.

Lemma conversion_uniquely_decodable_witness :
  convert_string_bytes sample_table.2 (str_of_string "a\rb1") = Ok [12; 13; 3] /\
  convert_string_bytes sample_table.2 (str_of_string "ab1") = Ok [12; 13; 3] /\
  replace2 BACKSLASH 110%N [LF] (replace2 BACKSLASH 114%N [] (str_of_string "a\rb1"))
    = replace2 BACKSLASH 110%N [LF] (replace2 BACKSLASH 114%N [] (str_of_string "ab1")).
Proof.
  assert (H1 : convert_string_bytes sample_table.2 (str_of_string "a\rb1") = Ok [12; 13; 3])
    by (vm_compute; reflexivity).
  assert (H2 : convert_string_bytes sample_table.2 (str_of_string "ab1") = Ok [12; 13; 3])
    by (vm_compute; reflexivity).
  split_and!; [done|done|].
  apply (conversion_uniquely_decodable sample_font_tables sample_cjk_font
           sample_text_list sample_fonts sample_table.1.1 sample_table.1.2
           sample_table.2 _ _ [12; 13; 3]); [apply sample_table_Ok|done|done].
Defined.

(** X4. The table builder and the string table fit together: with the
    symbol table that the builder returns, whenever the suffix merging
    scan completes, the array and the offsets are produced and every
    string is read back from the array, from its offset up to the next
    zero byte. *)
Theorem builder_table_reads_back (ft : font_tables) (cjk_font : gmap N Glyph)
    (text_list : list char) (fonts : list string)
    (sym_list : list char) (font_map : FontMap) (symbol_map : gmap N bytes)
    (str_table : list str) :
  get_font_map_and_table ft cjk_font text_list fonts = Ok (sym_list, font_map, symbol_map) ->
  scan_completes symbol_map str_table ->
  exists str_remapping blob offsets,
    get_translation_strings_and_indices symbol_map str_table
      = Ok (str_remapping, blob, offsets) /\
    reads_back symbol_map str_table blob offsets.
Proof.
  intros Hrun Hscan. apply compaction_reads_back; [|done].
  intros c code. by apply (symbol_map_no_null _ _ _ _ _ _ _ _ _ Hrun).
Qed.

Lemma builder_table_reads_back_witness :
  scan_completes sample_table.2 (str_of_string <$> ["ab"; "1ab"; "bb"]) /\
  exists str_remapping blob offsets,
    get_translation_strings_and_indices sample_table.2 (str_of_string <$> ["ab"; "1ab"; "bb"])
      = Ok (str_remapping, blob, offsets) /\
    reads_back sample_table.2 (str_of_string <$> ["ab"; "1ab"; "bb"]) blob offsets.
Proof.
  assert (Hscan : scan_completes sample_table.2 (str_of_string <$> ["ab"; "1ab"; "bb"])).
  { exists (match backward_sorted_table sample_table.2
                    (str_of_string <$> ["ab"; "1ab"; "bb"]) with
            | Ok table => table
            | Raise _ => []
            end), [Some (Remapped 1 1); None; None].
    split; vm_compute; reflexivity. }
  split; [done|].
  apply (builder_table_reads_back sample_font_tables sample_cjk_font
           sample_text_list sample_fonts sample_table.1.1 sample_table.1.2);
    [apply sample_table_Ok|done].
Defined.

(** ** When the table builder returns, and how it fails *)

(** X5. The table builder returns its tables when the symbols are
    distinct and hold no newline, the candidate list has no more symbols
    than the codec can number, the fonts are distinct names that start
    with the baseline font, every table font is known to [font_tables],
    and every symbol of the candidate list is resolved by a font: a table
    font before the CJK font supplies it, or the CJK font packs its
    glyph. *)
Theorem table_builder_returns (ft : font_tables) (cjk_font : gmap N Glyph)
    (text_list : list char) (fonts : list string) :
  NoDup text_list -> LF ∉ text_list ->
  Z.of_nat (length (candidate_list text_list)) <= MAX_SYMBOL_COUNT ->
  fonts !! 0%nat = Some (NAME_ASCII_BASIC ft) -> NoDup fonts ->
  (forall font, font ∈ fonts -> font <> NAME_CJK ft ->
     is_Ok (get_font_maps_for_name ft font)) ->
  (forall s, s ∈ candidate_list text_list -> covered ft cjk_font fonts s) ->
  is_Ok (get_font_map_and_table ft cjk_font text_list fonts).
Proof. apply get_font_map_and_table_total. Qed.

Lemma table_builder_returns_witness :
  NoDup sample_text_list /\ (LF ∉ sample_text_list) /\
  Z.of_nat (length (candidate_list sample_text_list)) <= MAX_SYMBOL_COUNT /\
  is_Ok (get_font_map_and_table sample_font_tables sample_cjk_font
           sample_text_list sample_fonts).
Proof.
  assert (Hnd : NoDup sample_text_list).
  { apply (bool_decide_unpack _). vm_compute. exact I. }
  assert (Hlf : LF ∉ sample_text_list).
  { apply (bool_decide_unpack _). vm_compute. exact I. }
  assert (Hcount : Z.of_nat (length (candidate_list sample_text_list)) <= MAX_SYMBOL_COUNT).
  { vm_compute. discriminate. }
  split_and!; [done|done|done|].
  apply (table_builder_returns sample_font_tables sample_cjk_font
           sample_text_list sample_fonts); [done|done|done|done| | |].
  - apply (bool_decide_unpack _). vm_compute. exact I.
  - intros font Hf Hne. unfold sample_fonts in Hf.
    apply elem_of_cons in Hf as [->|Hf]; [vm_compute; by eexists|].
    apply elem_of_cons in Hf as [->|Hf]; [done|by apply elem_of_nil in Hf].
  - apply sample_covered.
Defined.

Lemma candidate_list_NoDup_iff (text_list : list char) :
  NoDup (candidate_list text_list) <->
  NoDup (filter (fun x => x ∉ forced_first_symbols) text_list).
Proof.
  unfold candidate_list. rewrite NoDup_app. split.
  - by intros (_ & _ & ?).
  - intros Hnd. split_and!; [apply forced_first_symbols_NoDup| |done].
    intros s Hs [Hnot _]%list_elem_of_filter. done.
Qed.

(** X6. The checks of the table builder come in a fixed order. A symbol
    other than a digit that occurs twice in the symbol list is rejected
    first, whatever the fonts are (repeated digits are dropped before the
    check and go unnoticed); then an empty font list raises [IndexError]
    and a font list that does not start with the baseline font is
    rejected. *)
Theorem table_builder_validation (ft : font_tables) (cjk_font : gmap N Glyph)
    (text_list : list char) (fonts : list string) :
  (~ NoDup (filter (fun x => x ∉ forced_first_symbols) text_list) ->
   get_font_map_and_table ft cjk_font text_list fonts
     = Raise (ValueError msg_duplicated)) /\
  (NoDup (filter (fun x => x ∉ forced_first_symbols) text_list) ->
   (fonts = [] ->
    get_font_map_and_table ft cjk_font text_list fonts = Raise IndexError) /\
   (forall first rest, fonts = first :: rest -> first <> NAME_ASCII_BASIC ft ->
      get_font_map_and_table ft cjk_font text_list fonts
        = Raise (ValueError msg_first_font))).
Proof.
  unfold get_font_map_and_table, get_font_map_per_font. split.
  - intros Hdup. rewrite decide_True; [done|].
    intros Hsize%size_list_to_set_NoDup. by apply Hdup, candidate_list_NoDup_iff.
  - intros Hnd%candidate_list_NoDup_iff.
    rewrite decide_False by (intros H; apply H; by apply size_list_to_set).
    split.
    + by intros ->.
    + intros first rest -> Hne. unfold list_get. simpl.
      by rewrite decide_True by done.
Qed.

Lemma table_builder_validation_witness :
  get_font_map_and_table sample_font_tables sample_cjk_font [97; 98; 97]%N []
    = Raise (ValueError msg_duplicated) /\
  get_font_map_and_table sample_font_tables sample_cjk_font [49; 97; 49]%N []
    = Raise IndexError /\
  get_font_map_and_table sample_font_tables sample_cjk_font [49; 97; 49]%N
      ["cjk"; "ascii_basic"]
    = Raise (ValueError msg_first_font).
Proof.
  split_and!.
  - apply (table_builder_validation sample_font_tables sample_cjk_font [97; 98; 97]%N []).
    intros Hnd. vm_compute in Hnd. apply NoDup_cons in Hnd as [Hin _].
    apply Hin. set_solver.
  - apply (table_builder_validation sample_font_tables sample_cjk_font [49; 97; 49]%N []);
      [|done]. vm_compute. apply NoDup_singleton.
  - apply (table_builder_validation sample_font_tables sample_cjk_font [49; 97; 49]%N
             ["cjk"; "ascii_basic"]) with "cjk" ["ascii_basic"]; [|done|done].
    vm_compute. apply NoDup_singleton.
Defined.

(** *** A symbol that no font supplies *)




(** *** A font named twice *)

(** The dictionaries of a font are replaced when the font comes again:
    what the first turn of the font had recorded for a symbol is lost, and
    a symbol that is no longer pending is recorded by no later font. *)
Lemma resolve_fonts_forgets (ft : font_tables) (cjk_font : gmap N Glyph)
    (text_list : list char) (fonts : list string)
    (maps maps' : FontMapsPerFont) (pend pend' : gset N) (d : char) :
  for_each (resolve_font ft cjk_font text_list) fonts (maps, pend) = Ok (maps', pend') ->
  d ∉ pend ->
  (forall font m, font06_maps maps !! font = Some m -> is_Some (m !! d) -> font ∈ fonts) ->
  forall font m, font06_maps maps' !! font = Some m -> m !! d = None.
Proof.
  revert maps pend. induction fonts as [|f fonts IH]; intros maps pend Hloop Hd Hin.
  { injection Hloop as <- <-. intros font m Hm.
    destruct (m !! d) eqn:Hmd; [|done].
    exfalso. eapply elem_of_nil, (Hin font m Hm). by rewrite Hmd. }
  cbn [for_each] in Hloop. apply bind_Ok in Hloop as ([maps1 pend1] & Hstep & Hloop).
  apply resolve_font_Ok in Hstep as (m12 & m06 & syms & -> & Hsub & Hold & _).
  apply (IH _ _ Hloop).
  - set_solver.
  - simpl. intros font m Hm Hmd.
    destruct (decide (f = font)) as [->|Hne].
    + rewrite lookup_insert_eq in Hm. injection Hm as <-.
      destruct (Hold d) as [H06 _]; [by left|]. rewrite H06 in Hmd. by destruct Hmd.
    + rewrite lookup_insert_ne in Hm by done.
      pose proof (Hin font m Hm Hmd) as [?|?]%elem_of_cons; [congruence|done].
Qed.

(** X8. A font list that names the baseline font a second time makes the
    table builder fail: the second turn of the font replaces the
    dictionaries in which the first turn recorded the digits, no later
    font records them, and the merged font map has no entry for them. *)
Theorem table_builder_repeated_baseline (ft : font_tables) (cjk_font : gmap N Glyph)
    (text_list : list char) (rest : list string) :
  baseline_supplies_digits ft ->
  NAME_ASCII_BASIC ft ∈ rest ->
  ~ is_Ok (get_font_map_and_table ft cjk_font text_list (NAME_ASCII_BASIC ft :: rest)).
Proof.
  intros (Hne & f12 & f06 & Hload & Hdigits) Hrep [[[sym_list font_map] symbol_map] Hrun].
  destruct (get_font_map_and_table_Ok _ _ _ _ _ _ _ Hrun)
    as (font_maps & both & large & Hper & Hmerge & Hsplit & _).
  set (l := candidate_list text_list) in *.
  assert (Hd : 48%N ∈ forced_first_symbols) by (unfold forced_first_symbols; set_solver).
  assert (Hl : 48%N ∈ l) by (apply elem_of_app; by left).
  apply split_by_fonts_Ok in Hsplit as (_ & _ & Hall).
  rewrite Forall_forall in Hall. destruct (Hall _ Hl) as [x Hx].
  unfold merge_font_maps in Hmerge.
  destruct (merge_font_maps_lookup _ _ _ _ _ _ _ _ Hmerge Hx)
    as [Hacc | (font & m & _ & Hm & Hmd)]; [by rewrite lookup_empty in Hacc|].
  apply get_font_map_per_font_Ok in Hper as (_ & _ & _ & Hloop).
  cbn [for_each] in Hloop. apply bind_Ok in Hloop as ([maps1 pend1] & Hstep & Hloop).
  apply resolve_font_Ok in Hstep as (m12 & m06 & syms & -> & _ & _ & _ & Htab & _).
  assert (Hgone : 48%N ∉ pend1).
  { apply (Htab 48%N f12 f06); [done|by apply elem_of_list_to_set| | |].
    - unfold load_font_tables. rewrite decide_False by done. by rewrite Hload.
    - by apply Hdigits.
    - by apply Hdigits. }
  rewrite (resolve_fonts_forgets _ _ _ _ _ _ _ _ 48%N Hloop Hgone) with font m in Hmd;
    [done| |done].
  simpl. intros font' m' Hm' _.
  destruct (decide (NAME_ASCII_BASIC ft = font')) as [<-|Hne']; [done|].
  rewrite lookup_insert_ne in Hm' by done. by rewrite lookup_empty in Hm'.
Qed.

Lemma table_builder_repeated_baseline_witness :
  baseline_supplies_digits sample_font_tables /\
  ~ is_Ok (get_font_map_and_table sample_font_tables sample_cjk_font sample_text_list
             ["ascii_basic"; "cjk"; "ascii_basic"]).
Proof.
  split; [apply sample_baseline_supplies_digits|].
  apply (table_builder_repeated_baseline sample_font_tables sample_cjk_font
           sample_text_list ["cjk"; "ascii_basic"]).
  - apply sample_baseline_supplies_digits.
  - simpl. set_solver.
Defined.

(** ** Where the bitmaps of a symbol come from *)

Section font_provenance.

Context (ft : font_tables) (cjk_font : gmap N Glyph).

Lemma resolve_symbol_lines (tables : option (gmap N bytes * gmap N bytes)) (sym : char)
    (m12 : gmap N bytes) (m06 : gmap N (option bytes)) (syms : list N)
    (pend : gset N) (st' : font_state) :
  resolve_symbol cjk_font tables sym (m12, m06, syms, pend) = Ok st' ->
  st' = (m12, m06, syms, pend) \/
  exists v x,
    st' = (<[sym := v]> m12, <[sym := x]> m06, syms ++ [sym], pend ∖ {[sym]}) /\
    supplied_lines cjk_font tables sym v x.
Proof.
  unfold resolve_symbol. destruct (decide (sym ∉ pend)) as [Hn|Hin].
  { intros [= <-]. by left. }
  destruct tables as [[font12 font06]|]; simpl.
  - destruct (font12 !! sym) as [line12|] eqn:H12; simpl.
    + destruct (font06 !! sym) as [line06|] eqn:H06; simpl.
      * intros [= <-]. right. exists line12, (Some line06). split; [done|].
        split; [done|]. by exists line06.
      * intros [= <-]. by left.
    + intros [= <-]. by left.
  - destruct (get_cjk_glyph cjk_font sym) as [line12|e]; simpl; [|done].
    intros [= <-]. right. by exists line12, None.
Qed.

Lemma resolve_symbols_lines (tables : option (gmap N bytes * gmap N bytes))
    (l : list char) (st st' : font_state) :
  for_each (resolve_symbol cjk_font tables) l st = Ok st' ->
  (forall s, (st.1.1.1 !! s = None /\ st.1.1.2 !! s = None) \/
     exists v x, st.1.1.1 !! s = Some v /\ st.1.1.2 !! s = Some x /\
                 supplied_lines cjk_font tables s v x) ->
  forall s, (st'.1.1.1 !! s = None /\ st'.1.1.2 !! s = None) \/
    exists v x, st'.1.1.1 !! s = Some v /\ st'.1.1.2 !! s = Some x /\
                supplied_lines cjk_font tables s v x.
Proof.
  revert st. induction l as [|sym l IH]; intros st; cbn [for_each].
  { by intros [= <-]. }
  intros (st1 & Hstep & Hrest)%bind_Ok Hinv. apply (IH st1 Hrest).
  destruct st as [[[m12 m06] syms] pend].
  apply resolve_symbol_lines in Hstep as [-> | (v & x & -> & Hsup)]; [done|].
  simpl in *. intros s. destruct (decide (sym = s)) as [<-|Hne].
  - right. exists v, x. by rewrite !lookup_insert_eq.
  - rewrite !lookup_insert_ne by done. apply Hinv.
Qed.

Lemma resolve_font_lines (text_list : list char) (font : string)
    (maps maps' : FontMapsPerFont) (pend pend' : gset N)
    (m12 : gmap N bytes) (m06 : gmap N (option bytes)) :
  resolve_font ft cjk_font text_list font (maps, pend) = Ok (maps', pend') ->
  font12_maps maps' !! font = Some m12 ->
  font06_maps maps' !! font = Some m06 ->
  font_lines_recorded ft cjk_font font m12 m06.
Proof.
  unfold resolve_font. destruct (decide (size pend = 0%nat)) as [Hz|Hnz].
  { intros [= <- <-]. simpl. rewrite !lookup_insert_eq. intros [= <-] [= <-] s.
    left. by rewrite !lookup_empty. }
  destruct (load_font_tables ft font) as [tables|e] eqn:Hload; cbn [bind]; [|done].
  destruct (for_each (resolve_symbol cjk_font tables) text_list (∅, ∅, [], pend))
    as [[[[f12 f06] syms] pend1]|e] eqn:Hloop; cbn [bind]; [|done].
  intros [= <- <-]. simpl. rewrite !lookup_insert_eq. intros [= <-] [= <-] s.
  destruct (resolve_symbols_lines _ _ _ _ Hloop) with s as [?|(v & x & ? & ? & ?)].
  - intros s'. left. simpl. by rewrite !lookup_empty.
  - by left.
  - right. exists v, x. split_and!; [done|done|]. by exists tables.
Qed.

Lemma resolve_font_recorded_lines (text_list : list char) (font : string)
    (maps maps' : FontMapsPerFont) (pend pend' : gset N) :
  resolve_font ft cjk_font text_list font (maps, pend) = Ok (maps', pend') ->
  fonts_recorded ft cjk_font maps pend -> fonts_recorded ft cjk_font maps' pend'.
Proof.
  intros Hstep [Hq Hu].
  pose proof (fun m12 m06 => resolve_font_lines _ _ _ _ _ _ m12 m06 Hstep) as Hlines.
  apply resolve_font_Ok in Hstep as (m12 & m06 & syms & -> & Hsub & Hold & _).
  simpl in Hlines. specialize (Hlines m12 m06).
  rewrite !lookup_insert_eq in Hlines. specialize (Hlines eq_refl eq_refl).
  assert (Hnew : forall s, is_Some (m06 !! s) -> s ∈ pend /\ s ∉ pend').
  { intros s Hs. destruct (decide (s ∈ pend)) as [Hp|Hp].
    - split; [done|]. intros Hp'. destruct (Hold s) as [H06 _]; [by right|].
      rewrite H06 in Hs. by destruct Hs.
    - destruct (Hold s) as [H06 _]; [by left|]. rewrite H06 in Hs. by destruct Hs. }
  split; simpl.
  - intros f. destruct (decide (font = f)) as [<-|Hne].
    + right. exists m12, m06. by rewrite !lookup_insert_eq.
    + rewrite !lookup_insert_ne by done. apply Hq.
  - intros f m s Hm Hs. destruct (decide (font = f)) as [<-|Hne].
    + rewrite lookup_insert_eq in Hm. injection Hm as <-.
      destruct (Hnew s Hs) as [Hp Hp']. split; [done|].
      intros g m' Hm' Hs'. destruct (decide (font = g)) as [<-|Hne']; [done|].
      rewrite lookup_insert_ne in Hm' by done.
      by destruct (Hu g m' s Hm' Hs') as [? _].
    + rewrite lookup_insert_ne in Hm by done.
      destruct (Hu f m s Hm Hs) as [Hp Huniq]. split; [set_solver|].
      intros g m' Hm' Hs'. destruct (decide (font = g)) as [<-|Hne'].
      * rewrite lookup_insert_eq in Hm'. injection Hm' as <-.
        by destruct (Hnew s Hs') as [? _].
      * rewrite lookup_insert_ne in Hm' by done. by apply (Huniq g m').
Qed.

Lemma resolve_fonts_recorded_lines (text_list : list char) (fonts : list string)
    (maps maps' : FontMapsPerFont) (pend pend' : gset N) :
  for_each (resolve_font ft cjk_font text_list) fonts (maps, pend) = Ok (maps', pend') ->
  fonts_recorded ft cjk_font maps pend -> fonts_recorded ft cjk_font maps' pend'.
Proof.
  revert maps pend. induction fonts as [|font fonts IH]; intros maps pend; cbn [for_each].
  { by intros [= <- <-]. }
  intros ([maps1 pend1] & Hstep & Hrest)%bind_Ok Hinv.
  apply (IH _ _ Hrest). by apply (resolve_font_recorded_lines _ _ _ _ _ _ Hstep).
Qed.

Lemma fonts_recorded_empty (pend : gset N) :
  fonts_recorded ft cjk_font {| font12_maps := ∅; font06_maps := ∅; sym_lists := ∅ |} pend.
Proof.
  split; simpl.
  - intros font. left. by rewrite !lookup_empty.
  - intros font m06 s Hm. by rewrite lookup_empty in Hm.
Qed.

Lemma merge_font_maps_lookup12 (font_maps : FontMapsPerFont) (fonts : list string)
    (acc12 m12 : gmap N bytes) (acc06 m06 : gmap N (option bytes)) (s : char)
    (v : bytes) :
  for_each (fun font '(font12_map, font06_map) =>
      let* f12 := dict_get (font12_maps font_maps) font in
      let* f06 := dict_get (font06_maps font_maps) font in
      Ok (f12 ∪ font12_map, f06 ∪ font06_map))
    fonts (acc12, acc06) = Ok (m12, m06) ->
  m12 !! s = Some v ->
  acc12 !! s = Some v \/
  exists font m, font ∈ fonts /\ font12_maps font_maps !! font = Some m /\ m !! s = Some v.
Proof.
  revert acc12 acc06. induction fonts as [|font fonts IH]; intros acc12 acc06; cbn [for_each].
  { intros [= <- <-]. by left. }
  unfold dict_get at 1 2.
  destruct (font12_maps font_maps !! font) as [f12|] eqn:H12; cbn [bind]; [|done].
  destruct (font06_maps font_maps !! font) as [f06|]; cbn [bind]; [|done].
  intros Hrest Hs. destruct (IH _ _ Hrest Hs) as [Hacc | (f & m & Hf & Hm & Hx)].
  - apply lookup_union_Some_raw in Hacc as [Hl | [_ Hr]].
    + right. exists font, f12. split_and!; [by left|done..].
    + by left.
  - right. exists f, m. split_and!; [by right|done..].
Qed.

(** The entries of a symbol of the final list in the merged font map are
    the entries that one font of the list has recorded for it. *)
Lemma final_lines_recorded (text_list : list char) (fonts : list string)
    (sym_list : list char) (font_map : FontMap) (symbol_map : gmap N bytes) (s : char) :
  get_font_map_and_table ft cjk_font text_list fonts = Ok (sym_list, font_map, symbol_map) ->
  s ∈ sym_list ->
  exists font_maps font m12 m06 v x,
    get_font_map_per_font ft cjk_font (candidate_list text_list) fonts = Ok font_maps /\
    font ∈ fonts /\
    font12_maps font_maps !! font = Some m12 /\ font06_maps font_maps !! font = Some m06 /\
    m12 !! s = Some v /\ m06 !! s = Some x /\
    font12 font_map !! s = Some v /\ font06 font_map !! s = Some x /\
    supplied_by ft cjk_font font s v x.
Proof.
  intros Hrun Hs.
  destruct (final_list_has_bitmaps _ _ _ _ _ _ _ _ Hrun Hs) as (_ & [v Hv] & [x Hx]).
  destruct (get_font_map_and_table_Ok _ _ _ _ _ _ _ Hrun)
    as (font_maps & both & large & Hper & Hmerge & _).
  apply get_font_map_per_font_Ok in Hper as Hloop. destruct Hloop as (_ & _ & _ & Hloop).
  apply resolve_fonts_recorded_lines in Hloop as [Hq Hu]; [|apply fonts_recorded_empty].
  unfold merge_font_maps in Hmerge.
  destruct (merge_font_maps_lookup _ _ _ _ _ _ s x Hmerge Hx)
    as [Hacc | (f & m06 & Hf & Hm06 & Hfx)]; [by rewrite lookup_empty in Hacc|].
  destruct (merge_font_maps_lookup12 _ _ _ _ _ _ s v Hmerge Hv)
    as [Hacc | (g & m12 & Hg & Hm12 & Hgv)]; [by rewrite lookup_empty in Hacc|].
  destruct (Hq g) as [[Hnone _] | (m12' & m06' & Hm12' & Hm06' & Hlines)]; [congruence|].
  assert (m12' = m12) as -> by congruence.
  destruct (Hlines s) as [[Hnone _] | (v' & x' & Hv' & Hx' & Hsup)]; [congruence|].
  assert (v' = v) as -> by congruence.
  destruct (Hu f m06 s Hm06) as [_ Huniq]; [by rewrite Hfx|].
  assert (g = f) as -> by (apply (Huniq g m06'); [done|by rewrite Hx']).
  assert (m06' = m06) as -> by congruence.
  assert (x' = x) as -> by congruence.
  exists font_maps, f, m12, m06, v, x. split_and!; done.
Qed.

End font_provenance.

(** X9. The bitmaps that the builder returns for a symbol of the final
    list come from one font of the font list: the large bitmap is the
    glyph of the CJK font, packed, and the small entry is the placeholder
    [None], or the two entries are those of the large and of the small
    table of one table font. *)
Theorem font_map_provenance (ft : font_tables) (cjk_font : gmap N Glyph)
    (text_list : list char) (fonts : list string)
    (sym_list : list char) (font_map : FontMap) (symbol_map : gmap N bytes) (s : char) :
  get_font_map_and_table ft cjk_font text_list fonts = Ok (sym_list, font_map, symbol_map) ->
  s ∈ sym_list ->
  exists (font : string) (font12_line : bytes) (font06_line : option bytes),
    font ∈ fonts /\
    font12 font_map !! s = Some font12_line /\
    font06 font_map !! s = Some font06_line /\
    if decide (font = NAME_CJK ft)
    then get_cjk_glyph cjk_font s = Ok font12_line /\ font06_line = None
    else exists (table12 table06 : gmap N bytes) (small : bytes),
           get_font_maps_for_name ft font = Ok (table12, table06) /\
           table12 !! s = Some font12_line /\
           table06 !! s = Some small /\ font06_line = Some small.
Proof.
  intros Hrun Hs.
  destruct (final_lines_recorded _ _ _ _ _ _ _ _ Hrun Hs)
    as (font_maps & font & m12 & m06 & v & x & _ & Hf & _ & _ & _ & _ & Hv & Hx & Hsup).
  exists font, v, x. split_and!; [done..|].
  destruct Hsup as (tables & Hload & Hlines). unfold load_font_tables in Hload.
  destruct (decide (font = NAME_CJK ft)).
  - by injection Hload as <-.
  - destruct (get_font_maps_for_name ft font) as [[t12 t06]|e]; [|done].
    injection Hload as <-. destruct Hlines as (H12 & small & H06 & ->).
    by exists t12, t06, small.
Qed.

Lemma font_map_provenance_witness :
  (0x4E00%N ∈ sample_table.1.1) /\
  exists (font : string) (font12_line : bytes) (font06_line : option bytes),
    font ∈ sample_fonts /\
    font12 sample_table.1.2 !! 0x4E00%N = Some font12_line /\
    font06 sample_table.1.2 !! 0x4E00%N = Some font06_line /\
    if decide (font = NAME_CJK sample_font_tables)
    then get_cjk_glyph sample_cjk_font 0x4E00%N = Ok font12_line /\ font06_line = None
    else exists (table12 table06 : gmap N bytes) (small : bytes),
           get_font_maps_for_name sample_font_tables font = Ok (table12, table06) /\
           table12 !! 0x4E00%N = Some font12_line /\
           table06 !! 0x4E00%N = Some small /\ font06_line = Some small.
Proof.
  assert (Hin : 0x4E00%N ∈ sample_table.1.1).
  { apply (bool_decide_unpack _). vm_compute. exact I. }
  split; [done|].
  apply (font_map_provenance sample_font_tables sample_cjk_font
           sample_text_list sample_fonts sample_table.1.1 sample_table.1.2
           sample_table.2 0x4E00%N); [apply sample_table_Ok|done].
Defined.

(** *** The first font that supplies a symbol *)

Section font_priority.

Context (ft : font_tables) (cjk_font : gmap N Glyph).

Lemma supplied_by_functional (font : string) (s : char)
    (v v' : bytes) (x x' : option bytes) :
  supplied_by ft cjk_font font s v x -> supplied_by ft cjk_font font s v' x' ->
  v = v' /\ x = x'.
Proof.
  intros (tables & Hload & Hlines) (tables' & Hload' & Hlines').
  assert (tables' = tables) as -> by congruence.
  destruct tables as [[f12 f06]|]; simpl in *.
  - destruct Hlines as (H12 & small & H06 & ->).
    destruct Hlines' as (H12' & small' & H06' & ->). split; congruence.
  - destruct Hlines as [Hv ->]. destruct Hlines' as [Hv' ->]. split; congruence.
Qed.

(** A symbol stays pending through table fonts that do not supply it. *)
Lemma resolve_fonts_keeps_pending (text_list : list char) (fonts : list string)
    (maps maps' : FontMapsPerFont) (pend pend' : gset N) (s : char) :
  for_each (resolve_font ft cjk_font text_list) fonts (maps, pend) = Ok (maps', pend') ->
  (forall g, g ∈ fonts -> g <> NAME_CJK ft /\ ~ table_supplies ft g s) ->
  s ∈ pend -> s ∈ pend'.
Proof.
  revert maps pend. induction fonts as [|f fonts IH]; intros maps pend; cbn [for_each].
  { by intros [= <- <-]. }
  intros ([maps1 pend1] & Hstep & Hrest)%bind_Ok Hnone Hs.
  apply (IH _ _ Hrest); [intros g Hg; apply Hnone; by right|].
  destruct (decide (s ∈ pend1)) as [|Hout]; [done|]. exfalso.
  destruct (Hnone f) as [Hne Hnot]; [by left|]. apply Hnot.
  apply resolve_font_Ok in Hstep as (m12 & m06 & syms & _ & _ & _ & Hnew & _).
  destruct (Hnew s Hs Hout) as (_ & _ & tables & line06 & Hload & _ & Hres).
  unfold load_font_tables in Hload. rewrite decide_False in Hload by done.
  destruct (get_font_maps_for_name ft f) as [[f12 f06]|e] eqn:Hget; [|done].
  injection Hload as <-. destruct Hres as (H12 & small & H06 & _).
  exists f12, f06. split_and!; [done|done|by eexists].
Qed.

(** Once a symbol is no longer pending, the later fonts record nothing
    for it: an entry of the symbol at the end of the loop was there
    before, under the same font. *)
Lemma resolve_fonts_keeps_record (text_list : list char) (fonts : list string)
    (maps maps' : FontMapsPerFont) (pend pend' : gset N) (s : char) :
  for_each (resolve_font ft cjk_font text_list) fonts (maps, pend) = Ok (maps', pend') ->
  s ∉ pend ->
  (forall g m x, font06_maps maps' !! g = Some m -> m !! s = Some x ->
     exists m0, font06_maps maps !! g = Some m0 /\ m0 !! s = Some x) /\
  (forall g m v, font12_maps maps' !! g = Some m -> m !! s = Some v ->
     exists m0, font12_maps maps !! g = Some m0 /\ m0 !! s = Some v).
Proof.
  revert maps pend. induction fonts as [|f fonts IH]; intros maps pend; cbn [for_each].
  { intros [= <- <-] _. split; eauto. }
  intros ([maps1 pend1] & Hstep & Hrest)%bind_Ok Hs.
  apply resolve_font_Ok in Hstep as (m12 & m06 & syms & -> & Hsub & Hold & _).
  destruct (Hold s) as [H06 H12]; [by left|].
  destruct (IH _ _ Hrest) as [IH06 IH12]; [set_solver|]. simpl in IH06, IH12.
  split.
  - intros g m x Hm Hx. destruct (IH06 g m x Hm Hx) as (m0 & Hm0 & Hx0).
    destruct (decide (f = g)) as [<-|Hne].
    + rewrite lookup_insert_eq in Hm0. injection Hm0 as <-. congruence.
    + rewrite lookup_insert_ne in Hm0 by done. eauto.
  - intros g m v Hm Hv. destruct (IH12 g m v Hm Hv) as (m0 & Hm0 & Hv0).
    destruct (decide (f = g)) as [<-|Hne].
    + rewrite lookup_insert_eq in Hm0. injection Hm0 as <-. congruence.
    + rewrite lookup_insert_ne in Hm0 by done. eauto.
Qed.

(** X10. The fonts are tried in the order of the font list and the first
    font that supplies a symbol provides its bitmaps: when the table
    fonts before a font of the list do not supply a symbol of the
    candidate list and that font does, the font map that the builder
    returns holds the bitmaps of that font for the symbol, whatever the
    later fonts supply. *)
Theorem first_supplying_font_wins (text_list : list char) (before after : list string)
    (font : string) (sym_list : list char) (font_map : FontMap)
    (symbol_map : gmap N bytes) (s : char) (v : bytes) (x : option bytes) :
  get_font_map_and_table ft cjk_font text_list (before ++ font :: after)
    = Ok (sym_list, font_map, symbol_map) ->
  s ∈ candidate_list text_list ->
  (forall g, g ∈ before -> g <> NAME_CJK ft /\ ~ table_supplies ft g s) ->
  supplied_by ft cjk_font font s v x ->
  font12 font_map !! s = Some v /\ font06 font_map !! s = Some x.
Proof.
  intros Hrun Hcand Hbefore Hsup.
  set (l := candidate_list text_list) in *.
  assert (Hs : s ∈ sym_list).
  { destruct (get_font_map_and_table_Ok _ _ _ _ _ _ _ Hrun)
      as (font_maps & both & large & _ & _ & Hsplit & -> & _).
    apply split_by_fonts_Ok in Hsplit as (-> & -> & Hall).
    rewrite Forall_forall in Hall. destruct (Hall s Hcand) as [[small|] Hx].
    - apply elem_of_app. left. apply list_elem_of_filter. split; [|done].
      unfold has_both_fonts. by rewrite Hx.
    - apply elem_of_app. right. apply list_elem_of_filter. split; [|done].
      unfold is_large_only. by rewrite Hx. }
  destruct (final_lines_recorded _ _ _ _ _ _ _ _ Hrun Hs)
    as (font_maps & g & m12 & m06 & v' & x' & Hper & _ & Hm12 & Hm06 & Hv' & Hx'
        & -> & -> & _).
  apply get_font_map_per_font_Ok in Hper as (_ & _ & _ & Hloop). fold l in Hloop.
  rewrite for_each_app in Hloop.
  apply bind_Ok in Hloop as ([maps1 pend1] & Hfront & Hloop).
  cbn [for_each] in Hloop. apply bind_Ok in Hloop as ([maps2 pend2] & Hstep & Hback).
  assert (Hpend1 : s ∈ pend1).
  { apply (resolve_fonts_keeps_pending _ _ _ _ _ _ _ Hfront Hbefore).
    by apply elem_of_list_to_set. }
  assert (Hinv2 : fonts_recorded ft cjk_font maps2 pend2).
  { apply (resolve_font_recorded_lines _ _ _ _ _ _ _ _ Hstep).
    apply (resolve_fonts_recorded_lines _ _ _ _ _ _ _ _ Hfront).
    apply fonts_recorded_empty. }
  pose proof (fun a b => resolve_font_lines _ _ _ _ _ _ _ _ a b Hstep) as Hlines.
  apply resolve_font_Ok in Hstep
    as (f12 & f06 & syms & -> & _ & _ & Hnew & Htab & Hcjk).
  simpl in Hlines. specialize (Hlines f12 f06).
  rewrite !lookup_insert_eq in Hlines. specialize (Hlines eq_refl eq_refl).
  assert (Hpend2 : s ∉ pend2).
  { destruct Hsup as (tables & Hload & Hsl). destruct tables as [[t12 t06]|].
    - destruct Hsl as (H12 & small & H06 & _).
      apply (Htab s t12 t06); [done|done|done|by eexists|by eexists].
    - by apply Hcjk. }
  destruct (Hnew s Hpend1 Hpend2) as (_ & _ & _ & line06 & _ & Hf06 & _).
  destruct (Hlines s) as [[_ Hnone] | (v0 & x0 & Hv0 & Hx0 & Hsup0)]; [congruence|].
  destruct (supplied_by_functional _ _ _ _ _ _ Hsup0 Hsup) as [-> ->].
  destruct (resolve_fonts_keeps_record _ _ _ _ _ _ s Hback Hpend2) as [Hk06 Hk12].
  destruct (Hk06 g m06 x' Hm06 Hx') as (m0 & Hm0 & Hx0').
  destruct (Hk12 g m12 v' Hm12 Hv') as (n0 & Hn0 & Hv0').
  destruct Hinv2 as [_ Hu]. simpl in Hu, Hm0, Hn0.
  destruct (Hu font f06 s) as [_ Huniq]; [by rewrite lookup_insert_eq|by rewrite Hx0|].
  assert (g = font) as -> by (apply (Huniq g m0); [done|by rewrite Hx0']).
  rewrite lookup_insert_eq in Hm0. rewrite lookup_insert_eq in Hn0.
  simplify_eq. split; congruence.
Qed.

End font_priority.

Lemma first_supplying_font_wins_witness :
  (0x4E00%N ∈ candidate_list sample_text_list) /\
  supplied_by sample_font_tables sample_cjk_font "cjk" 0x4E00%N
    [0; 0; 0; 0; 0; 0; 0; 0; 0; 0; 0; 0;
     2; 2; 2; 2; 2; 2; 2; 2; 2; 2; 0; 0] None /\
  font12 sample_table.1.2 !! 0x4E00%N
    = Some [0; 0; 0; 0; 0; 0; 0; 0; 0; 0; 0; 0;
            2; 2; 2; 2; 2; 2; 2; 2; 2; 2; 0; 0] /\
  font06 sample_table.1.2 !! 0x4E00%N = Some None.
Proof.
  assert (Hin : 0x4E00%N ∈ candidate_list sample_text_list).
  { apply (bool_decide_unpack _). vm_compute. exact I. }
  assert (Hsup : supplied_by sample_font_tables sample_cjk_font "cjk" 0x4E00%N
                   [0; 0; 0; 0; 0; 0; 0; 0; 0; 0; 0; 0;
                    2; 2; 2; 2; 2; 2; 2; 2; 2; 2; 0; 0] None).
  { exists None. split; [done|]. split; [vm_compute; reflexivity|done]. }
  split; [done|]. split; [done|].
  apply (first_supplying_font_wins sample_font_tables sample_cjk_font
           sample_text_list ["ascii_basic"] [] "cjk"
           sample_table.1.1 sample_table.1.2 sample_table.2 0x4E00%N);
    [apply sample_table_Ok|done| |done].
  intros g ->%list_elem_of_singleton. split; [done|].
  intros (f12 & f06 & [= <- <-] & [b Hb] & _). vm_compute in Hb. discriminate.
Defined.

(** ** The packed glyph *)

Lemma land_bit_testbit (row k : Z) :
  0 <= k -> (Z.land row (1 ≪ k) =? 0) = negb (Z.testbit row k).
Proof.
  intros Hk. rewrite Z.shiftl_1_l.
  destruct (Z.testbit row k) eqn:Hbit; simpl.
  - apply Z.eqb_neq. intros Hz.
    apply (f_equal (fun z => Z.testbit z k)) in Hz.
    rewrite Z.land_spec, Z.pow2_bits_true, Hbit, Z.bits_0 in Hz by done. done.
  - apply Z.eqb_eq. apply Z.bits_inj'. intros n Hn.
    rewrite Z.land_spec, Z.bits_0, Z.pow2_bits_eqb by done.
    destruct (Z.eqb_spec k n) as [->|_]; [by rewrite Hbit|by rewrite andb_false_r].
Qed.

Lemma get_cell_pixel (glyph : Glyph) (x y : Z) (lit : bool) :
  get_cell glyph x y = Ok lit -> (lit = true <-> glyph_pixel glyph x y).
Proof.
  unfold get_cell, get_bounding_box, glyph_pixel, box_covers.
  set (adj_x := x - bbX glyph). set (adj_y := y - (dst_h - bbH glyph - bbY glyph - 3)).
  destruct (Z.ltb_spec adj_x 0); simpl.
  { intros [= <-]. split; [done|]. lia. }
  destruct (Z.geb_spec adj_x (bbW glyph)); simpl.
  { intros [= <-]. split; [done|]. lia. }
  destruct (Z.ltb_spec adj_y 0); simpl.
  { intros [= <-]. split; [done|]. lia. }
  destruct (Z.geb_spec adj_y (bbH glyph)); simpl.
  { intros [= <-]. split; [done|]. lia. }
  unfold list_get_int.
  destruct (Z.leb_spec 0 (bbH glyph - adj_y - 1)); [|lia]. simpl.
  destruct (Z.ltb_spec (bbH glyph - adj_y - 1) (Z.of_nat (length (data glyph)))); simpl.
  - unfold list_get.
    destruct (data glyph !! Z.to_nat (bbH glyph - adj_y - 1)) as [row|] eqn:Hrow;
      cbn [bind]; [|done].
    rewrite land_bit_testbit by lia.
    destruct (Z.testbit row (bbW glyph - adj_x - 1)) eqn:Hbit; simpl; intros [= <-].
    + split; [|done]. intros _. split; [lia|]. by exists row.
    + split; [done|]. intros (_ & row' & [= <-] & Hbit'). congruence.
  - destruct (Z.leb_spec (- Z.of_nat (length (data glyph))) (bbH glyph - adj_y - 1));
      simpl; [|done].
    destruct (Z.ltb_spec (bbH glyph - adj_y - 1) 0); [lia|done].
Qed.

Lemma get_cell_total (glyph : Glyph) (x y : Z) :
  bbH glyph <= Z.of_nat (length (data glyph)) -> is_Ok (get_cell glyph x y).
Proof.
  intros Hrows. unfold get_cell, get_bounding_box.
  set (adj_x := x - bbX glyph). set (adj_y := y - (dst_h - bbH glyph - bbY glyph - 3)).
  destruct (Z.ltb_spec adj_x 0); simpl; [by eexists|].
  destruct (Z.geb_spec adj_x (bbW glyph)); simpl; [by eexists|].
  destruct (Z.ltb_spec adj_y 0); simpl; [by eexists|].
  destruct (Z.geb_spec adj_y (bbH glyph)); simpl; [by eexists|].
  unfold list_get_int.
  destruct (Z.leb_spec 0 (bbH glyph - adj_y - 1)); [|lia]. simpl.
  destruct (Z.ltb_spec (bbH glyph - adj_y - 1) (Z.of_nat (length (data glyph))));
    [|lia]. simpl. unfold list_get.
  destruct (lookup_lt_is_Some_2 (data glyph) (Z.to_nat (bbH glyph - adj_y - 1)))
    as [row ->]; [lia|]. cbn [bind].
  destruct (Z.land row _ =? 0); by eexists.
Qed.

(** The loop over the rows of a column sets the bit [r] of the byte for
    every lit row [r] and leaves the other bits as they are. *)
Lemma pack_rows (glyph : Glyph) (block c : Z) (rs : list Z) (b0 b : Z) :
  for_each (fun r b =>
      let* lit := get_cell glyph c (r + 8 * block) in
      if lit then Ok (Z.lor b (0x01 ≪ r)) else Ok b) rs b0 = Ok b ->
  Forall (fun r => 0 <= r) rs -> NoDup rs -> 0 <= b0 ->
  0 <= b /\
  (forall k, 0 <= k -> k ∉ rs -> Z.testbit b k = Z.testbit b0 k) /\
  (forall r, r ∈ rs -> exists lit, get_cell glyph c (r + 8 * block) = Ok lit /\
                                   Z.testbit b r = lit || Z.testbit b0 r).
Proof.
  revert b0. induction rs as [|r rs IH]; intros b0; cbn [for_each].
  { intros [= <-] _ _ Hb0. split_and!; [done|done|]. by intros r Hr%elem_of_nil. }
  intros (b1 & Hstep & Hrest)%bind_Ok [Hr Hrs]%Forall_cons [Hnew Hnd]%NoDup_cons Hb0.
  apply bind_Ok in Hstep as (lit & Hlit & Hb1).
  assert (Hbits : 0 <= b1 /\
            forall k, 0 <= k -> Z.testbit b1 k = Z.testbit b0 k || (lit && (r =? k))).
  { destruct lit; injection Hb1 as <-.
    - split; [apply Z.lor_nonneg; split; [done|by apply Z.shiftl_nonneg]|].
      intros k Hk. by rewrite Z.lor_spec, Z.shiftl_1_l, Z.pow2_bits_eqb.
    - split; [done|]. intros k Hk. by rewrite orb_false_r. }
  destruct Hbits as [Hb1' Hbits].
  destruct (IH b1 Hrest Hrs Hnd Hb1') as (Hb & Hother & Hin).
  split_and!; [done| |].
  - intros k Hk [Hne Hk']%not_elem_of_cons. rewrite Hother, Hbits by done.
    destruct (Z.eqb_spec r k); [congruence|]. by rewrite andb_false_r, orb_false_r.
  - intros r' [->|Hr']%elem_of_cons.
    + exists lit. split; [done|]. rewrite Hother, Hbits by done.
      rewrite Z.eqb_refl, andb_true_r. apply orb_comm.
    + destruct (Hin r' Hr') as (lit' & Hlit' & Hbit'). exists lit'. split; [done|].
      rewrite Hbit', Hbits by (rewrite Forall_forall in Hrs; by apply Hrs).
      destruct (Z.eqb_spec r r') as [->|_]; [done|]. by rewrite andb_false_r, orb_false_r.
Qed.

Lemma bits_below_256 (b : Z) :
  0 <= b -> (forall k, 8 <= k -> Z.testbit b k = false) -> b < 256.
Proof.
  intros Hb Hbits. destruct (Z.lt_ge_cases b 256) as [|Hge]; [done|]. exfalso.
  assert (Hlog : 8 <= Z.log2 b) by (apply Z.log2_le_pow2; lia).
  pose proof (Z.bit_log2 b ltac:(lia)) as Htop. rewrite Hbits in Htop by done. done.
Qed.

Lemma pack_column_bits (glyph : Glyph) (block c b : Z) :
  pack_column glyph block c = Ok b ->
  0 <= b < 256 /\
  forall r, 0 <= r < 8 ->
    (Z.testbit b r = true <-> glyph_pixel glyph c (r + 8 * block)).
Proof.
  unfold pack_column. intros Hrun.
  apply pack_rows in Hrun as (Hb & Hother & Hin); [| |apply NoDup_seqZ|done].
  2: { apply Forall_forall. intros r Hr%elem_of_seqZ. lia. }
  split.
  - split; [done|]. apply bits_below_256; [done|]. intros k Hk.
    rewrite Hother; [apply Z.bits_0|lia|]. intros Hk'%elem_of_seqZ. lia.
  - intros r Hr. destruct (Hin r) as (lit & Hlit & Hbit); [apply elem_of_seqZ; lia|].
    rewrite Hbit, Z.bits_0, orb_false_r. by apply get_cell_pixel.
Qed.

Lemma pack_column_total (glyph : Glyph) (block c : Z) :
  bbH glyph <= Z.of_nat (length (data glyph)) -> is_Ok (pack_column glyph block c).
Proof.
  intros Hrows. unfold pack_column. generalize 0 at 2. generalize (seqZ 0 8).
  intros rs. induction rs as [|r rs IH]; intros b0; cbn [for_each]; [by eexists|].
  destruct (get_cell_total glyph c (r + 8 * block) Hrows) as [lit ->]. cbn [bind].
  destruct lit; apply IH.
Qed.

Lemma pack_columns (glyph : Glyph) (block : Z) (cs : list Z) (bs0 bs : bytes) :
  for_each (fun c bs =>
      let* b := pack_column glyph block c in
      bytearray_append bs b) cs bs0 = Ok bs ->
  exists col, bs = bs0 ++ col /\
              Forall2 (fun c b => pack_column glyph block c = Ok b) cs col.
Proof.
  revert bs0. induction cs as [|c cs IH]; intros bs0; cbn [for_each].
  { intros [= <-]. exists []. split; [by rewrite app_nil_r|constructor]. }
  intros (bs1 & Hstep & Hrest)%bind_Ok. apply bind_Ok in Hstep as (b & Hb & Happ).
  unfold bytearray_append in Happ. destruct (in_byte_range b); [|done].
  injection Happ as <-. destruct (IH _ Hrest) as (col & -> & Hcol).
  exists (b :: col). split; [by rewrite <- (assoc_L (++))|by constructor].
Qed.

Lemma pack_columns_total (glyph : Glyph) (block : Z) (cs : list Z) (bs0 : bytes) :
  bbH glyph <= Z.of_nat (length (data glyph)) ->
  is_Ok (for_each (fun c bs =>
      let* b := pack_column glyph block c in
      bytearray_append bs b) cs bs0).
Proof.
  intros Hrows. revert bs0. induction cs as [|c cs IH]; intros bs0; cbn [for_each];
    [by eexists|].
  destruct (pack_column_total glyph block c Hrows) as [b Hb]. rewrite Hb. cbn [bind].
  apply pack_column_bits in Hb as [Hb _]. unfold bytearray_append, in_byte_range.
  destruct (Z.leb_spec 0 b); [|lia]. destruct (Z.ltb_spec b 256); [|lia]. simpl.
  apply IH.
Qed.

Lemma pack_glyph_columns (glyph : Glyph) (bs : bytes) :
  pack_glyph glyph = Ok bs ->
  exists upper lower,
    bs = upper ++ lower /\
    Forall2 (fun c b => pack_column glyph 0 c = Ok b) (seqZ 0 dst_w) upper /\
    Forall2 (fun c b => pack_column glyph 1 c = Ok b) (seqZ 0 dst_w) lower.
Proof.
  unfold pack_glyph. change (seqZ 0 2) with [0; 1]. cbn [for_each].
  intros (bs1 & Hupper & Hrest)%bind_Ok. apply bind_Ok in Hrest as (bs2 & Hlower & [= <-]).
  apply pack_columns in Hupper as (upper & -> & Hupper).
  apply pack_columns in Hlower as (lower & -> & Hlower).
  by exists upper, lower.
Qed.

Lemma pack_glyph_byte (glyph : Glyph) (bs : bytes) (block c : Z) :
  pack_glyph glyph = Ok bs -> 0 <= block < 2 -> 0 <= c < dst_w ->
  length bs = 24%nat /\
  exists b, bs !! Z.to_nat (12 * block + c) = Some b /\
            pack_column glyph block c = Ok b.
Proof.
  intros (upper & lower & -> & Hupper & Hlower)%pack_glyph_columns Hblock Hc.
  pose proof (Forall2_length _ _ _ Hupper) as Hlu.
  pose proof (Forall2_length _ _ _ Hlower) as Hll.
  rewrite length_seqZ in Hlu, Hll. unfold dst_w in *. simpl in Hlu, Hll.
  split; [rewrite length_app; lia|].
  assert (Hcs : seqZ 0 12 !! Z.to_nat c = Some c).
  { rewrite lookup_seqZ. split; lia. }
  destruct (decide (block = 0)) as [->|Hb1].
  - destruct (Forall2_lookup_l _ _ _ _ _ Hupper Hcs) as (b & Hb & Hcol).
    exists b. split; [|done]. rewrite lookup_app_l by lia.
    by replace (Z.to_nat (12 * 0 + c)) with (Z.to_nat c) by lia.
  - assert (block = 1) as -> by lia.
    destruct (Forall2_lookup_l _ _ _ _ _ Hlower Hcs) as (b & Hb & Hcol).
    exists b. split; [|done]. rewrite lookup_app_r by lia.
    by replace (Z.to_nat (12 * 1 + c) - length upper)%nat with (Z.to_nat c) by lia.
Qed.

(** X11. The layout of a packed glyph. When [get_cjk_glyph] returns, it
    returns 24 bytes, one for each column of the upper and of the lower
    half of the 12x16 cell; each byte is in the range of a byte, and bit
    [y mod 8] of the byte [12 * (y / 8) + c] is set exactly when the pixel
    in column [c] and row [y] of the cell is lit in the glyph. *)
Theorem get_cjk_glyph_layout (cjk_font : gmap N Glyph) (sym : char) (bs : bytes) :
  get_cjk_glyph cjk_font sym = Ok bs ->
  exists glyph, cjk_font !! sym = Some glyph /\
    length bs = 24%nat /\
    Forall (fun b => 0 <= b < 256) bs /\
    forall c y, 0 <= c < 12 -> 0 <= y < 16 ->
      exists b, bs !! Z.to_nat (12 * (y `div` 8) + c) = Some b /\
                (Z.testbit b (y `mod` 8) = true <-> glyph_pixel glyph c y).
Proof.
  unfold get_cjk_glyph, dict_get.
  destruct (cjk_font !! sym) as [glyph|]; cbn [bind]; [|done].
  intros Hpack. exists glyph. split; [done|].
  destruct (pack_glyph_byte glyph bs 0 0 Hpack) as [Hlen _]; [lia|unfold dst_w; lia|].
  split_and!; [done| |].
  - apply Forall_forall. intros b [i Hi]%list_elem_of_lookup.
    apply lookup_lt_Some in Hi as Hlt. rewrite Hlen in Hlt.
    destruct (pack_glyph_byte glyph bs (Z.of_nat i `div` 12) (Z.of_nat i `mod` 12) Hpack)
      as (_ & b' & Hb' & Hcol).
    + split; [apply Z.div_pos; lia|apply Z.div_lt_upper_bound; lia].
    + unfold dst_w. apply Z.mod_pos_bound. lia.
    + rewrite <- Z.div_mod, Nat2Z.id in Hb' by lia.
      assert (b' = b) as -> by congruence. by apply pack_column_bits in Hcol as [? _].
  - intros c y Hc Hy.
    destruct (pack_glyph_byte glyph bs (y `div` 8) c Hpack) as (_ & b & Hb & Hcol).
    + split; [apply Z.div_pos; lia|apply Z.div_lt_upper_bound; lia].
    + unfold dst_w. lia.
    + exists b. split; [done|]. apply pack_column_bits in Hcol as [_ Hbits].
      rewrite (Hbits (y `mod` 8)) by (apply Z.mod_pos_bound; lia).
      replace (y `mod` 8 + 8 * (y `div` 8)) with y; [done|].
      pose proof (Z.div_mod y 8 ltac:(lia)). lia.
Qed.

Lemma get_cjk_glyph_layout_witness :
  exists glyph, sample_cjk_font !! 0x4E00%N = Some glyph /\
    length (replicate 12 0 ++ replicate 10 2 ++ [0; 0]) = 24%nat /\
    Forall (fun b => 0 <= b < 256) (replicate 12 0 ++ replicate 10 2 ++ [0; 0]) /\
    forall c y, 0 <= c < 12 -> 0 <= y < 16 ->
      exists b, (replicate 12 0 ++ replicate 10 2 ++ [0; 0])
                  !! Z.to_nat (12 * (y `div` 8) + c) = Some b /\
                (Z.testbit b (y `mod` 8) = true <-> glyph_pixel glyph c y).
Proof.
  apply (get_cjk_glyph_layout sample_cjk_font 0x4E00%N).
  vm_compute. reflexivity.
Defined.

(** X12. [get_cjk_glyph] returns the packed glyph of every symbol of the
    font whose bitmap has a row for each line of its bounding box; for a
    symbol that the font does not have it raises [KeyError]. *)
Theorem get_cjk_glyph_returns (cjk_font : gmap N Glyph) (sym : char) :
  (forall glyph, cjk_font !! sym = Some glyph ->
     bbH glyph <= Z.of_nat (length (data glyph)) ->
     is_Ok (get_cjk_glyph cjk_font sym)) /\
  (cjk_font !! sym = None -> get_cjk_glyph cjk_font sym = Raise (KeyError "key")).
Proof.
  unfold get_cjk_glyph, dict_get. split.
  - intros glyph -> Hrows. cbn [bind].
    unfold pack_glyph. change (seqZ 0 2) with [0; 1]. cbn [for_each].
    destruct (pack_columns_total glyph 0 (seqZ 0 dst_w) [] Hrows) as [bs1 ->]. cbn [bind].
    destruct (pack_columns_total glyph 1 (seqZ 0 dst_w) bs1 Hrows) as [bs2 ->]. cbn [bind].
    by eexists.
  - by intros ->.
Qed.

Lemma get_cjk_glyph_returns_witness :
  is_Ok (get_cjk_glyph sample_cjk_font 0x4E00%N) /\
  get_cjk_glyph sample_cjk_font 0x4E01%N = Raise (KeyError "key").
Proof.
  split.
  - eapply (get_cjk_glyph_returns sample_cjk_font 0x4E00%N); [reflexivity|].
    vm_compute. discriminate.
  - apply (get_cjk_glyph_returns sample_cjk_font 0x4E01%N). reflexivity.
Defined.

(** ** The suffix merging scan: when it raises *)

Lemma bytes_le_total (a b : bytes) : bytes_le a b = false -> bytes_le b a = true.
Proof.
  revert b. induction a as [|x a IH]; intros [|y b]; simpl; try done.
  destruct (Z.ltb_spec x y); [done|]. destruct (Z.ltb_spec y x); [done|]. apply IH.
Qed.

Lemma bytes_le_trans (a b c : bytes) :
  bytes_le a b = true -> bytes_le b c = true -> bytes_le a c = true.
Proof.
  revert b c. induction a as [|x a IH]; intros [|y b] [|z c]; simpl; try done.
  destruct (Z.ltb_spec x y), (Z.ltb_spec y z), (Z.ltb_spec x z),
    (Z.ltb_spec y x), (Z.ltb_spec z y), (Z.ltb_spec z x); try done; try lia.
  apply IH.
Qed.

(** Between two keys of which the first is the beginning of the second,
    every key begins with the first. *)
Lemma startswith_between (x y z : bytes) :
  bytes_le x y = true -> bytes_le y z = true ->
  startswith z x = true -> startswith y x = true.
Proof.
  revert y z. induction x as [|a x IH]; intros [|b y] [|c z]; simpl; try done.
  destruct (Z.eqb_spec c a) as [->|]; [|rewrite andb_false_l; by intros _ _ ?].
  rewrite andb_true_l.
  destruct (Z.ltb_spec a b); [destruct (Z.ltb_spec b a); [lia|done]|].
  destruct (Z.ltb_spec b a); [done|].
  assert (b = a) as -> by lia. rewrite Z.eqb_refl, andb_true_l. apply IH.
Qed.

Lemma insert_by_key_sorted {A : Type} (key : A -> bytes) (x : A) (l : list A) :
  sorted_by_key key l -> sorted_by_key key (insert_by_key key x l).
Proof.
  induction l as [|y l IH]; simpl.
  { intros _. split; [constructor|done]. }
  intros [Hy Hl]. destruct (bytes_le (key x) (key y)) eqn:Hxy; simpl.
  - split_and!; [|done|done]. constructor; [done|].
    eapply Forall_impl; [exact Hy|]. intros z Hz. by eapply bytes_le_trans.
  - split; [|by apply IH].
    rewrite (insert_by_key_Permutation key x l). constructor; [|done].
    by apply bytes_le_total.
Qed.

Lemma sorted_sorted_by_key {A : Type} (key : A -> bytes) (l : list A) :
  sorted_by_key key (sorted key l).
Proof.
  unfold sorted. induction l as [|x l IH]; simpl; [done|]. by apply insert_by_key_sorted.
Qed.

Lemma sorted_by_key_lookup {A : Type} (key : A -> bytes) (l : list A)
    (i j : nat) (a b : A) :
  sorted_by_key key l -> (i < j)%nat -> l !! i = Some a -> l !! j = Some b ->
  bytes_le (key a) (key b) = true.
Proof.
  revert i j. induction l as [|x l IH]; intros i j; simpl; [done|].
  intros [Hx Hl] Hij Hi Hj. destruct j as [|j]; [lia|]. simpl in Hj.
  destruct i as [|i]; simpl in Hi.
  - injection Hi as <-. rewrite Forall_forall in Hx. apply Hx.
    by eapply list_elem_of_lookup_2.
  - apply (IH i j); [done|lia|done|done].
Qed.

Lemma backward_sorted_table_sorted (symbol_conversion_table : gmap N bytes)
    (str_table : list str) (table : list entry) :
  backward_sorted_table symbol_conversion_table str_table = Ok table ->
  sorted_by_key (fun e : entry => e.2) table.
Proof.
  unfold backward_sorted_table. intros (items & _ & [= <-])%bind_Ok.
  apply sorted_sorted_by_key.
Qed.

Lemma extend_run_error (converted : bytes) (following : list entry) (j : nat) (e : exn) :
  extend_run converted following j = Raise e -> e = IndexError.
Proof.
  revert j. induction following as [|next following IH]; intros j; simpl.
  - by intros [= <-].
  - destruct (startswith next.2 converted); [apply IH|done].
Qed.

Lemma remap_entries_error (table : list entry) (l : list (nat * entry))
    (r0 : list (option RemappedTranslationItem)) (e : exn) :
  for_each (remap_entry table) l r0 = Raise e -> e = IndexError.
Proof.
  revert r0. induction l as [|[i [[index source_str] converted]] l IH]; intros r0;
    cbn [for_each]; [done|].
  destruct (remap_entry table (i, (index, source_str, converted)) r0) as [r1|e1] eqn:Hstep;
    cbn [bind]; [apply IH|].
  intros [= <-]. unfold remap_entry in Hstep.
  destruct (extend_run converted (drop (S i) table) i) as [j|e2] eqn:Hrun; cbn [bind] in Hstep.
  - destruct (decide (j ≠ i)); [|done]. unfold list_get in Hstep.
    destruct (table !! j) as [target|]; cbn [bind] in Hstep; [|congruence].
    unfold list_set in Hstep. destruct (decide (index < length r0)%nat); congruence.
  - apply extend_run_error in Hrun. congruence.
Qed.

(** A scan that completes has found, for every item but the last, a later
    item that does not continue it; in the sorted table the last item is
    then such an item. *)
Lemma suffix_merge_last (table : list entry) (n : nat)
    (i : nat) (e stop : entry) :
  sorted_by_key (fun e : entry => e.2) table ->
  NoDup ((fun e : entry => e.1.1) <$> table) ->
  is_Ok (suffix_merge table n) ->
  table !! i = Some e -> (S i < length table)%nat -> last table = Some stop ->
  startswith stop.2 e.2 = false.
Proof.
  intros Hsorted Hnd [r Hr] Hi Hlt Hlast.
  unfold suffix_merge, enumerate in Hr.
  apply remap_entries_Ok in Hr as (_ & _ & Hpos).
  2: { rewrite <- (take_drop (length table - 1) table), fmap_app in Hnd.
       by apply NoDup_app in Hnd as [? _]. }
  destruct (Hpos i e) as (j & Hrun & _).
  { apply lookup_take_Some. split; [done|lia]. }
  simpl in Hrun. apply extend_run_Ok in Hrun as (m & next & _ & Hnext & Hstop & _).
  rewrite lookup_drop in Hnext.
  rewrite last_lookup in Hlast.
  destruct (startswith stop.2 e.2) eqn:Hpre; [|done].
  rewrite <- Hstop. symmetry.
  apply (startswith_between e.2 next.2 stop.2); [| |done].
  - apply (sorted_by_key_lookup _ table i (S i + m)); [done|lia|done|done].
  - destruct (decide (S i + m = pred (length table))%nat) as [Heq|Hne].
    + rewrite Heq, Hlast in Hnext. injection Hnext as <-. congruence.
    + apply lookup_lt_Some in Hnext as Hlt'.
      apply (sorted_by_key_lookup _ table (S i + m) (pred (length table))); [done|lia|done..].
Qed.

(** X13. When the suffix merging scan raises. Once every string is
    converted and the table sorted, the string table is produced exactly
    when the last item of the sorted table continues no other item, that
    is when the converted bytes of no other string are an ending of those
    of the string that sorts last; in every other case the script stops
    with [IndexError]. *)
Theorem scan_raises_exactly (symbol_conversion_table : gmap N bytes)
    (str_table : list str) (table : list entry) :
  backward_sorted_table symbol_conversion_table str_table = Ok table ->
  (is_Ok (get_translation_strings_and_indices symbol_conversion_table str_table) <->
   forall i e stop, table !! i = Some e -> (S i < length table)%nat ->
     last table = Some stop -> startswith stop.2 e.2 = false) /\
  (~ is_Ok (get_translation_strings_and_indices symbol_conversion_table str_table) ->
   get_translation_strings_and_indices symbol_conversion_table str_table
     = Raise IndexError).
Proof.
  intros Htable. split; [split|].
  - intros [[[remapping blob] offsets] Hrun] i e stop.
    unfold get_translation_strings_and_indices in Hrun.
    rewrite Htable in Hrun. cbn [bind] in Hrun.
    apply bind_Ok in Hrun as (r & Hscan & _).
    apply (suffix_merge_last table (length str_table)); [| |by eexists].
    + by eapply backward_sorted_table_sorted.
    + by apply backward_sorted_table_Ok in Htable as (_ & ? & _).
  - intros Hlast.
    destruct (scan_completes_run symbol_conversion_table str_table)
      as (remapping & blob & offsets & Hrun); [|by eexists].
    by apply (scan_completes_if _ _ table).
  - intros Hfail. unfold get_translation_strings_and_indices in *.
    rewrite Htable in *. cbn [bind] in *.
    destruct (suffix_merge table (length str_table)) as [r|e] eqn:Hscan; cbn [bind] in *.
    + exfalso. apply Hfail.
      destruct (scan_completes_run symbol_conversion_table str_table)
        as (remapping & blob & offsets & Hrun); [by exists table, r|].
      unfold get_translation_strings_and_indices in Hrun.
      rewrite Htable in Hrun. cbn [bind] in Hrun. rewrite Hscan in Hrun.
      cbn [bind] in Hrun. rewrite Hrun. by eexists.
    + unfold suffix_merge in Hscan. apply remap_entries_error in Hscan. by subst e.
Qed.

Lemma scan_raises_exactly_witness :
  backward_sorted_table ascii_letters_table scenario_strings
    = Ok [(0%nat, [97; 98]%N, [98; 97]);
          (1%nat, [99; 100; 97; 98]%N, [98; 97; 100; 99]);
          (2%nat, [120; 121; 122]%N, [122; 121; 120])] /\
  (is_Ok (get_translation_strings_and_indices ascii_letters_table scenario_strings) <->
   forall i e stop,
     [(0%nat, [97; 98]%N, [98; 97]);
      (1%nat, [99; 100; 97; 98]%N, [98; 97; 100; 99]);
      (2%nat, [120; 121; 122]%N, [122; 121; 120])] !! i = Some e ->
     (S i < 3)%nat ->
     Some (2%nat, [120; 121; 122]%N, [122; 121; 120]) = Some stop ->
     startswith stop.2 e.2 = false) /\
  (~ is_Ok (get_translation_strings_and_indices ascii_letters_table scenario_strings) ->
   get_translation_strings_and_indices ascii_letters_table scenario_strings
     = Raise IndexError).
Proof.
  assert (Htable : backward_sorted_table ascii_letters_table scenario_strings
    = Ok [(0%nat, [97; 98]%N, [98; 97]);
          (1%nat, [99; 100; 97; 98]%N, [98; 97; 100; 99]);
          (2%nat, [120; 121; 122]%N, [122; 121; 120])])
    by (vm_compute; reflexivity).
  split; [done|].
  apply (scan_raises_exactly ascii_letters_table scenario_strings _ Htable).
Defined.

(** ** The size of the string table *)

Lemma map_result_Forall2 {A B : Type} (f : A -> result B) (l : list A) (l' : list B) :
  map_result f l = Ok l' -> Forall2 (fun x y => f x = Ok y) l l'.
Proof.
  revert l'. induction l as [|x l IH]; intros l'; simpl.
  { intros [= <-]. constructor. }
  intros (y & Hy & (ys & Hys & [= <-])%bind_Ok)%bind_Ok. constructor; [done|by apply IH].
Qed.






(** ** Counting the symbols *)

Lemma filter_eq_absent (c : char) (l : str) :
  c ∉ l -> filter (fun x => x = c) l = [].
Proof.
  induction l as [|x l IH]; [done|]. intros [Hx Hl]%not_elem_of_cons.
  rewrite filter_cons_False by congruence. by apply IH.
Qed.

Lemma elem_of_concat {A : Type} (x : A) (ls : list (list A)) :
  x ∈ concat ls <-> exists l, x ∈ l /\ l ∈ ls.
Proof.
  induction ls as [|l ls IH]; simpl.
  - split; [by intros ?%elem_of_nil|]. by intros (l & _ & ?%elem_of_nil).
  - rewrite elem_of_app, IH. split.
    + intros [Hx | (l' & Hx & Hl')]; [exists l; split; [done|by left]|].
      exists l'. split; [done|by right].
    + intros (l' & Hx & [->|Hl']%elem_of_cons); [by left|]. right. by exists l'.
Qed.

Lemma count_letters_lookup (letters : str) (symbol_counts : gmap N nat) (c : char) :
  foldl count_letter symbol_counts letters !! c =
    if decide (c ∈ letters)
    then Some (default 0%nat (symbol_counts !! c)
               + length (filter (fun x => x = c) letters))%nat
    else symbol_counts !! c.
Proof.
  revert symbol_counts. induction letters as [|x l IH]; intros symbol_counts;
    cbn [foldl].
  { rewrite decide_False; [done|apply not_elem_of_nil]. }
  rewrite IH. unfold count_letter at 1 2.
  destruct (decide (x = c)) as [->|Hne].
  - rewrite lookup_insert_eq. rewrite (decide_True (P := c ∈ c :: l)) by (by left).
    rewrite filter_cons_True by done. cbn [length default].
    destruct (decide (c ∈ l)) as [Hin|Hout]; f_equal; unfold id; [lia|].
    rewrite (filter_eq_absent c l Hout). simpl. lia.
  - rewrite lookup_insert_ne by done. rewrite filter_cons_False by done.
    destruct (decide (c ∈ l)) as [Hin|Hout].
    + rewrite (decide_True (P := c ∈ x :: l)) by (by right). done.
    + rewrite (decide_False (P := c ∈ x :: l)); [done|].
      intros [?|?]%elem_of_cons; congruence.
Qed.

Lemma count_lines_lookup (lines : list str) (symbol_counts : gmap N nat) (c : char) :
  foldl (fun symbol_counts line => foldl count_letter symbol_counts (strip_line line))
        symbol_counts lines !! c =
    if decide (c ∈ concat (strip_line <$> lines))
    then Some (default 0%nat (symbol_counts !! c)
               + length (filter (fun x => x = c) (concat (strip_line <$> lines))))%nat
    else symbol_counts !! c.
Proof.
  revert symbol_counts. induction lines as [|line lines IH]; intros symbol_counts;
    cbn [foldl fmap list_fmap concat].
  { rewrite decide_False; [done|apply not_elem_of_nil]. }
  rewrite IH, count_letters_lookup, filter_app, length_app.
  destruct (decide (c ∈ strip_line line)) as [Hl|Hl],
    (decide (c ∈ concat (strip_line <$> lines))) as [Hr|Hr];
    cbn [default from_option]; unfold id.
  - rewrite decide_True by (apply elem_of_app; by left). f_equal. lia.
  - rewrite decide_True by (apply elem_of_app; by left). f_equal.
    rewrite (filter_eq_absent c _ Hr). simpl. lia.
  - rewrite decide_True by (apply elem_of_app; by right). f_equal.
    rewrite (filter_eq_absent c _ Hl). simpl. lia.
  - rewrite decide_False; [done|]. intros [?|?]%elem_of_app; done.
Qed.

Lemma count_symbols_lookup (text_list : list str) (c : char) :
  count_symbols text_list !! c =
    if decide (c ∈ concat (strip_line <$> text_list))
    then Some (occurrences text_list c) else None.
Proof.
  unfold count_symbols, occurrences. rewrite count_lines_lookup, lookup_empty. simpl.
  by destruct (decide _).
Qed.

Lemma replace2_nil_elem_of (a b c : char) (text : str) :
  c ∈ replace2 a b [] text -> c ∈ text.
Proof.
  remember (length text) as n eqn:Hn. revert text Hn.
  induction n as [n IH] using lt_wf_ind. intros text Hn.
  destruct text as [|x [|y t]]; simpl; [done|done|].
  destruct (decide (x = a /\ y = b)) as [_|_]; simpl.
  - intros Hc. right. right. apply (IH (length t)); [simpl in Hn; lia|done|done].
  - intros [->|Hc]%elem_of_cons; [by left|]. right.
    apply (IH (length (y :: t))); [simpl in *; lia|done|done].
Qed.

Lemma replace2_absent (a b : char) (new text : str) :
  a ∉ text -> replace2 a b new text = text.
Proof.
  induction text as [|x t IH]; [done|]. intros [Hx Ht]%not_elem_of_cons.
  change (replace2 a b new (x :: t)) with
    (match t with
     | [] => [x]
     | y :: t' => if decide (x = a /\ y = b) then new ++ replace2 a b new t'
                  else x :: replace2 a b new t
     end).
  destruct t as [|y t']; [done|].
  rewrite decide_False by (intros [? _]; congruence). by rewrite IH.
Qed.

Lemma strip_line_elem_of (line : str) (c : char) :
  c ∈ strip_line line -> c ∈ line /\ c <> LF /\ c <> CR.
Proof.
  unfold strip_line, remove_char.
  intros Hc%replace2_nil_elem_of%replace2_nil_elem_of.
  apply list_elem_of_filter in Hc as [Hcr Hc].
  apply list_elem_of_filter in Hc as [Hlf Hc]. done.
Qed.

Lemma strip_line_plain (line : str) (c : char) :
  BACKSLASH ∉ line -> c ∈ line -> c <> LF -> c <> CR -> c ∈ strip_line line.
Proof.
  intros Hbs Hc Hlf Hcr. unfold strip_line, remove_char.
  rewrite !replace2_absent.
  - apply list_elem_of_filter. split; [done|]. by apply list_elem_of_filter.
  - intros [_ [_ ?]%list_elem_of_filter]%list_elem_of_filter. done.
  - rewrite replace2_absent.
    + intros [_ [_ ?]%list_elem_of_filter]%list_elem_of_filter. done.
    + intros [_ [_ ?]%list_elem_of_filter]%list_elem_of_filter. done.
Qed.

(** *** The sort by occurrence *)

Lemma count_key_le_total (a b : char * nat) :
  count_key_le a b = false -> count_key_le b a = true.
Proof.
  unfold count_key_le.
  destruct (Nat.ltb_spec a.2 b.2), (Nat.ltb_spec b.2 a.2),
    (Nat.eqb_spec a.2 b.2), (Nat.eqb_spec b.2 a.2),
    (N.leb_spec a.1 b.1), (N.leb_spec b.1 a.1); simpl; try done; lia.
Qed.

Lemma count_key_le_trans (a b c : char * nat) :
  count_key_le a b = true -> count_key_le b c = true -> count_key_le a c = true.
Proof.
  unfold count_key_le.
  destruct (Nat.ltb_spec a.2 b.2), (Nat.ltb_spec b.2 c.2), (Nat.ltb_spec a.2 c.2),
    (Nat.eqb_spec a.2 b.2), (Nat.eqb_spec b.2 c.2), (Nat.eqb_spec a.2 c.2),
    (N.leb_spec a.1 b.1), (N.leb_spec b.1 c.1), (N.leb_spec a.1 c.1);
    simpl; try done; lia.
Qed.

Lemma insert_by_count_Permutation (x : char * nat) (l : list (char * nat)) :
  insert_by_count x l ≡ₚ x :: l.
Proof.
  induction l as [|y l IH]; simpl; [done|].
  destruct (count_key_le x y); [done|]. rewrite IH. apply Permutation_swap.
Qed.

Lemma sorted_by_count_Permutation (l : list (char * nat)) : sorted_by_count l ≡ₚ l.
Proof.
  unfold sorted_by_count. induction l as [|x l IH]; simpl; [done|].
  by rewrite insert_by_count_Permutation, IH.
Qed.

Lemma insert_by_count_sorted (x : char * nat) (l : list (char * nat)) :
  sorted_by_count_key l -> sorted_by_count_key (insert_by_count x l).
Proof.
  induction l as [|y l IH]; simpl.
  { intros _. split; [constructor|done]. }
  intros [Hy Hl]. destruct (count_key_le x y) eqn:Hxy; simpl.
  - split_and!; [|done|done]. constructor; [done|].
    eapply Forall_impl; [exact Hy|]. intros z Hz. by eapply count_key_le_trans.
  - split; [|by apply IH].
    rewrite (insert_by_count_Permutation x l). constructor; [|done].
    by apply count_key_le_total.
Qed.

Lemma sorted_by_count_sorted (l : list (char * nat)) :
  sorted_by_count_key (sorted_by_count l).
Proof.
  unfold sorted_by_count. induction l as [|x l IH]; simpl; [done|].
  by apply insert_by_count_sorted.
Qed.

Lemma sorted_by_count_key_lookup (l : list (char * nat)) (i j : nat) (a b : char * nat) :
  sorted_by_count_key l -> (i < j)%nat -> l !! i = Some a -> l !! j = Some b ->
  count_key_le a b = true.
Proof.
  revert i j. induction l as [|x l IH]; intros i j; simpl; [done|].
  intros [Hx Hl] Hij Hi Hj. destruct j as [|j]; [lia|]. simpl in Hj.
  destruct i as [|i]; simpl in Hi.
  - injection Hi as <-. rewrite Forall_forall in Hx. apply Hx.
    by eapply list_elem_of_lookup_2.
  - apply (IH i j); [done|lia|done|done].
Qed.

Lemma symbols_by_occurrence_elem_of (text_list : list str) (c : char) :
  c ∈ symbols_by_occurrence text_list <-> c ∈ concat (strip_line <$> text_list).
Proof.
  unfold symbols_by_occurrence.
  rewrite elem_of_reverse, sorted_by_count_Permutation, list_elem_of_fmap. split.
  - intros ([c' n] & -> & Hin%elem_of_map_to_list). simpl.
    rewrite count_symbols_lookup in Hin. by destruct (decide _).
  - intros Hin. exists (c, occurrences text_list c). split; [done|].
    apply elem_of_map_to_list. rewrite count_symbols_lookup. by rewrite decide_True.
Qed.

Lemma symbols_by_occurrence_NoDup (text_list : list str) :
  NoDup (symbols_by_occurrence text_list).
Proof.
  unfold symbols_by_occurrence.
  rewrite reverse_Permutation, sorted_by_count_Permutation.
  apply NoDup_fst_map_to_list.
Qed.

(** X15. The symbols that the count returns are the symbols of the
    stripped lines, each of them once: a symbol is returned exactly when
    it occurs in a line after the line breaks and their escapes are
    dropped, and neither the newline nor the carriage return is ever
    returned. *)
Theorem symbols_by_occurrence_symbols (text_list : list str) :
  NoDup (symbols_by_occurrence text_list) /\
  (forall c, c ∈ symbols_by_occurrence text_list <->
     exists line, line ∈ text_list /\ c ∈ strip_line line) /\
  (LF ∉ symbols_by_occurrence text_list) /\
  (CR ∉ symbols_by_occurrence text_list).
Proof.
  assert (Hmem : forall c, c ∈ symbols_by_occurrence text_list <->
            exists line, line ∈ text_list /\ c ∈ strip_line line).
  { intros c. rewrite symbols_by_occurrence_elem_of, elem_of_concat. split.
    - intros (l & Hc & (line & -> & Hline)%list_elem_of_fmap). by exists line.
    - intros (line & Hline & Hc). exists (strip_line line). split; [done|].
      apply list_elem_of_fmap. by exists line. }
  split_and!; [apply symbols_by_occurrence_NoDup|done| |].
  - intros (line & _ & (_ & ? & _)%strip_line_elem_of)%Hmem. done.
  - intros (line & _ & (_ & _ & ?)%strip_line_elem_of)%Hmem. done.
Qed.

Lemma symbols_by_occurrence_sorted (text_list : list str) (i j : nat) (a b : char) :
  (i < j)%nat ->
  symbols_by_occurrence text_list !! i = Some a ->
  symbols_by_occurrence text_list !! j = Some b ->
  (occurrences text_list b < occurrences text_list a)%nat \/
  (occurrences text_list b = occurrences text_list a /\ (b < a)%N).
Proof.
  intros Hij Hi Hj.
  assert (Hne : a <> b).
  { intros ->. pose proof (symbols_by_occurrence_NoDup text_list) as Hnd.
    rewrite NoDup_alt in Hnd. specialize (Hnd i j b Hi Hj). lia. }
  unfold symbols_by_occurrence in Hi, Hj.
  set (items := sorted_by_count (map_to_list (count_symbols text_list))) in *.
  apply lookup_lt_Some in Hi as Hli. apply lookup_lt_Some in Hj as Hlj.
  rewrite length_reverse in Hli, Hlj.
  rewrite reverse_lookup in Hi, Hj by done.
  rewrite list_lookup_fmap in Hi, Hj.
  destruct (items !! (length items.*1 - S i)%nat) as [[a' na]|] eqn:Ha; [|done].
  destruct (items !! (length items.*1 - S j)%nat) as [[b' nb]|] eqn:Hb; [|done].
  simpl in Hi, Hj. injection Hi as ->. injection Hj as ->.
  assert (Hcount : forall c n, (c, n) ∈ items -> n = occurrences text_list c).
  { intros c n Hin. unfold items in Hin. rewrite sorted_by_count_Permutation in Hin.
    apply elem_of_map_to_list in Hin. rewrite count_symbols_lookup in Hin.
    destruct (decide _); congruence. }
  rewrite <- (Hcount a na) by (by eapply list_elem_of_lookup_2).
  rewrite <- (Hcount b nb) by (by eapply list_elem_of_lookup_2).
  assert (Hlt : (length items.*1 - S j < length items.*1 - S i)%nat) by lia.
  pose proof (sorted_by_count_key_lookup items _ _ _ _
                (sorted_by_count_sorted _) Hlt Hb Ha) as Hle.
  unfold count_key_le in Hle. simpl in Hle.
  destruct (Nat.ltb_spec nb na); [by left|]. simpl in Hle.
  destruct (Nat.eqb_spec nb na); [|done]. simpl in Hle.
  apply N.leb_le in Hle. right. split; [done|]. lia.
Qed.


(** X16. The symbols are returned from the most used to the least used:
    of two symbols the one that comes first occurs more often in the
    stripped lines, or as often and has the greater code point. *)
Theorem symbols_by_occurrence_order (text_list : list str) (i j : nat) (a b : char) :
  (i < j)%nat ->
  symbols_by_occurrence text_list !! i = Some a ->
  symbols_by_occurrence text_list !! j = Some b ->
  (occurrences text_list b < occurrences text_list a)%nat \/
  (occurrences text_list b = occurrences text_list a /\ (b < a)%N).
Proof. apply symbols_by_occurrence_sorted. Qed.

Lemma symbols_by_occurrence_order_witness :
  symbols_by_occurrence (str_of_string <$> ["ab"; "cb"]) !! 0%nat = Some 98%N /\
  symbols_by_occurrence (str_of_string <$> ["ab"; "cb"]) !! 2%nat = Some 97%N /\
  ((occurrences (str_of_string <$> ["ab"; "cb"]) 97%N
    < occurrences (str_of_string <$> ["ab"; "cb"]) 98%N)%nat \/
   (occurrences (str_of_string <$> ["ab"; "cb"]) 97%N
    = occurrences (str_of_string <$> ["ab"; "cb"]) 98%N /\ (97 < 98)%N)).
Proof.
  assert (H0 : symbols_by_occurrence (str_of_string <$> ["ab"; "cb"]) !! 0%nat = Some 98%N)
    by (vm_compute; reflexivity).
  assert (H2 : symbols_by_occurrence (str_of_string <$> ["ab"; "cb"]) !! 2%nat = Some 97%N)
    by (vm_compute; reflexivity).
  split_and!; [done|done|].
  apply (symbols_by_occurrence_order (str_of_string <$> ["ab"; "cb"]) 0 2 98%N 97%N);
    [lia|done|done].
Defined.

(** ** From the count to the conversion *)

Lemma candidates_in_sym_list (ft : font_tables) (cjk_font : gmap N Glyph)
    (text_list : list char) (fonts : list string)
    (sym_list : list char) (font_map : FontMap) (symbol_map : gmap N bytes) (s : char) :
  get_font_map_and_table ft cjk_font text_list fonts = Ok (sym_list, font_map, symbol_map) ->
  s ∈ candidate_list text_list ->
  s ∈ sym_list /\ is_Some (symbol_map !! s).
Proof.
  intros Hrun Hcand.
  destruct (get_font_map_and_table_Ok _ _ _ _ _ _ _ Hrun)
    as (font_maps & both & large & _ & _ & Hsplit & Hlist & Hassign).
  assert (Hs : s ∈ sym_list).
  { subst sym_list. apply split_by_fonts_Ok in Hsplit as (-> & -> & Hall).
    rewrite Forall_forall in Hall. destruct (Hall s Hcand) as [[small|] Hx].
    - apply elem_of_app. left. apply list_elem_of_filter. split; [|done].
      unfold has_both_fonts. by rewrite Hx.
    - apply elem_of_app. right. apply list_elem_of_filter. split; [|done].
      unfold is_large_only. by rewrite Hx. }
  split; [done|]. apply list_elem_of_lookup in Hs as [p Hp].
  apply assign_symbol_bytes_Ok in Hassign as (_ & Hpos & _).
  destruct (Hpos p s Hp) as (code & _ & Hcode). by exists code.
Qed.

Lemma convert_loop_total (symbol_conversion_table : gmap N bytes) (l : str) :
  (forall c, c ∈ l -> is_Some (symbol_conversion_table !! c)) ->
  exists codes, Forall2 (fun c code => symbol_conversion_table !! c = Some code) l codes.
Proof.
  induction l as [|c l IH]; intros Hall.
  { exists []. constructor. }
  destruct (Hall c) as [code Hcode]; [by left|].
  destruct IH as [codes Hcodes]; [intros c' Hc'; apply Hall; by right|].
  exists (code :: codes). by constructor.
Qed.

Lemma convert_loop_missing (symbol_conversion_table : gmap N bytes) (l : str)
    (acc : bytes) (c : char) :
  c ∈ l -> symbol_conversion_table !! c = None ->
  for_each (fun c output_string =>
      match symbol_conversion_table !! c with
      | None => Raise (SystemExit 1)
      | Some code => Ok (output_string ++ code)
      end) l acc = Raise (SystemExit 1).
Proof.
  intros Hc Hnone. revert acc. induction l as [|x l IH]; intros acc.
  { by apply elem_of_nil in Hc. }
  cbn [for_each]. destruct (symbol_conversion_table !! x) as [code|] eqn:Hx;
    cbn [bind]; [|done].
  apply IH. apply elem_of_cons in Hc as [->|Hc]; [congruence|done].
Qed.

Lemma counted_symbols_convert (ft : font_tables) (cjk_font : gmap N Glyph)
    (text_list : list str) (fonts : list string)
    (sym_list : list char) (font_map : FontMap) (symbol_map : gmap N bytes)
    (text : str) :
  prepare_language ft cjk_font text_list fonts = Ok (sym_list, font_map, symbol_map) ->
  BACKSLASH ∉ text ->
  (forall c, c ∈ text -> c = LF \/ exists line, line ∈ text_list /\ c ∈ strip_line line) ->
  is_Ok (convert_string_bytes symbol_map text).
Proof.
  unfold prepare_language. intros Hrun Hbs Hcounted.
  unfold convert_string_bytes. rewrite !replace2_absent by (by rewrite ?replace2_absent).
  destruct (convert_loop_total symbol_map text) as [codes Hcodes].
  - intros c Hc. destruct (Hcounted c Hc) as [->|(line & Hline & Hin)].
    + exists [1]. apply (symbol_map_lookup _ _ _ _ _ _ _ Hrun). by left.
    + apply (candidates_in_sym_list _ _ _ _ _ _ _ _ Hrun).
      assert (Hsym : c ∈ symbols_by_occurrence text_list).
      { apply symbols_by_occurrence_elem_of, elem_of_concat.
        exists (strip_line line). split; [done|]. apply list_elem_of_fmap. by exists line. }
      unfold candidate_list. apply elem_of_app.
      destruct (decide (c ∈ forced_first_symbols)); [by left|right].
      by apply list_elem_of_filter.
  - exists (concat codes). apply convert_loop. exists codes. by split.
Qed.

(** X17. What is counted can be converted. When [prepare_language]
    returns its tables for the collected strings, a text without a
    backslash whose symbols are newlines and symbols counted in the
    collected strings is converted to bytes with the symbol table. This
    holds for every collected string that has neither a backslash nor a
    carriage return, and for two such strings joined by a newline, as the
    string table joins the two lines of a message. *)
Theorem counted_strings_convert (ft : font_tables) (cjk_font : gmap N Glyph)
    (text_list : list str) (fonts : list string)
    (sym_list : list char) (font_map : FontMap) (symbol_map : gmap N bytes) :
  prepare_language ft cjk_font text_list fonts = Ok (sym_list, font_map, symbol_map) ->
  (forall text, BACKSLASH ∉ text ->
     (forall c, c ∈ text ->
        c = LF \/ exists line, line ∈ text_list /\ c ∈ strip_line line) ->
     is_Ok (convert_string_bytes symbol_map text)) /\
  (forall line, line ∈ text_list -> BACKSLASH ∉ line -> CR ∉ line ->
     is_Ok (convert_string_bytes symbol_map line)) /\
  (forall line1 line2, line1 ∈ text_list -> line2 ∈ text_list ->
     BACKSLASH ∉ line1 -> CR ∉ line1 -> BACKSLASH ∉ line2 -> CR ∉ line2 ->
     is_Ok (convert_string_bytes symbol_map (line1 ++ [LF] ++ line2))).
Proof.
  intros Hrun.
  assert (Hplain : forall line c, line ∈ text_list -> BACKSLASH ∉ line -> CR ∉ line ->
            c ∈ line -> c = LF \/ exists line, line ∈ text_list /\ c ∈ strip_line line).
  { intros line c Hline Hbs Hcr Hc. destruct (decide (c = LF)) as [|Hlf]; [by left|].
    right. exists line. split; [done|].
    apply strip_line_plain; [done|done|done|]. by intros ->. }
  split_and!.
  - intros text. by apply (counted_symbols_convert _ _ _ _ _ _ _ _ Hrun).
  - intros line Hline Hbs Hcr.
    apply (counted_symbols_convert _ _ _ _ _ _ _ _ Hrun); [done|].
    intros c. by apply Hplain.
  - intros line1 line2 H1 H2 Hbs1 Hcr1 Hbs2 Hcr2.
    apply (counted_symbols_convert _ _ _ _ _ _ _ _ Hrun).
    + rewrite !not_elem_of_app. split_and!; [done| |done].
      intros ?%list_elem_of_singleton. done.
    + intros c [Hc|[Hc%list_elem_of_singleton|Hc]%elem_of_app]%elem_of_app.
      * by apply (Hplain line1).
      * by left.
      * by apply (Hplain line2).
Qed.

Lemma sample_language_Ok :
  prepare_language sample_font_tables sample_cjk_font sample_lines sample_fonts
    = Ok (sample_language.1.1, sample_language.1.2, sample_language.2).
Proof. vm_compute. reflexivity. Qed.

Lemma counted_strings_convert_witness :
  (str_of_string "b1" ∈ sample_lines) /\
  (BACKSLASH ∉ str_of_string "b1") /\ (CR ∉ str_of_string "b1") /\
  is_Ok (convert_string_bytes sample_language.2 (str_of_string "b1")).
Proof.
  assert (Hin : str_of_string "b1" ∈ sample_lines) by (unfold sample_lines; set_solver).
  assert (Hbs : BACKSLASH ∉ str_of_string "b1").
  { apply (bool_decide_unpack _). vm_compute. exact I. }
  assert (Hcr : CR ∉ str_of_string "b1").
  { apply (bool_decide_unpack _). vm_compute. exact I. }
  split_and!; [done|done|done|].
  apply (counted_strings_convert sample_font_tables sample_cjk_font sample_lines
           sample_fonts sample_language.1.1 sample_language.1.2 sample_language.2);
    [apply sample_language_Ok|done|done|done].
Defined.

(** X18. A carriage return is never converted. The count drops the
    carriage returns of the lines, so the symbol table that
    [prepare_language] returns has no code for it, and a text that holds
    one after its escapes are replaced ends the script with
    [sys.exit(1)]. *)
Theorem carriage_return_not_converted (ft : font_tables) (cjk_font : gmap N Glyph)
    (text_list : list str) (fonts : list string)
    (sym_list : list char) (font_map : FontMap) (symbol_map : gmap N bytes)
    (text : str) :
  prepare_language ft cjk_font text_list fonts = Ok (sym_list, font_map, symbol_map) ->
  CR ∈ replace2 BACKSLASH 110%N [LF] (replace2 BACKSLASH 114%N [] text) ->
  symbol_map !! CR = None /\
  convert_string_bytes symbol_map text = Raise (SystemExit 1).
Proof.
  unfold prepare_language. intros Hrun Hcr.
  assert (Hnone : symbol_map !! CR = None).
  { destruct (symbol_map !! CR) as [code|] eqn:Hcode; [|done]. exfalso.
    apply (symbol_map_lookup _ _ _ _ _ _ _ Hrun) in Hcode as [[? _] | (p & Hp & _)];
      [done|].
    apply list_elem_of_lookup_2 in Hp.
    destruct (final_list_has_bitmaps _ _ _ _ _ _ _ _ Hrun Hp) as [Hcand _].
    unfold candidate_list in Hcand. apply elem_of_app in Hcand as [Hd|Hc].
    - revert Hd. apply (bool_decide_unpack _). vm_compute. exact I.
    - apply list_elem_of_filter in Hc as [_ Hc].
      apply symbols_by_occurrence_elem_of, elem_of_concat in Hc
        as (l & Hc & (line & -> & _)%list_elem_of_fmap).
      by apply strip_line_elem_of in Hc as (_ & _ & ?). }
  split; [done|]. unfold convert_string_bytes. by apply convert_loop_missing with CR.
Qed.

Lemma carriage_return_not_converted_witness :
  (CR ∈ replace2 BACKSLASH 110%N [LF] (replace2 BACKSLASH 114%N [] [97; 13; 98]%N)) /\
  sample_language.2 !! CR = None /\
  convert_string_bytes sample_language.2 [97; 13; 98]%N = Raise (SystemExit 1).
Proof.
  assert (Hcr : CR ∈ replace2 BACKSLASH 110%N [LF]
                       (replace2 BACKSLASH 114%N [] [97; 13; 98]%N)).
  { apply (bool_decide_unpack _). vm_compute. exact I. }
  split; [done|].
  apply (carriage_return_not_converted sample_font_tables sample_cjk_font sample_lines
           sample_fonts sample_language.1.1 sample_language.1.2 sample_language.2
           [97; 13; 98]%N); [apply sample_language_Ok|done].
Defined.

(** ** Emitting the font tables *)

Lemma font_table_lines_total {V : Type} (table : gmap N V) (symbol_map : gmap N bytes)
    (line : char -> V -> bytes -> str) (sym_list : list char) (output_table : str) :
  (forall s, s ∈ sym_list -> is_Some (table !! s) /\ is_Some (symbol_map !! s)) ->
  is_Ok (for_each (fun sym output_table =>
           let* entry := dict_get table sym in
           let* code := dict_get symbol_map sym in
           Ok (output_table ++ line sym entry code)) sym_list output_table).
Proof.
  revert output_table. induction sym_list as [|s l IH]; intros output_table Hall;
    cbn [for_each]; [by eexists|].
  destruct (Hall s) as [[entry Hentry] [code Hcode]]; [by left|].
  unfold dict_get at 1 2. rewrite Hentry, Hcode. cbn [bind].
  apply IH. intros s' Hs'. apply Hall. by right.
Qed.

Lemma font12_uncompressed_concat (font_map : FontMap) (sym_list : list char)
    (acc data : bytes) :
  for_each (fun sym acc =>
      let* font12_line := dict_get (font12 font_map) sym in
      Ok (acc ++ font12_line)) sym_list acc = Ok data ->
  exists lines, Forall2 (fun s b => font12 font_map !! s = Some b) sym_list lines /\
                data = acc ++ concat lines.
Proof.
  revert acc. induction sym_list as [|s l IH]; intros acc; cbn [for_each].
  { intros [= <-]. exists []. split; [constructor|by rewrite app_nil_r]. }
  unfold dict_get at 1. destruct (font12 font_map !! s) as [b|] eqn:Hb; cbn [bind]; [|done].
  intros (lines & Hlines & ->)%IH. exists (b :: lines).
  split; [by constructor|]. simpl. by rewrite (assoc_L (++)).
Qed.

Lemma font12_uncompressed_total (font_map : FontMap) (sym_list : list char)
    (acc : bytes) :
  (forall s, s ∈ sym_list -> is_Some (font12 font_map !! s)) ->
  is_Ok (for_each (fun sym acc =>
           let* font12_line := dict_get (font12 font_map) sym in
           Ok (acc ++ font12_line)) sym_list acc).
Proof.
  revert acc. induction sym_list as [|s l IH]; intros acc Hall; cbn [for_each];
    [by eexists|].
  destruct (Hall s) as [b Hb]; [by left|].
  unfold dict_get. rewrite Hb. cbn [bind]. apply IH.
  intros s' Hs'. apply Hall. by right.
Qed.

Lemma concat_fixed_size {A : Type} (n : nat) (ls : list (list A)) :
  Forall (fun l => length l = n) ls ->
  length (concat ls) = (n * length ls)%nat /\
  forall p l, ls !! p = Some l -> take n (drop (n * p) (concat ls)) = l.
Proof.
  induction ls as [|l0 ls IH]; intros Hall.
  { split; [simpl; lia|done]. }
  apply Forall_cons in Hall as [Hl0 Hall]. destruct (IH Hall) as [Hlen Hslice].
  split; [simpl; rewrite length_app; lia|].
  intros [|p] l Hl; simpl in Hl.
  - injection Hl as <-. rewrite Nat.mul_0_r, drop_0. cbn [concat].
    by rewrite take_app_length'.
  - cbn [concat]. rewrite drop_app_ge by lia.
    replace (n * S p - length l0)%nat with (n * p)%nat by lia. by apply Hslice.
Qed.

Lemma get_cjk_glyph_length (cjk_font : gmap N Glyph) (sym : char) (bs : bytes) :
  get_cjk_glyph cjk_font sym = Ok bs -> length bs = 24%nat.
Proof.
  unfold get_cjk_glyph, dict_get.
  destruct (cjk_font !! sym) as [glyph|]; cbn [bind]; [|done].
  intros Hpack. by destruct (pack_glyph_byte glyph bs 0 0 Hpack) as [? _];
    [lia|unfold dst_w; lia|].
Qed.

(** X19. The font tables can be written for what the builder returns:
    [make_font_table_cpp] finds the large bitmap, the small entry and the
    code of every symbol of the symbol list, so it raises no [KeyError],
    and so does the loop that collects the large bitmaps for
    compression. *)
Theorem font_tables_written (ft : font_tables) (cjk_font : gmap N Glyph)
    (text_list : list char) (fonts : list string)
    (sym_list : list char) (font_map : FontMap) (symbol_map : gmap N bytes) :
  get_font_map_and_table ft cjk_font text_list fonts = Ok (sym_list, font_map, symbol_map) ->
  is_Ok (make_font_table_cpp sym_list font_map symbol_map) /\
  is_Ok (font12_uncompressed sym_list font_map).
Proof.
  intros Hrun.
  assert (Hall : forall s, s ∈ sym_list ->
            is_Some (font12 font_map !! s) /\ is_Some (font06 font_map !! s) /\
            is_Some (symbol_map !! s)).
  { intros s Hs.
    destruct (final_list_has_bitmaps _ _ _ _ _ _ _ _ Hrun Hs) as (Hcand & H12 & H06).
    split_and!; [done|done|].
    by apply (candidates_in_sym_list _ _ _ _ _ _ _ _ Hrun). }
  split.
  - unfold make_font_table_cpp, make_font_table_12_cpp, make_font_table_06_cpp.
    destruct (font_table_lines_total (font12 font_map) symbol_map
                (fun sym font12_line code =>
                   bytes_to_c_hex font12_line ++ str_of_string "//"
                     ++ bytes_to_escaped code ++ str_of_string " -> " ++ [sym] ++ [LF])
                sym_list (str_of_string "const uint8_t USER_FONT_12[] = {" ++ [LF]))
      as [t12 H12]; [intros s Hs; by destruct (Hall s Hs) as (? & _ & ?)|].
    rewrite H12. cbn [bind].
    destruct (font_table_lines_total (font06 font_map) symbol_map
                (fun sym font_bytes code =>
                   match font_bytes with
                   | Some (b :: bs) => bytes_to_c_hex (b :: bs)
                   | _ => str_of_string "//                                 "
                   end ++ str_of_string "//"
                     ++ bytes_to_escaped code ++ str_of_string " -> " ++ [sym] ++ [LF])
                sym_list (str_of_string "const uint8_t USER_FONT_6x8[] = {" ++ [LF]))
      as [t06 H06]; [intros s Hs; by destruct (Hall s Hs) as (_ & ? & ?)|].
    rewrite H06. cbn [bind]. by eexists.
  - apply font12_uncompressed_total. intros s Hs. by destruct (Hall s Hs) as (? & _).
Qed.

(** X20. The layout of the uncompressed large font. When the large
    bitmaps of the table fonts have 24 bytes each, the bytes collected
    from the font map that the builder returns are 24 for each symbol of
    the symbol list, and the bitmap of the symbol at position [p], whose
    code is that of the index [p + 2], stands at the offset [24 * p]. *)
Theorem font12_uncompressed_layout (ft : font_tables) (cjk_font : gmap N Glyph)
    (text_list : list char) (fonts : list string)
    (sym_list : list char) (font_map : FontMap) (symbol_map : gmap N bytes) :
  get_font_map_and_table ft cjk_font text_list fonts = Ok (sym_list, font_map, symbol_map) ->
  large_bitmaps_24 ft fonts ->
  exists data,
    font12_uncompressed sym_list font_map = Ok data /\
    length data = (24 * length sym_list)%nat /\
    forall p s, sym_list !! p = Some s ->
      font12 font_map !! s = Some (take 24 (drop (24 * p) data)).
Proof.
  intros Hrun Hsize.
  destruct (font12_uncompressed_total font_map sym_list []) as [data Hdata].
  { intros s Hs. by destruct (final_list_has_bitmaps _ _ _ _ _ _ _ _ Hrun Hs) as (_ & ? & _). }
  exists data. split; [done|].
  apply font12_uncompressed_concat in Hdata as (lines & Hlines & ->).
  rewrite app_nil_l.
  assert (Hall : Forall (fun l => length l = 24%nat) lines).
  { apply Forall_forall. intros b [p Hp]%list_elem_of_lookup.
    destruct (Forall2_lookup_r _ _ _ _ _ Hlines Hp) as (s & Hs & Hb).
    destruct (final_lines_recorded _ _ _ _ _ _ _ _ Hrun (list_elem_of_lookup_2 _ _ _ Hs))
      as (_ & font & _ & _ & v & x & _ & Hfont & _ & _ & _ & _ & Hv & _ & Hsup).
    assert (v = b) as -> by congruence.
    destruct Hsup as (tables & Hload & Hsl). unfold load_font_tables in Hload.
    destruct (decide (font = NAME_CJK ft)) as [->|Hne].
    - injection Hload as <-. destruct Hsl as [Hglyph _].
      by apply get_cjk_glyph_length in Hglyph.
    - destruct (get_font_maps_for_name ft font) as [[t12 t06]|e] eqn:Hget; [|done].
      injection Hload as <-. destruct Hsl as [H12 _].
      by apply (Hsize font t12 t06 s b). }
  destruct (concat_fixed_size 24 lines Hall) as [Hlen Hslice].
  pose proof (Forall2_length _ _ _ Hlines) as Hll.
  split; [rewrite Hlen; lia|].
  intros p s Hs. destruct (Forall2_lookup_l _ _ _ _ _ Hlines Hs) as (b & Hb & Hfb).
  by rewrite (Hslice p b Hb).
Qed.

Lemma sample_large_bitmaps_24 : large_bitmaps_24 sample_font_tables sample_fonts.
Proof.
  intros font table12 table06 s b _ _ Hget Hb. simpl in Hget.
  destruct (decide (font = "ascii_basic")); [|done]. injection Hget as <- <-.
  unfold sample_font12 in Hb. apply elem_of_list_to_map_2 in Hb.
  by apply list_elem_of_fmap in Hb as (c & [= _ ->] & _).
Qed.

Lemma font12_uncompressed_layout_witness :
  large_bitmaps_24 sample_font_tables sample_fonts /\
  exists data,
    font12_uncompressed sample_table.1.1 sample_table.1.2 = Ok data /\
    length data = (24 * length sample_table.1.1)%nat /\
    forall p s, sample_table.1.1 !! p = Some s ->
      font12 sample_table.1.2 !! s = Some (take 24 (drop (24 * p) data)).
Proof.
  split; [apply sample_large_bitmaps_24|].
  apply (font12_uncompressed_layout sample_font_tables sample_cjk_font
           sample_text_list sample_fonts sample_table.1.1 sample_table.1.2 sample_table.2);
    [apply sample_table_Ok|apply sample_large_bitmaps_24].
Defined.

Lemma font_tables_written_witness :
  is_Ok (make_font_table_cpp sample_table.1.1 sample_table.1.2 sample_table.2) /\
  is_Ok (font12_uncompressed sample_table.1.1 sample_table.1.2).
Proof.
  apply (font_tables_written sample_font_tables sample_cjk_font
           sample_text_list sample_fonts).
  apply sample_table_Ok.
Defined.

(** ** Writing bytes as a C array *)

Lemma concat_rows {A : Type} (data : list A) (B N : nat) :
  concat ((fun k => take B (drop (k * B) data)) <$> seq 0 N) = take (N * B) data.
Proof.
  induction N as [|N IH]; [done|].
  rewrite seq_S, fmap_app, concat_app, IH. simpl. rewrite app_nil_r.
  rewrite take_take_drop. f_equal. lia.
Qed.

Lemma c_array_rows_positive (data : bytes) (bytes_per_line : Z) :
  0 < bytes_per_line ->
  let B := Z.to_nat bytes_per_line in
  let N := Z.to_nat ((Z.of_nat (length data) + bytes_per_line - 1) `div` bytes_per_line) in
  c_array_rows data bytes_per_line
    = Ok ((fun k => take B (drop (k * B) data)) <$> seq 0 N) /\
  (length data <= N * B)%nat /\
  (forall k, (k < N)%nat -> (k * B < length data)%nat).
Proof.
  intros Hpos B N.
  set (L := Z.of_nat (length data)) in *.
  set (n := (L + bytes_per_line - 1) `div` bytes_per_line) in *.
  assert (Hn : 0 <= n) by (apply Z.div_pos; lia).
  pose proof (Z.mul_div_le (L + bytes_per_line - 1) bytes_per_line Hpos) as Hlow.
  pose proof (Z.mul_succ_div_gt (L + bytes_per_line - 1) bytes_per_line Hpos) as Hhigh.
  fold n in Hlow, Hhigh.
  assert (Hlen : (length data <= N * B)%nat) by (unfold N, B; nia).
  assert (Hstart : forall k, (k < N)%nat -> (k * B < length data)%nat)
    by (intros k Hk; unfold N, B in *; nia).
  split_and!; [|done|done].
  unfold c_array_rows, range_step. fold L.
  destruct (Z.eqb_spec bytes_per_line 0); [lia|].
  destruct (Z.ltb_spec 0 bytes_per_line); [|lia]. cbn [bind]. fold n. f_equal.
  unfold seqZ. rewrite <- !list_fmap_compose. fold N.
  apply list_fmap_ext. intros i k Hk. apply lookup_seq in Hk as [Hki Hk].
  simpl in Hki. subst i. cbn [compose].
  specialize (Hstart k Hk). unfold bytes_slice. fold L.
  destruct (Z.ltb_spec ((Z.of_nat k + 0) * bytes_per_line) 0); [lia|].
  destruct (Z.ltb_spec ((Z.of_nat k + 0) * bytes_per_line + bytes_per_line) 0); [lia|].
  replace (Z.to_nat (0 `max` (L `min` ((Z.of_nat k + 0) * bytes_per_line))))
    with (k * B)%nat by (unfold B, L in *; nia).
  destruct (Z.le_gt_cases ((Z.of_nat k + 0) * bytes_per_line + bytes_per_line) L).
  - f_equal. unfold B, L in *. nia.
  - rewrite !take_ge; [done| |]; rewrite length_drop; unfold B, L in *; nia.
Qed.

(** X21. The rows of a C array. For a positive number of bytes per line
    [write_bytes_as_c_array] cuts the data into rows that, put together
    again, are the data: no byte is lost or written twice; every row has
    at least one byte and at most [bytes_per_line], and every row but the
    last has exactly [bytes_per_line]. With [bytes_per_line = 0] it
    raises [ValueError], and with a negative one it writes an array
    without rows, whatever the data. *)
Theorem c_array_rows_partition (name : str) (data : bytes) (indent bytes_per_line : Z) :
  (0 < bytes_per_line ->
   exists rows,
     c_array_rows data bytes_per_line = Ok rows /\
     concat rows = data /\
     (forall k row, rows !! k = Some row ->
        (0 < length row)%nat /\ Z.of_nat (length row) <= bytes_per_line /\
        ((S k < length rows)%nat -> Z.of_nat (length row) = bytes_per_line))) /\
  (bytes_per_line = 0 ->
   write_bytes_as_c_array name data indent bytes_per_line
     = Raise (ValueError "range() arg 3 must not be zero")) /\
  (bytes_per_line < 0 ->
   write_bytes_as_c_array name data indent bytes_per_line
     = Ok (str_of_string "const uint8_t " ++ name ++ str_of_string "[] = {" ++ [LF]
           ++ str_of_string "}; // " ++ name ++ [LF; LF])).
Proof.
  split_and!.
  - intros Hpos. destruct (c_array_rows_positive data bytes_per_line Hpos)
      as (Hrows & Hlen & Hstart).
    eexists. split; [exact Hrows|]. split.
    + rewrite concat_rows. by apply take_ge.
    + intros k row Hk. rewrite list_lookup_fmap in Hk.
      rewrite length_fmap, length_seq.
      destruct (seq _ _ !! k) as [k'|] eqn:Hk'; [|done].
      apply lookup_seq in Hk' as [-> Hk']. injection Hk as <-.
      rewrite length_take, length_drop. pose proof (Hstart k Hk') as Hthis.
      split_and!; [lia|lia|]. intros Hnext. specialize (Hstart (S k) Hnext). lia.
  - intros ->. done.
  - intros Hneg. unfold write_bytes_as_c_array, c_array_rows, range_step.
    destruct (Z.eqb_spec bytes_per_line 0); [lia|].
    destruct (Z.ltb_spec 0 bytes_per_line); [lia|]. cbn [bind].
    assert (Hn : (- Z.of_nat (length data) - bytes_per_line - 1) `div` (- bytes_per_line)
                 <= 0).
    { assert ((- Z.of_nat (length data) - bytes_per_line - 1) `div` (- bytes_per_line) < 1);
        [apply Z.div_lt_upper_bound; lia|lia]. }
    unfold seqZ.
    replace (Z.to_nat ((- Z.of_nat (length data) - bytes_per_line - 1)
                         `div` (- bytes_per_line))) with 0%nat by lia.
    done.
Qed.

Lemma c_array_rows_partition_witness :
  exists rows,
    c_array_rows [1; 2; 3; 4; 5] 2 = Ok rows /\
    concat rows = [1; 2; 3; 4; 5] /\
    (forall k row, rows !! k = Some row ->
       (0 < length row)%nat /\ Z.of_nat (length row) <= 2 /\
       ((S k < length rows)%nat -> Z.of_nat (length row) = 2)).
Proof.
  apply (c_array_rows_partition [] [1; 2; 3; 4; 5] 2 2). lia.
Defined.

(** ** Hexadecimal text *)

Lemma hex_value_digit (d : Z) : 0 <= d < 16 -> hex_value (hex_digit d) = Some d.
Proof.
  intros Hd.
  assert (Hcases : d = 0 \/ d = 1 \/ d = 2 \/ d = 3 \/ d = 4 \/ d = 5 \/ d = 6 \/ d = 7 \/
                   d = 8 \/ d = 9 \/ d = 10 \/ d = 11 \/ d = 12 \/ d = 13 \/ d = 14 \/
                   d = 15) by lia.
  repeat (destruct Hcases as [->|Hcases]; [reflexivity|]). by subst d.
Qed.

Lemma format_02X_value (i : Z) :
  0 <= i < 256 ->
  exists h l, format_02X i = [h; l] /\
              hex_value h = Some (i `div` 16) /\ hex_value l = Some (i `mod` 16) /\
              16 * (i `div` 16) + i `mod` 16 = i.
Proof.
  intros Hi. exists (hex_digit (i `div` 16)), (hex_digit (i `mod` 16)).
  split_and!; [done| | |].
  - apply hex_value_digit. split; [apply Z.div_pos; lia|apply Z.div_lt_upper_bound; lia].
  - apply hex_value_digit. apply Z.mod_pos_bound. lia.
  - symmetry. apply Z.div_mod. lia.
Qed.

(** X22. The hexadecimal text determines the bytes. Read back, the
    escapes that [bytes_to_escaped] writes for bytes and the row that
    [bytes_to_c_hex] writes for them denote these bytes again, so
    different bytes are never written as the same text. *)
Theorem hex_text_round_trip (b : bytes) :
  Forall (fun i => 0 <= i < 256) b ->
  parse_escaped (bytes_to_escaped b) = Some b /\
  parse_c_hex (bytes_to_c_hex b) = Some b.
Proof.
  intros Hall. split.
  - unfold bytes_to_escaped. induction Hall as [|i b Hi Hall IH]; [done|].
    destruct (format_02X_value i Hi) as (h & l & Hfmt & Hh & Hl & Hval).
    rewrite fmap_cons. cbn [concat]. rewrite Hfmt.
    change (str_of_string "\x" ++ [h; l]) with [92%N; 120%N; h; l].
    cbn [app parse_escaped]. rewrite Hh, Hl, IH. simpl. by rewrite Hval.
  - unfold bytes_to_c_hex. induction Hall as [|i b Hi Hall IH]; [done|].
    destruct (format_02X_value i Hi) as (h & l & Hfmt & Hh & Hl & Hval).
    rewrite fmap_cons, Hfmt.
    change (str_of_string "0x" ++ [h; l]) with [48%N; 120%N; h; l].
    destruct b as [|j b].
    + cbn. rewrite Hh, Hl. simpl. by rewrite Hval.
    + rewrite fmap_cons in *.
      set (tail := (str_of_string "0x" ++ format_02X j)
                   :: ((fun i => str_of_string "0x" ++ format_02X i) <$> b)) in *.
      change (str_join (str_of_string ", ") ([48%N; 120%N; h; l] :: tail))
        with ([48%N; 120%N; h; l] ++ [44%N; 32%N]
                ++ str_join (str_of_string ", ") tail).
      rewrite <- !(assoc_L (++)).
      set (text := str_join (str_of_string ", ") tail ++ str_of_string ",") in *.
      cbn [app parse_c_hex]. rewrite Hh, Hl. cbn [mbind option_bind].
      rewrite IH. simpl. by rewrite Hval.
Qed.

Lemma hex_text_round_trip_witness :
  parse_escaped (bytes_to_escaped [0; 171; 255]) = Some [0; 171; 255] /\
  parse_c_hex (bytes_to_c_hex [0; 171; 255]) = Some [0; 171; 255].
Proof.
  apply (hex_text_round_trip [0; 171; 255]). repeat constructor; lia.
Defined.

(** ** The last phase of the table builder *)

Lemma assign_symbol_bytes_assert (sym_list : list char) (index : nat)
    (symbol_map : gmap N bytes) (s : char) :
  s ∈ sym_list -> is_Some (symbol_map !! s) ->
  Z.of_nat (index + length sym_list) <= MAX_FONT_INDEX ->
  assign_symbol_bytes sym_list index symbol_map = Raise AssertionError.
Proof.
  unfold assign_symbol_bytes. revert index symbol_map.
  induction sym_list as [|sym l IH]; intros index symbol_map Hs Hin Hlen;
    cbn [enumerate_from for_each].
  { by apply elem_of_nil in Hs. }
  destruct (decide (is_Some (symbol_map !! sym))) as [|Hfresh]; [done|].
  simpl in Hlen.
  destruct (proj2 (get_bytes_from_font_index_Ok (Z.of_nat index))) as [code ->]; [lia|].
  cbn [bind]. apply IH; [|by apply lookup_insert_is_Some'; right|lia].
  apply elem_of_cons in Hs as [->|Hs]; [done|done].
Qed.

Lemma split_lists (font06_map : gmap N (option bytes)) (l both large : list char) :
  split_by_fonts font06_map l = Ok (both, large) ->
  NoDup l ->
  both ++ large ≡ₚ l.
Proof.
  intros (-> & -> & Hall)%split_by_fonts_Ok Hnd.
  apply NoDup_Permutation; [|done|].
  - apply NoDup_app. split_and!; [by apply NoDup_filter| |by apply NoDup_filter].
    intros s [Hb _]%list_elem_of_filter [Hl _]%list_elem_of_filter.
    unfold has_both_fonts in Hb. unfold is_large_only in Hl.
    by destruct (font06_map !! s) as [[?|]|].
  - intros s. rewrite elem_of_app, !list_elem_of_filter. split; [by intros [[_ ?]|[_ ?]]|].
    intros Hs. rewrite Forall_forall in Hall. destruct (Hall s Hs) as [[small|] Hx].
    + left. split; [|done]. unfold has_both_fonts. by rewrite Hx.
    + right. split; [|done]. unfold is_large_only. by rewrite Hx.
Qed.

(** X23. Once the fonts have supplied every symbol, the table builder
    can fail in one way only: its assertion that a symbol has no code
    yet fails when the newline, which has the code [0x01] from the
    start, is among the symbols, and for no other symbol list; the codec
    never raises, since the symbols are no more than it can number. *)
Theorem table_builder_assertion (ft : font_tables) (cjk_font : gmap N Glyph)
    (text_list : list char) (fonts : list string) (font_maps : FontMapsPerFont)
    (font12_map : gmap N bytes) (font06_map : gmap N (option bytes))
    (both large : list char) :
  get_font_map_per_font ft cjk_font (candidate_list text_list) fonts = Ok font_maps ->
  merge_font_maps font_maps fonts = Ok (font12_map, font06_map) ->
  split_by_fonts font06_map (candidate_list text_list) = Ok (both, large) ->
  (LF ∈ text_list ->
   get_font_map_and_table ft cjk_font text_list fonts = Raise AssertionError) /\
  (LF ∉ text_list ->
   exists symbol_map,
     get_font_map_and_table ft cjk_font text_list fonts
       = Ok (both ++ large, {| font12 := font12_map; font06 := font06_map |}, symbol_map)).
Proof.
  intros Hper Hmerge Hsplit.
  destruct (get_font_map_per_font_Ok _ _ _ _ _ Hper) as (Hnd & _ & Hcount & _).
  pose proof (split_lists _ _ _ _ Hsplit Hnd) as Hperm.
  assert (Hlen : Z.of_nat (2 + length (both ++ large)) <= MAX_FONT_INDEX).
  { rewrite Hperm. unfold MAX_SYMBOL_COUNT in Hcount. unfold MAX_FONT_INDEX. lia. }
  unfold get_font_map_and_table. rewrite Hper. cbn [bind]. rewrite Hmerge. cbn [bind].
  rewrite Hsplit. cbn [bind]. split.
  - intros Hlf.
    rewrite (assign_symbol_bytes_assert _ _ _ LF); [done| |by rewrite lookup_singleton_eq|done].
    rewrite Hperm. unfold candidate_list. apply elem_of_app. right.
    apply list_elem_of_filter. split; [|done].
    apply (bool_decide_unpack _). vm_compute. exact I.
  - intros Hlf.
    destruct (assign_symbol_bytes_total (both ++ large) 2 {[ LF := [1] ]})
      as [symbol_map Hassign]; [by rewrite Hperm| |done|].
    + intros s Hs. rewrite Hperm in Hs. apply lookup_singleton_ne. intros <-.
      unfold candidate_list in Hs. apply elem_of_app in Hs as [Hs|Hs].
      * revert Hs. apply (bool_decide_unpack _). vm_compute. exact I.
      * by apply list_elem_of_filter in Hs as [_ ?].
    + exists symbol_map. by rewrite Hassign.
Qed.

Lemma table_builder_assertion_witness :
  exists font_maps font12_map font06_map both large,
    get_font_map_per_font sample_font_tables sample_cjk_font
      (candidate_list sample_text_list) sample_fonts = Ok font_maps /\
    merge_font_maps font_maps sample_fonts = Ok (font12_map, font06_map) /\
    split_by_fonts font06_map (candidate_list sample_text_list) = Ok (both, large) /\
    (LF ∈ sample_text_list ->
     get_font_map_and_table sample_font_tables sample_cjk_font sample_text_list sample_fonts
       = Raise AssertionError) /\
    (LF ∉ sample_text_list ->
     exists symbol_map,
       get_font_map_and_table sample_font_tables sample_cjk_font sample_text_list
         sample_fonts
         = Ok (both ++ large, {| font12 := font12_map; font06 := font06_map |},
               symbol_map)).
Proof.
  destruct (get_font_map_and_table_Ok _ _ _ _ _ _ _ sample_table_Ok)
    as (font_maps & both & large & Hper & Hmerge & Hsplit & _).
  exists font_maps, (font12 sample_table.1.2), (font06 sample_table.1.2), both, large.
  split; [done|]. split; [done|]. split; [done|].
  by apply (table_builder_assertion sample_font_tables sample_cjk_font
              sample_text_list sample_fonts font_maps).
Defined.

(** X24. The symbol list that the builder returns is the candidate list
    in another order: the ten digits and the other symbols of the symbol
    list handed in, each of them once. *)
Theorem symbol_list_is_candidate_list (ft : font_tables) (cjk_font : gmap N Glyph)
    (text_list : list char) (fonts : list string)
    (sym_list : list char) (font_map : FontMap) (symbol_map : gmap N bytes) :
  get_font_map_and_table ft cjk_font text_list fonts = Ok (sym_list, font_map, symbol_map) ->
  sym_list ≡ₚ candidate_list text_list /\
  sym_list ≡ₚ forced_first_symbols ++ filter (fun x => x ∉ forced_first_symbols) text_list /\
  length sym_list
    = (10 + length (filter (fun x => x ∉ forced_first_symbols) text_list))%nat.
Proof.
  intros Hrun.
  destruct (get_font_map_and_table_Ok _ _ _ _ _ _ _ Hrun)
    as (font_maps & both & large & Hper & _ & Hsplit & -> & _).
  destruct (get_font_map_per_font_Ok _ _ _ _ _ Hper) as (Hnd & _).
  pose proof (split_lists _ _ _ _ Hsplit Hnd) as Hperm.
  split_and!; [done|done|]. rewrite Hperm. unfold candidate_list.
  by rewrite length_app.
Qed.

Lemma symbol_list_is_candidate_list_witness :
  sample_table.1.1 ≡ₚ candidate_list sample_text_list /\
  sample_table.1.1
    ≡ₚ forced_first_symbols ++ filter (fun x => x ∉ forced_first_symbols) sample_text_list /\
  length sample_table.1.1
    = (10 + length (filter (fun x => x ∉ forced_first_symbols) sample_text_list))%nat.
Proof.
  apply (symbol_list_is_candidate_list sample_font_tables sample_cjk_font
           sample_text_list sample_fonts _ sample_table.1.2 sample_table.2).
  apply sample_table_Ok.
Defined.

(** ** The most used symbols get the lowest codes *)

Lemma sublist_order {A : Type} (l1 l2 : list A) (i j : nat) (a b : A) :
  l1 `sublist_of` l2 -> (i < j)%nat -> l1 !! i = Some a -> l1 !! j = Some b ->
  exists i' j', (i' < j')%nat /\ l2 !! i' = Some a /\ l2 !! j' = Some b.
Proof.
  intros Hsub. revert i j. induction Hsub as [|x l1 l2 Hsub IH|x l1 l2 Hsub IH];
    intros i j Hij Hi Hj; [done| |].
  - destruct j as [|j]; [lia|]. simpl in Hj. destruct i as [|i]; simpl in Hi.
    + injection Hi as ->. apply list_elem_of_lookup_2 in Hj.
      apply (fun H => elem_of_sublist _ _ _ H Hsub), list_elem_of_lookup in Hj
        as [j' Hj'].
      exists 0%nat, (S j'). split_and!; [lia|done|done].
    + destruct (IH i j) as (i' & j' & ? & ? & ?); [lia|done|done|].
      exists (S i'), (S j'). split_and!; [lia|done|done].
  - destruct (IH i j Hij Hi Hj) as (i' & j' & ? & ? & ?).
    exists (S i'), (S j'). split_and!; [lia|done|done].
Qed.

Lemma app_order {A : Type} (l1 l2 : list A) (i j : nat) (a b : A) :
  (i < j)%nat -> (l1 ++ l2) !! i = Some a -> (l1 ++ l2) !! j = Some b ->
  a ∈ l1 \/
  exists i' j', (i' < j')%nat /\ l2 !! i' = Some a /\ l2 !! j' = Some b.
Proof.
  intros Hij Hi Hj. apply lookup_app_Some in Hi as [Hi|[Hli Hi]].
  { left. by eapply list_elem_of_lookup_2. }
  right. apply lookup_app_Some in Hj as [Hj|[Hlj Hj]].
  { apply lookup_lt_Some in Hj. lia. }
  exists (i - length l1)%nat, (j - length l1)%nat. split_and!; [lia|done|done].
Qed.

Lemma app_order_l {A : Type} (l1 l2 : list A) (i j : nat) (a b : A) :
  (i < j)%nat -> (l1 ++ l2) !! i = Some a -> (l1 ++ l2) !! j = Some b ->
  b ∈ l2 \/
  exists i' j', (i' < j')%nat /\ l1 !! i' = Some a /\ l1 !! j' = Some b.
Proof.
  intros Hij Hi Hj. apply lookup_app_Some in Hj as [Hj|[Hlj Hj]].
  2: { left. by eapply list_elem_of_lookup_2. }
  right. apply lookup_app_Some in Hi as [Hi|[Hli Hi]].
  2: { apply lookup_lt_Some in Hj. lia. }
  exists i, j. split_and!; [lia|done|done].
Qed.

(** X25. The most used symbols get the lowest codes. In the symbol list
    that [prepare_language] returns, of two symbols other than digits
    that are in the same group (both with a small bitmap, or both
    without) the one that comes first, and so has the lower code index,
    occurs more often in the collected strings, or as often and has the
    greater code point. *)
Theorem frequent_symbols_first (ft : font_tables) (cjk_font : gmap N Glyph)
    (text_list : list str) (fonts : list string)
    (sym_list : list char) (font_map : FontMap) (symbol_map : gmap N bytes)
    (i j : nat) (a b : char) :
  prepare_language ft cjk_font text_list fonts = Ok (sym_list, font_map, symbol_map) ->
  (i < j)%nat -> sym_list !! i = Some a -> sym_list !! j = Some b ->
  a ∉ forced_first_symbols -> b ∉ forced_first_symbols ->
  has_both_fonts (font06 font_map) a = has_both_fonts (font06 font_map) b ->
  (occurrences text_list b < occurrences text_list a)%nat \/
  (occurrences text_list b = occurrences text_list a /\ (b < a)%N).
Proof.
  unfold prepare_language. intros Hrun Hij Hi Hj Ha Hb Hgroup.
  destruct (get_font_map_and_table_Ok _ _ _ _ _ _ _ Hrun)
    as (font_maps & both & large & _ & _ & Hsplit & -> & _).
  apply split_by_fonts_Ok in Hsplit as (-> & -> & Hall).
  set (cand := candidate_list (symbols_by_occurrence text_list)) in *.
  assert (Hcand : exists i' j', (i' < j')%nat /\ cand !! i' = Some a /\ cand !! j' = Some b).
  { destruct (has_both_fonts (font06 font_map) a) eqn:Hga.
    - destruct (app_order_l _ _ i j a b Hij Hi Hj)
        as [Hbl | (i' & j' & Hij' & Hi' & Hj')].
      + apply list_elem_of_filter in Hbl as [Hbl _]. unfold is_large_only in Hbl.
        unfold has_both_fonts in Hgroup.
        by destruct (font06 font_map !! b) as [[?|]|].
      + apply (sublist_order _ cand i' j' a b (sublist_filter _ _) Hij' Hi' Hj').
    - destruct (app_order _ _ i j a b Hij Hi Hj)
        as [Hab | (i' & j' & Hij' & Hi' & Hj')].
      + apply list_elem_of_filter in Hab as [Hab _]. by rewrite Hga in Hab.
      + apply (sublist_order _ cand i' j' a b (sublist_filter _ _) Hij' Hi' Hj'). }
  destruct Hcand as (i' & j' & Hij' & Hi' & Hj'). unfold cand, candidate_list in Hi', Hj'.
  destruct (app_order _ _ i' j' a b Hij' Hi' Hj') as [Hd | (i2 & j2 & Hij2 & Hi2 & Hj2)];
    [done|].
  destruct (sublist_order _ (symbols_by_occurrence text_list) i2 j2 a b
              (sublist_filter _ _) Hij2 Hi2 Hj2)
    as (i3 & j3 & Hij3 & Hi3 & Hj3).
  by apply (symbols_by_occurrence_sorted text_list i3 j3).
Qed.

Lemma frequent_symbols_first_witness :
  sample_language.1.1 !! 10%nat = Some 98%N /\
  sample_language.1.1 !! 11%nat = Some 97%N /\
  ((occurrences sample_lines 97%N < occurrences sample_lines 98%N)%nat \/
   (occurrences sample_lines 97%N = occurrences sample_lines 98%N /\ (97 < 98)%N)).
Proof.
  assert (H10 : sample_language.1.1 !! 10%nat = Some 98%N) by (vm_compute; reflexivity).
  assert (H11 : sample_language.1.1 !! 11%nat = Some 97%N) by (vm_compute; reflexivity).
  split; [done|]. split; [done|].
  apply (frequent_symbols_first sample_font_tables sample_cjk_font sample_lines
           sample_fonts sample_language.1.1 sample_language.1.2 sample_language.2
           10 11 98%N 97%N); [apply sample_language_Ok|lia|done|done| | |].
  - apply (bool_decide_unpack _). vm_compute. exact I.
  - apply (bool_decide_unpack _). vm_compute. exact I.
  - vm_compute. reflexivity.
Defined.
